(** * go-fuzz-runner: corpus manager, fuzz engine and target discovery

    A shallow embedding of the core of go-fuzz-runner:

    - [internal/corpus/manager.go]: [CorpusManager], [GetTargetDir],
      [ImportNewCorpusEntries], [Minimize], [copyFile];
    - [internal/runner/engine.go]: [Result], [FuzzEngine], [RunAll],
      [RunTarget], [getTargetDuration], [copyDir];
    - [internal/target/discovery.go]: [Target], [findTargetsInPackage],
      [hasFuzzParameter];
    - [cmd/fuzzctl/run.go]: [truncate];
    - [pkg/config/config.go]: [Config], [Default].

    Go strings are byte sequences and are modelled by [string].  The file
    system is a finite map from paths to nodes, external commands are
    functions supplied by an environment record, and every library call the
    program makes is recorded in a trace. *)

From Stdlib Require Import ZArith Ascii String List Lia Bool.
From Stdlib Require Import SpecFloat.
From stdpp Require Import base option list gmap strings fin_maps.

Local Open Scope string_scope.
Local Open Scope Z_scope.

(** ** Strings (package [strings]) *)

Module Strings.

(** [strings.HasPrefix(s, prefix)]. *)
Definition HasPrefix (s pre : string) : bool := String.prefix pre s.

(** [strings.HasSuffix(s, suffix)]:
    [len(s) >= len(suffix) && s[len(s)-len(suffix):] == suffix]. *)
Definition HasSuffix (s suf : string) : bool :=
  (String.length suf <=? String.length s)%nat &&
  String.eqb
    (String.substring (String.length s - String.length suf)
                      (String.length suf) s)
    suf.

(** Left-to-right replacement of the non-overlapping occurrences of a
    non-empty [old]; [skip] counts the bytes of an occurrence that are
    still to be dropped. *)
Fixpoint replace_from (skip : nat) (old new s : string) : string :=
  match s with
  | EmptyString => EmptyString
  | String c s' =>
      match skip with
      | S k => replace_from k old new s'
      | O =>
          if String.prefix old s
          then new +:+ replace_from (String.length old - 1) old new s'
          else String c (replace_from O old new s')
      end
  end.

(** For an empty [old], Go inserts [new] before every UTF-8 sequence and
    at the end; the model does so around every byte, which is the same on
    ASCII text.  The program only ever passes ["/"] as [old]. *)
Fixpoint intersperse_bytes (new s : string) : string :=
  match s with
  | EmptyString => new
  | String c s' => new +:+ String c (intersperse_bytes new s')
  end.

(** [strings.ReplaceAll(s, old, new)]. *)
Definition ReplaceAll (s old new : string) : string :=
  match old with
  | EmptyString => intersperse_bytes new s
  | _ => replace_from O old new s
  end.

(** The line feed, as a string. *)
Definition line_feed : string := String (ascii_of_nat 10) EmptyString.

(** Does the byte [c] occur in [s]? *)
Fixpoint contains_byte (c : ascii) (s : string) : bool :=
  match s with
  | EmptyString => false
  | String d s' => Ascii.eqb c d || contains_byte c s'
  end.

(** ASCII white space, as [unicode.IsSpace] sees it below 0x80. *)
Definition is_space (c : ascii) : bool :=
  let n := nat_of_ascii c in
  ((9 <=? n) && (n <=? 13))%nat || (n =? 32)%nat.

Fixpoint trim_left (s : string) : string :=
  match s with
  | EmptyString => EmptyString
  | String c s' => if is_space c then trim_left s' else s
  end.

Fixpoint trim_right (s : string) : string :=
  match s with
  | EmptyString => EmptyString
  | String c s' =>
      match trim_right s' with
      | EmptyString => if is_space c then EmptyString else String c EmptyString
      | r => String c r
      end
  end.

(** [strings.TrimSpace(s)], on the ASCII white space. *)
Definition TrimSpace (s : string) : string := trim_right (trim_left s).

(** The pieces of [s] between the occurrences of a non-empty [sep], from
    left to right; [skip] counts the bytes of an occurrence that are still
    to be dropped. *)
Fixpoint split_from (skip : nat) (sep s : string) : list string :=
  match s with
  | EmptyString => [EmptyString]
  | String c s' =>
      match skip with
      | S k => split_from k sep s'
      | O =>
          if String.prefix sep s
          then EmptyString :: split_from (String.length sep - 1) sep s'
          else match split_from O sep s' with
               | piece :: pieces => String c piece :: pieces
               | [] => [String c EmptyString]
               end
      end
  end.

(** [strings.Split(s, sep)] for a non-empty [sep] (the program splits at
    the line feed): one piece more than there are occurrences. *)
Definition Split (s sep : string) : list string := split_from O sep s.

End Strings.

(** ** Paths (package [path/filepath]) *)

Module Filepath.

Definition Separator : ascii := "/"%char.

(** Joins already non-empty elements with the separator. *)
Fixpoint join_nonempty (elems : list string) : string :=
  match elems with
  | [] => ""
  | [e] => e
  | e :: rest => e +:+ "/" +:+ join_nonempty rest
  end.

(** [filepath.Join(elem...)]: empty elements are ignored and the others
    are joined with the separator.  Paths are kept as the program writes
    them: the lexical normalisation that [filepath.Clean] applies to the
    result (dropping ["."] elements, resolving [".."], collapsing repeated
    separators) is not modelled. *)
Definition Join (elems : list string) : string :=
  join_nonempty (filter (fun e => e ≠ "") elems).

(** Position-independent split at the last separator: [Some (d, b)] when
    the path is [d ++ "/" ++ b] and [b] has no separator. *)
Fixpoint split_last (p : string) : option (string * string) :=
  match p with
  | EmptyString => None
  | String c p' =>
      match split_last p' with
      | Some (d, b) => Some (String c d, b)
      | None => if Ascii.eqb c Separator then Some ("", p') else None
      end
  end.

(** [filepath.Dir(path)]: all but the last element; ["."] for a path
    without separator and ["/"] for an entry of the root. *)
Definition Dir (p : string) : string :=
  match split_last p with
  | None => "."
  | Some ("", _) => "/"
  | Some (d, _) => d
  end.

(** [filepath.Base(path)]: the last element. *)
Definition Base (p : string) : string :=
  match split_last p with
  | None => p
  | Some (_, b) => b
  end.

(** [strip_prefix pre s] is [Some r] exactly when [s = pre ++ r]. *)
Fixpoint strip_prefix (pre s : string) : option string :=
  match pre, s with
  | EmptyString, _ => Some s
  | String a pre', String b s' =>
      if Ascii.eqb a b then strip_prefix pre' s' else None
  | String _ _, EmptyString => None
  end.

(** The name of [p] as a direct entry of directory [d]: [p] is
    [d ++ "/" ++ n] for a non-empty [n] without separator. *)
Definition entry_name (d p : string) : option string :=
  match strip_prefix (d +:+ "/") p with
  | Some n =>
      if bool_decide (n = "") || Strings.contains_byte Separator n
      then None else Some n
  | None => None
  end.

(** [p] lies strictly below [d]. *)
Definition below (d p : string) : bool :=
  match strip_prefix (d +:+ "/") p with
  | Some r => negb (bool_decide (r = ""))
  | None => false
  end.

(** [p] is [d] itself or lies below it. *)
Definition in_tree (d p : string) : bool :=
  bool_decide (p = d) ||
  match strip_prefix (d +:+ "/") p with Some _ => true | None => false end.

End Filepath.

(** ** Syntax trees (package [go/ast]) *)

Module Ast.

(** The expression nodes a parameter type can be; the kinds the program
    never looks into share one constructor. *)
Inductive Expr :=
| Ident (name : string)
| StarExpr (x : Expr)
| SelectorExpr (x : Expr) (sel : string)
| ArrayType (elt : Expr)
| Ellipsis (elt : Expr)
| OtherExpr.

(** A parameter field: the names declared together and their type. *)
Record Field := mkField {
  Names : list string;
  Type_ : Expr
}.

(** A comment group, represented by what its [Text()] method returns. *)
Record CommentGroup := mkCommentGroup {
  Text : string
}.

(** [*ast.FuncDecl]: [Doc], [Recv], [Name.Name] and [Type.Params.List]. *)
Record FuncDecl := mkFuncDecl {
  Doc : option CommentGroup;
  Recv : option (list Field);
  Name : string;
  Params : list Field
}.

(** A top-level declaration. *)
Inductive Decl :=
| FuncDeclNode (fd : FuncDecl)
| GenDecl
| BadDecl.

(** [*ast.File], reduced to its declarations. *)
Record File := mkFile {
  Decls : list Decl
}.

End Ast.

(** ** Target discovery ([internal/target/discovery.go]) *)

Module Discovery.

(** [type Target struct]. *)
Record Target := mkTarget {
  Package : string;
  Name : string;
  FilePath : string;
  FuncName : string;
  Description : string
}.

(** What discovery asks of the outside: [go list -f {{.Dir}} pkg] (its
    output, or its failure), [filepath.Glob] for the test files of a
    directory (it fails on a malformed pattern only) and
    [parser.ParseFile]. *)
Record Tools := mkTools {
  go_list_dir : string -> option string;
  glob_test_files : string -> option (list string);
  parse_file : string -> option Ast.File
}.

Inductive failure :=
| GoListFailed
| GlobFailed
| ParseFailed (testFile : string).

(** [hasFuzzParameter(funcDecl)]: exactly one parameter field, whose type
    is a pointer to the selector [testing.F]. *)
Definition hasFuzzParameter (funcDecl : Ast.FuncDecl) : bool :=
  if negb (length (Ast.Params funcDecl) =? 1)%nat then false
  else
    match Ast.Params funcDecl with
    | param :: _ =>
        match Ast.Type_ param with
        | Ast.StarExpr starX =>
            match starX with
            | Ast.SelectorExpr selX sel =>
                match selX with
                | Ast.Ident name =>
                    String.eqb name "testing" && String.eqb sel "F"
                | _ => false
                end
            | _ => false
            end
        | _ => false
        end
    | [] => false
    end.

(** The loop over the declarations of one parsed test file, appending to
    the targets found so far. *)
Fixpoint scanDecls (pkg testFile : string) (decls : list Ast.Decl)
    (targets : list Target) : list Target :=
  match decls with
  | [] => targets
  | decl :: rest =>
      match decl with
      | Ast.FuncDeclNode funcDecl =>
          if Strings.HasPrefix (Ast.Name funcDecl) "Fuzz"
             && hasFuzzParameter funcDecl
          then
            let target :=
              {| Package := pkg;
                 Name := Ast.Name funcDecl;
                 FilePath := testFile;
                 FuncName := Ast.Name funcDecl;
                 Description :=
                   match Ast.Doc funcDecl with
                   | Some doc => Ast.Text doc
                   | None => ""
                   end |} in
            scanDecls pkg testFile rest (targets ++ [target])
          else scanDecls pkg testFile rest targets
      | _ => scanDecls pkg testFile rest targets
      end
  end.

(** The loop over the test files of the package. *)
Fixpoint scanFiles (env : Tools) (pkg : string) (testFiles : list string)
    (targets : list Target) : failure + list Target :=
  match testFiles with
  | [] => inr targets
  | testFile :: rest =>
      match parse_file env testFile with
      | None => inl (ParseFailed testFile)
      | Some file =>
          scanFiles env pkg rest
            (scanDecls pkg testFile (Ast.Decls file) targets)
      end
  end.

(** [findTargetsInPackage(pkg)]. *)
Definition findTargetsInPackage (env : Tools) (pkg : string)
  : failure + list Target :=
  match go_list_dir env pkg with
  | None => inl GoListFailed
  | Some output =>
      let pkgDir := Strings.TrimSpace output in
      match glob_test_files env pkgDir with
      | None => inl GlobFailed
      | Some testFiles => scanFiles env pkg testFiles []
      end
  end.

(** [type DiscoveryOptions struct]. *)
Record DiscoveryOptions := mkDiscoveryOptions {
  RootDir : string;
  Patterns : list string;
  ChangedOnly : bool;
  GitRef : string
}.

(** The two other commands discovery runs: [go list pattern] in the root
    directory and [git diff --name-only gitRef -- file], each with its
    output, or [None] when the command fails. *)
Record Commands := mkCommands {
  go_list : string -> string -> option string;
  git_diff : string -> string -> option string
}.

(** The errors of [DiscoverTargets], as it wraps them. *)
Inductive discoveryError :=
| ListPackagesFailed
| FindTargetsFailed (pkg : string) (cause : failure)
| CheckChangesFailed.

(** The loop over the lines of the output of [go list]: each line is
    trimmed, the empty ones are left out. *)
Fixpoint collectLines (lines pkgs : list string) : list string :=
  match lines with
  | [] => pkgs
  | line :: rest =>
      let line := Strings.TrimSpace line in
      if bool_decide (line <> "") then collectLines rest (pkgs ++ [line])
      else collectLines rest pkgs
  end.

(** The loop of [listPackages] over the patterns. *)
Fixpoint listEach (cmds : Commands) (rootDir : string)
    (patterns pkgs : list string) : option (list string) :=
  match patterns with
  | [] => Some pkgs
  | pattern :: rest =>
      match go_list cmds rootDir pattern with
      | None => None
      | Some output =>
          listEach cmds rootDir rest
            (collectLines (Strings.Split output Strings.line_feed) pkgs)
      end
  end.

(** [listPackages(rootDir, patterns)]; [None] is the error
    ["go list failed"]. *)
Definition listPackages (cmds : Commands) (rootDir : string)
    (patterns : list string) : option (list string) :=
  listEach cmds rootDir patterns [].

(** [t.HasChangedSince(gitRef)]: changed when [git diff] prints anything;
    [None] is the error ["git diff failed"]. *)
Definition HasChangedSince (cmds : Commands) (t : Target) (gitRef : string)
  : option bool :=
  match git_diff cmds gitRef (FilePath t) with
  | None => None
  | Some output => Some (0 <? String.length output)%nat
  end.

(** The loop of [DiscoverTargets] over the packages. *)
Fixpoint findEach (env : Tools) (pkgs : list string) (targets : list Target)
  : discoveryError + list Target :=
  match pkgs with
  | [] => inr targets
  | pkg :: rest =>
      match findTargetsInPackage env pkg with
      | inl err => inl (FindTargetsFailed pkg err)
      | inr pkgTargets => findEach env rest (targets ++ pkgTargets)
      end
  end.

(** The loop of [DiscoverTargets] that keeps the changed targets. *)
Fixpoint keepChanged (cmds : Commands) (gitRef : string)
    (targets filteredTargets : list Target) : discoveryError + list Target :=
  match targets with
  | [] => inr filteredTargets
  | t :: rest =>
      match HasChangedSince cmds t gitRef with
      | None => inl CheckChangesFailed
      | Some changed =>
          if changed
          then keepChanged cmds gitRef rest (filteredTargets ++ [t])
          else keepChanged cmds gitRef rest filteredTargets
      end
  end.

(** [DiscoverTargets(options)]. *)
Definition DiscoverTargets (env : Tools) (cmds : Commands)
    (options : DiscoveryOptions) : discoveryError + list Target :=
  match listPackages cmds (RootDir options) (Patterns options) with
  | None => inl ListPackagesFailed
  | Some pkgs =>
      match findEach env pkgs [] with
      | inl err => inl err
      | inr targets =>
          if ChangedOnly options
          then keepChanged cmds (GitRef options) targets []
          else inr targets
      end
  end.

End Discovery.

(** ** The file system and the operating-system interface *)

Module OS.

Import Filepath.

(** A node is a directory or a regular file with its bytes. *)
Inductive node :=
| DirNode
| FileNode (content : string).

#[global] Instance node_eq_dec : EqDecision node.
Proof. solve_decision. Defined.

(** The library calls the program can make, as they reach the system. *)
Inductive event :=
| EvMkdirAll (path : string)
| EvMkdirTemp (dir pattern : string)
| EvRemoveAll (path : string)
| EvReadDir (path : string)
| EvStat (path : string)
| EvOpen (path : string)
| EvCreate (path : string)
| EvGlob (pattern : string)
| EvWalk (root : string)
| EvFuzz (name pkg : string) (fuzztime parallel : Z) (cache : string)
| EvMinimize (name pkg cache : string).

#[global] Instance event_eq_dec : EqDecision event.
Proof. solve_decision. Defined.

(** The world the program runs in: the file system, keyed by path, and
    the trace of calls made so far, most recent first. *)
Record World := mkWorld {
  fs : gmap string node;
  trace : list event
}.

(** Go's [error] values: an error of the [os] layer, the non-zero exit of
    an external command, or [fmt.Errorf("msg: %w", cause)]. *)
Inductive error :=
| PathError (op path : string)
| ExitError
| Wrap (msg : string) (cause : error).

(** What one run of the external fuzz harness does: the file system it
    leaves, its combined output, whether it exited with status zero, and
    the wall-clock time it took. *)
Record HarnessRun := mkHarnessRun {
  h_fs : gmap string node;
  h_output : string;
  h_ok : bool;
  h_elapsed : Z
}.

(** Everything outside the program: the directory name [os.MkdirTemp]
    picks (or its failure), the harness in fuzzing mode
    ([go test -run ^$ -fuzz name -fuzztime d -parallel n pkg] with
    [GOFUZZCACHE] set) and in minimization mode
    ([go test -run ^$ -fuzz name -fuzzminimizetime 10s -fuzzminimize pkg]). *)
Record Env := mkEnv {
  temp_name : gmap string node -> option string;
  run_fuzz : string -> string -> Z -> Z -> string ->
             gmap string node -> HarnessRun;
  run_minimize : string -> string -> string ->
                 gmap string node -> gmap string node * bool
}.

Definition record (ev : event) (w : World) : World :=
  {| fs := fs w; trace := ev :: trace w |}.

Definition set_fs (f : gmap string node) (w : World) : World :=
  {| fs := f; trace := trace w |}.

(** The root and the current directory are always there. *)
Definition implicit_dir (p : string) : bool :=
  bool_decide (p = ".") || bool_decide (p = "/").

Definition is_dir (f : gmap string node) (p : string) : bool :=
  implicit_dir p ||
  match f !! p with
  | Some DirNode => true
  | _ => false
  end.

Definition path_exists (f : gmap string node) (p : string) : bool :=
  implicit_dir p ||
  match f !! p with
  | Some _ => true
  | None => false
  end.

(** [p], its parent, its grandparent, ... up to a directory that always
    exists; a path of length [n] has at most [n + 1] of them. *)
Fixpoint ancestors_upto (n : nat) (p : string) : list string :=
  match n with
  | O => []
  | S k => if implicit_dir p then [] else p :: ancestors_upto k (Dir p)
  end.

Definition ancestors (p : string) : list string :=
  ancestors_upto (S (String.length p)) p.

(** [os.MkdirAll] on the chain of ancestors: an existing directory ends
    the search with success, an existing file with an error; otherwise
    the parent is made first and then the directory itself. *)
Fixpoint mkdir_chain (chain : list string) (f : gmap string node)
  : option (gmap string node) :=
  match chain with
  | [] => Some f
  | p :: rest =>
      match f !! p with
      | Some DirNode => Some f
      | Some (FileNode _) => None
      | None =>
          if bool_decide (p = "") then None
          else match mkdir_chain rest f with
               | Some f' => Some (<[p := DirNode]> f')
               | None => None
               end
      end
  end.

(** [os.MkdirAll(path, 0755)]. *)
Definition MkdirAll (p : string) (w : World) : option error * World :=
  let w := record (EvMkdirAll p) w in
  match mkdir_chain (ancestors p) (fs w) with
  | Some f' => (None, set_fs f' w)
  | None => (Some (PathError "mkdir" p), w)
  end.

(** [os.MkdirTemp(dir, pattern)]: the environment picks the name; the
    call fails when it cannot, when the name is empty or taken, or when
    the directory that should hold it is missing. *)
Definition MkdirTemp (env : Env) (dir pattern : string) (w : World)
  : (error + string) * World :=
  let w := record (EvMkdirTemp dir pattern) w in
  match temp_name env (fs w) with
  | None => (inl (PathError "mkdirtemp" pattern), w)
  | Some p =>
      if bool_decide (p = "") || path_exists (fs w) p
         || negb (is_dir (fs w) (Dir p))
      then (inl (PathError "mkdirtemp" p), w)
      else (inr p, set_fs (<[p := DirNode]> (fs w)) w)
  end.

(** [os.RemoveAll(path)]: the path and everything below it go. *)
Definition RemoveAll (p : string) (w : World) : option error * World :=
  let w := record (EvRemoveAll p) w in
  (None, set_fs (filter (fun kv => in_tree p kv.1 = false) (fs w)) w).

(** [os.Stat(path)], reduced to whether it succeeds. *)
Definition Stat (p : string) (w : World) : bool * World :=
  let w := record (EvStat p) w in
  (path_exists (fs w) p, w).

(** A directory entry: its name and whether it is a directory. *)
Record DirEntry := mkDirEntry {
  de_name : string;
  de_isdir : bool
}.

Fixpoint insert_by {A} (le : A -> A -> bool) (x : A) (l : list A) : list A :=
  match l with
  | [] => [x]
  | y :: l' => if le x y then x :: l else y :: insert_by le x l'
  end.

Definition sort_by {A} (le : A -> A -> bool) (l : list A) : list A :=
  foldr (insert_by le) [] l.

(** The entries of directory [d], sorted by name. *)
Definition entries (f : gmap string node) (d : string) : list DirEntry :=
  sort_by (fun a b => String.leb (de_name a) (de_name b))
    (omap (fun kv : string * node =>
             match entry_name d kv.1 with
             | Some n =>
                 Some {| de_name := n;
                         de_isdir := bool_decide (kv.2 = DirNode) |}
             | None => None
             end)
          (map_to_list f)).

(** [os.ReadDir(name)]: the entries sorted by file name; the empty path
    and what is not a directory cannot be read. *)
Definition ReadDir (d : string) (w : World)
  : (error + list DirEntry) * World :=
  let w := record (EvReadDir d) w in
  if negb (bool_decide (d = "")) && is_dir (fs w) d
  then (inr (entries (fs w) d), w)
  else (inl (PathError "open" d), w).

(** [filepath.Glob(filepath.Join(dir, "*"))] for a directory path that
    is free of pattern metacharacters: the paths of all entries of [dir]
    in name order.  [Glob] ignores I/O errors, so a directory that cannot
    be read gives no match; the only error it can return is that of a
    malformed pattern, which ["*"] is not. *)
Definition GlobAll (dir : string) (w : World)
  : (error + list string) * World :=
  let w := record (EvGlob (Join [dir; "*"])) w in
  if is_dir (fs w) dir
  then (inr (map (fun e => Join [dir; de_name e]) (entries (fs w) dir)), w)
  else (inr [], w).

End OS.

(** ** The corpus manager ([internal/corpus/manager.go]) *)

Module Corpus.

Import Filepath OS Discovery.

(** [type MinimizationStrategy string] with its two named values. *)
Definition MinimizationStrategy := string.
Definition NoMinimization : MinimizationStrategy := "none".
Definition CoverageMinimization : MinimizationStrategy := "coverage".

Record CorpusManager := mkCorpusManager {
  BaseDir : string;
  TargetDirs : gmap string string;
  Minimization : MinimizationStrategy
}.

(** [NewCorpusManager(baseDir, minimization)]. *)
Definition NewCorpusManager (baseDir : string)
    (minimization : MinimizationStrategy) (w : World)
  : (error + CorpusManager) * World :=
  match MkdirAll baseDir w with
  | (Some err, w1) => (inl (Wrap "failed to create corpus directory" err), w1)
  | (None, w1) =>
      (inr {| BaseDir := baseDir;
              TargetDirs := ∅;
              Minimization := minimization |}, w1)
  end.

(** [fmt.Sprintf("%s.%s", target.Package, target.Name)]. *)
Definition targetKey (t : Target) : string :=
  Package t +:+ "." +:+ Name t.

(** [m.GetTargetDir(target)]: the cached directory when the key is known;
    otherwise the directory is computed, made (the error of [os.MkdirAll]
    is dropped) and cached. *)
Definition GetTargetDir (m : CorpusManager) (t : Target) (w : World)
  : string * CorpusManager * World :=
  match TargetDirs m !! targetKey t with
  | Some dir => (dir, m, w)
  | None =>
      let dir :=
        Join [BaseDir m; Strings.ReplaceAll (Package t) "/" "_"; Name t] in
      let w1 := (MkdirAll dir w).2 in
      (dir,
       {| BaseDir := BaseDir m;
          TargetDirs := <[targetKey t := dir]> (TargetDirs m);
          Minimization := Minimization m |},
       w1)
  end.

(** [copyFile(src, dst)]: [os.Open(src)], [os.Create(dst)], [io.Copy].
    Opening a missing path fails.  Creating fails on a directory and where
    the parent directory is missing; otherwise it leaves an empty file.
    Copying then reads the source as it is at that moment, which fails on a
    directory. *)
Definition copyFile (src dst : string) (w : World) : option error * World :=
  let w := record (EvOpen src) w in
  if negb (path_exists (fs w) src) then (Some (PathError "open" src), w)
  else
    let w := record (EvCreate dst) w in
    if bool_decide (dst = "") || is_dir (fs w) dst
       || negb (is_dir (fs w) (Dir dst))
    then (Some (PathError "open" dst), w)
    else
      let w := set_fs (<[dst := FileNode ""]> (fs w)) w in
      match fs w !! src with
      | Some (FileNode c) => (None, set_fs (<[dst := FileNode c]> (fs w)) w)
      | _ => (Some (PathError "read" src), w)
      end.

Section WithEnv.

Variable env : Env.

(** [m.Minimize(t)]: nothing for the strategy ["none"]; otherwise the
    harness runs in minimization mode on the target's directory and a
    non-zero exit is an error. *)
Definition Minimize (m : CorpusManager) (t : Target) (w : World)
  : option error * CorpusManager * World :=
  if bool_decide (Minimization m = NoMinimization) then (None, m, w)
  else
    let '(targetDir, m1, w1) := GetTargetDir m t w in
    let w2 := record (EvMinimize (Name t) (Package t) targetDir) w1 in
    let '(f, ok) := run_minimize env (Name t) (Package t) targetDir (fs w2) in
    let w3 := set_fs f w2 in
    if ok then (None, m1, w3)
    else (Some (Wrap "minimization failed" ExitError), m1, w3).

(** The body of the loop over the entries of the new-entries directory. *)
Fixpoint importEntries (targetDir newEntriesDir : string)
    (ents : list DirEntry) (w : World) : option error * World :=
  match ents with
  | [] => (None, w)
  | entry :: rest =>
      if de_isdir entry then importEntries targetDir newEntriesDir rest w
      else
        let srcPath := Join [newEntriesDir; de_name entry] in
        let dstPath := Join [targetDir; de_name entry] in
        match Stat dstPath w with
        | (true, w1) => importEntries targetDir newEntriesDir rest w1
        | (false, w1) =>
            match copyFile srcPath dstPath w1 with
            | (Some err, w2) =>
                (Some (Wrap "failed to copy corpus entry" err), w2)
            | (None, w2) => importEntries targetDir newEntriesDir rest w2
            end
        end
  end.

(** [m.ImportNewCorpusEntries(t, newEntriesDir)]. *)
Definition ImportNewCorpusEntries (m : CorpusManager) (t : Target)
    (newEntriesDir : string) (w : World)
  : option error * CorpusManager * World :=
  let '(targetDir, m1, w1) := GetTargetDir m t w in
  match ReadDir newEntriesDir w1 with
  | (inl err, w2) =>
      (Some (Wrap "failed to read new entries directory" err), m1, w2)
  | (inr ents, w2) =>
      match importEntries targetDir newEntriesDir ents w2 with
      | (Some err, w3) => (Some err, m1, w3)
      | (None, w3) =>
          if bool_decide (Minimization m1 = CoverageMinimization) then
            match Minimize m1 t w3 with
            | (Some err, m2, w4) =>
                (Some (Wrap "corpus minimization failed" err), m2, w4)
            | (None, m2, w4) => (None, m2, w4)
            end
          else (None, m1, w3)
      end
  end.

End WithEnv.

End Corpus.

(** ** IEEE 754 double precision ([float64]) and [int64] *)

Module Float64.

Definition prec : Z := 53.
Definition emax : Z := 1024.

Definition float64 := spec_float.

Definition min_int64 : Z := - 2 ^ 63.
Definition max_int64 : Z := 2 ^ 63 - 1.

(** The range of [int64], which [time.Duration] is. *)
Definition is_int64 (n : Z) : Prop := min_int64 <= n <= max_int64.

(** The product [x * y], rounded to nearest even. *)
Definition mul (x y : float64) : float64 := SFmul prec emax x y.

(** The conversion [float64(n)] of an integer, rounded to nearest even. *)
Definition of_int64 (n : Z) : float64 := binary_normalize prec emax n 0 false.

(** The integer part of a finite value, towards zero. *)
Definition truncate (x : float64) : option Z :=
  match x with
  | S754_zero _ => Some 0
  | S754_finite s m e =>
      let v := match e with
               | Zneg k => Z.shiftr (Zpos m) (Zpos k)
               | _ => Z.shiftl (Zpos m) e
               end in
      Some (if s then - v else v)
  | S754_infinity _ | S754_nan => None
  end.

(** The conversion [int64(x)]: the fraction is discarded.  For a value
    that [int64] cannot hold Go leaves the result to the implementation;
    the model takes what the amd64 conversion instruction delivers there,
    the smallest [int64]. *)
Definition to_int64 (x : float64) : Z :=
  match truncate x with
  | Some v =>
      if (min_int64 <=? v) && (v <=? max_int64) then v else min_int64
  | None => min_int64
  end.

(** Neither an infinity nor a NaN. *)
Definition is_finite_or_zero (x : float64) : bool :=
  match x with
  | S754_zero _ | S754_finite _ _ _ => true
  | S754_infinity _ | S754_nan => false
  end.

(** The zero value of [float64], which a map yields for a missing key. *)
Definition zero : float64 := S754_zero false.

(** The literals 1.0, 0.5 and 0.1. *)
Definition one : float64 := S754_finite false 4503599627370496 (-52).
Definition half : float64 := S754_finite false 4503599627370496 (-53).
Definition tenth : float64 := S754_finite false 7205759403792794 (-56).

End Float64.

(** ** Configuration ([pkg/config/config.go]) *)

Module Config.

(** [time.Duration] counts nanoseconds. *)
Definition Second : Z := 1000000000.
Definition Minute : Z := 60 * Second.

Record Config := mkConfig {
  Packages : list string;
  RootDir : string;
  CorpusDir : string;
  FuzzTime : Z;
  Parallelism : Z;
  HarnessDetection : bool;
  TimeAllocation : gmap string Float64.float64;
  ReportDir : string;
  ChangedOnly : bool;
  GitRef : string
}.

(** [config.Default()]. *)
Definition Default : Config :=
  {| Packages := ["./..."];
     RootDir := ".";
     CorpusDir := "./fuzz-corpus";
     FuzzTime := 5 * Minute;
     Parallelism := 4;
     HarnessDetection := true;
     TimeAllocation := {[ "default" := Float64.one ]};
     ReportDir := "./fuzz-reports";
     ChangedOnly := false;
     GitRef := "HEAD~1" |}.

End Config.

(** ** The fuzz engine ([internal/runner/engine.go]) *)

Module Runner.

Import Filepath OS.

(** [type Result struct]. *)
Record Result := mkResult {
  Target : Discovery.Target;
  Duration : Z;
  Success : bool;
  ErrorMessage : string;
  CrashInputs : list string;
  NewCorpusItems : Z;
  Coverage : Float64.float64
}.

(** [type FuzzEngine struct]. *)
Record FuzzEngine := mkFuzzEngine {
  Config : Config.Config;
  Targets : list Discovery.Target;
  CorpusManager : Corpus.CorpusManager;
  Results : list Result
}.

(** [NewFuzzEngine(cfg, targets)]. *)
Definition NewFuzzEngine (cfg : Config.Config)
    (targets : list Discovery.Target) (w : World)
  : (error + FuzzEngine) * World :=
  match Corpus.NewCorpusManager (Config.CorpusDir cfg)
          Corpus.CoverageMinimization w with
  | (inl err, w1) => (inl (Wrap "failed to create corpus manager" err), w1)
  | (inr cm, w1) =>
      (inr {| Config := cfg;
              Targets := targets;
              CorpusManager := cm;
              Results := [] |}, w1)
  end.

(** [e.getTargetDuration(t)]: the share of the package when the map has
    one, the share under ["default"] otherwise; a key the map lacks reads
    as the zero value. *)
Definition getTargetDuration (e : FuzzEngine) (t : Discovery.Target) : Z :=
  let totalTime := Config.FuzzTime (Config e) in
  let packageName := Discovery.Package t in
  match Config.TimeAllocation (Config e) !! packageName with
  | Some allocation =>
      Float64.to_int64 (Float64.mul (Float64.of_int64 totalTime) allocation)
  | None =>
      Float64.to_int64
        (Float64.mul (Float64.of_int64 totalTime)
           (default Float64.zero
              (Config.TimeAllocation (Config e) !! "default")))
  end.

(** The engine's [copyFile] is, line for line, the corpus manager's. *)
Definition copyFile := Corpus.copyFile.

(** The order in which [filepath.Walk] meets paths: directory by
    directory, names in byte order, which is byte order on the paths with
    the separator below every other byte. *)
Definition walk_rank (c : ascii) : nat :=
  if Ascii.eqb c Separator then O else S (nat_of_ascii c).

Fixpoint walk_le (a b : string) : bool :=
  match a, b with
  | EmptyString, _ => true
  | String _ _, EmptyString => false
  | String x a', String y b' =>
      if Ascii.eqb x y then walk_le a' b'
      else (walk_rank x <? walk_rank y)%nat
  end.

(** What lies below [root], in walk order. *)
Definition descendants (f : gmap string node) (root : string)
  : list (string * node) :=
  sort_by (fun a b => walk_le a.1 b.1)
    (filter (fun kv : string * node => below root kv.1 = true)
            (map_to_list f)).

(** The walk function of [copyDir] on a path that is not a directory:
    [filepath.Rel(src, path)], [filepath.Join(dst, relPath)] (for the root
    itself the relative path is ["."] and the join is [dst]),
    [os.MkdirAll(filepath.Dir(dstPath))], [copyFile(path, dstPath)]. *)
Definition copyVisit (src dst path : string) (w : World)
  : option error * World :=
  match (if bool_decide (path = src) then Some "."
         else strip_prefix (src +:+ "/") path) with
  | None => (Some (PathError "rel" path), w)
  | Some relPath =>
      let dstPath :=
        if bool_decide (relPath = ".") then dst else Join [dst; relPath] in
      match MkdirAll (Dir dstPath) w with
      | (Some err, w1) => (Some err, w1)
      | (None, w1) => copyFile path dstPath w1
      end
  end.

(** The walk over what was found below the root: directories are passed
    over, the first error ends the walk. *)
Fixpoint walkVisit (src dst : string) (found : list (string * node))
    (w : World) : option error * World :=
  match found with
  | [] => (None, w)
  | (path, DirNode) :: rest => walkVisit src dst rest w
  | (path, FileNode _) :: rest =>
      match copyVisit src dst path w with
      | (Some err, w1) => (Some err, w1)
      | (None, w1) => walkVisit src dst rest w1
      end
  end.

(** [copyDir(src, dst)]: [filepath.Walk] over [src].  A root that is
    missing fails the walk; a root that is a file is visited alone. *)
Definition copyDir (src dst : string) (w : World) : option error * World :=
  let w := record (EvWalk src) w in
  match fs w !! src with
  | Some (FileNode _) => copyVisit src dst src w
  | Some DirNode => walkVisit src dst (descendants (fs w) src) w
  | None =>
      if implicit_dir src
      then walkVisit src dst (descendants (fs w) src) w
      else (Some (PathError "lstat" src), w)
  end.

(** The loop over the crashers: paths that end in [".output"] are left
    out. *)
Fixpoint collectCrashInputs (crashers acc : list string) : list string :=
  match crashers with
  | [] => acc
  | crasher :: rest =>
      if Strings.HasSuffix crasher ".output"
      then collectCrashInputs rest acc
      else collectCrashInputs rest (acc ++ [crasher])
  end.

Section WithEnv.

Variable env : Env.

Definition with_manager (e : FuzzEngine) (cm : Corpus.CorpusManager)
  : FuzzEngine :=
  {| Config := Config e; Targets := Targets e;
     CorpusManager := cm; Results := Results e |}.

(** Staging, the first part of [RunTarget] once the scratch directory
    [tempDir] is there: the target's directory is resolved, the scratch
    corpus directory made, the corpus copied into it and the crashers
    directory made.  (The time budget, computed between the last two
    steps, touches nothing and is taken up in [harnessRun].) *)
Definition stage (e : FuzzEngine) (t : Discovery.Target)
    (tempDir : string) (w : World) : option error * FuzzEngine * World :=
  let '(corpusDir, cm1, w1) := Corpus.GetTargetDir (CorpusManager e) t w in
  let e1 := with_manager e cm1 in
  let tempCorpusDir := Join [tempDir; "corpus"] in
  match MkdirAll tempCorpusDir w1 with
  | (Some err, w2) =>
      (Some (Wrap "failed to create temp corpus directory" err), e1, w2)
  | (None, w2) =>
      match copyDir corpusDir tempCorpusDir w2 with
      | (Some err, w3) => (Some (Wrap "failed to copy corpus" err), e1, w3)
      | (None, w3) =>
          let crashersDir := Join [tempDir; "crashers"] in
          match MkdirAll crashersDir w3 with
          | (Some err, w4) =>
              (Some (Wrap "failed to create crashers directory" err), e1, w4)
          | (None, w4) => (None, e1, w4)
          end
      end
  end.

(** The harness run of [RunTarget]: [cmd.CombinedOutput()] of
    [go test -run ^$ -fuzz t.Name -fuzztime targetTime -parallel n t.Package]
    with the cache in [tempDir], on the file system as staging left it. *)
Definition harnessRun (e : FuzzEngine) (t : Discovery.Target)
    (tempDir : string) (f : gmap string node) : HarnessRun :=
  run_fuzz env (Discovery.Name t) (Discovery.Package t)
    (getTargetDuration e t) (Config.Parallelism (Config e)) tempDir f.

(** [RunTarget] after the scratch directory [tempDir] has been made and
    before the deferred [os.RemoveAll(tempDir)]. *)
Definition runInTemp (e : FuzzEngine) (t : Discovery.Target)
    (tempDir : string) (w : World) : (error + Result) * FuzzEngine * World :=
  match stage e t tempDir w with
  | (Some err, e1, w4) => (inl err, e1, w4)
  | (None, e1, w4) =>
  let w5 :=
    record (EvFuzz (Discovery.Name t) (Discovery.Package t)
              (getTargetDuration e1 t)
              (Config.Parallelism (Config e1)) tempDir) w4 in
  let run := harnessRun e1 t tempDir (fs w5) in
  let w6 := set_fs (h_fs run) w5 in
  let '(errorMessage, crashInputs, w7) :=
    if h_ok run then ("", [], w6)
    else
      match GlobAll (Join [tempDir; "crashers"]) w6 with
      | (inr crashers, w') =>
          (h_output run, collectCrashInputs crashers [], w')
      | (inl _, w') => (h_output run, [], w')
      end in
  let newCorpusDir := Join [tempDir; "corpus"] in
  match Corpus.ImportNewCorpusEntries env (CorpusManager e1) t
          newCorpusDir w7 with
  | (Some err, cm2, w8) =>
      (inl (Wrap "failed to import new corpus entries" err),
       with_manager e1 cm2, w8)
  | (None, cm2, w8) =>
      let '(ents, w9) := ReadDir newCorpusDir w8 in
      (inr {| Target := t;
              Duration := h_elapsed run;
              Success := h_ok run;
              ErrorMessage := errorMessage;
              CrashInputs := crashInputs;
              NewCorpusItems :=
                match ents with
                | inr l => Z.of_nat (length l)
                | inl _ => 0
                end;
              Coverage := Float64.zero |},
       with_manager e1 cm2, w9)
  end end.

(** [e.RunTarget(t)]. *)
Definition RunTarget (e : FuzzEngine) (t : Discovery.Target) (w : World)
  : (error + Result) * FuzzEngine * World :=
  match MkdirTemp env "" "fuzz-run-*" w with
  | (inl err, w1) => (inl (Wrap "failed to create temp directory" err), e, w1)
  | (inr tempDir, w1) =>
      let '(r, e1, w2) := runInTemp e t tempDir w1 in
      (r, e1, (RemoveAll tempDir w2).2)
  end.

(** The loop of [RunAll] over the targets still to run. *)
Fixpoint runEach (targets : list Discovery.Target) (e : FuzzEngine)
    (w : World) : option error * FuzzEngine * World :=
  match targets with
  | [] => (None, e, w)
  | target :: rest =>
      match RunTarget e target w with
      | (inl err, e1, w1) =>
          (Some (Wrap ("failed to run target " +:+ Discovery.Package target
                         +:+ "." +:+ Discovery.Name target) err), e1, w1)
      | (inr result, e1, w1) =>
          runEach rest
            {| Config := Config e1; Targets := Targets e1;
               CorpusManager := CorpusManager e1;
               Results := Results e1 ++ [result] |} w1
      end
  end.

(** [e.RunAll()]. *)
Definition RunAll (e : FuzzEngine) (w : World)
  : option error * FuzzEngine * World :=
  runEach (Targets e) e w.

End WithEnv.

End Runner.

(** ** The run command ([cmd/fuzzctl/run.go]) *)

Module Fuzzctl.

(** [truncate(s, maxLen)]: [s] when it is short enough, else
    [s[:maxLen-3] + "..."]; the slice panics ([None]) on a negative
    bound. *)
Definition truncate (s : string) (maxLen : Z) : option string :=
  if Z.of_nat (String.length s) <=? maxLen then Some s
  else if maxLen - 3 <? 0 then None
  else Some (String.substring 0 (Z.to_nat (maxLen - 3)) s +:+ "...").

(** What the run command prints as the error of a failed result. *)
Definition shownError (r : Runner.Result) : option string :=
  truncate (Runner.ErrorMessage r) 100.

(** [statusString(success)]. *)
Definition statusString (success : bool) : string :=
  if success then "PASS" else "FAIL".

(** The flags of the run command. *)
Record RunFlags := mkRunFlags {
  root_dir : string;
  time : Z;
  corpus : string;
  parallel : Z;
  changed_only : bool;
  git_ref : string
}.

(** The configuration the run command builds: the default one with the
    six flags written over it, and the arguments as packages when there
    are any. *)
Definition runConfig (flags : RunFlags) (args : list string)
  : Config.Config :=
  let cfg := Config.Default in
  {| Config.Packages :=
       if (0 <? length args)%nat then args else Config.Packages cfg;
     Config.RootDir := root_dir flags;
     Config.CorpusDir := corpus flags;
     Config.FuzzTime := time flags;
     Config.Parallelism := parallel flags;
     Config.HarnessDetection := Config.HarnessDetection cfg;
     Config.TimeAllocation := Config.TimeAllocation cfg;
     Config.ReportDir := Config.ReportDir cfg;
     Config.ChangedOnly := changed_only flags;
     Config.GitRef := git_ref flags |}.

(** The errors the commands return, as they wrap them. *)
Inductive commandError :=
| DiscoverFailed (cause : Discovery.discoveryError)
| CreateEngineFailed (cause : OS.error)
| FuzzingFailed (cause : OS.error)
| CreateManagerFailed (cause : OS.error).

(** [RunE] of the run command, with the engine whose results it prints. *)
Definition runE (tools : Discovery.Tools) (cmds : Discovery.Commands)
    (env : OS.Env) (flags : RunFlags) (args : list string) (w : OS.World)
  : (commandError + Runner.FuzzEngine) * OS.World :=
  let cfg := runConfig flags args in
  match Discovery.DiscoverTargets tools cmds
          {| Discovery.RootDir := Config.RootDir cfg;
             Discovery.Patterns := Config.Packages cfg;
             Discovery.ChangedOnly := Config.ChangedOnly cfg;
             Discovery.GitRef := Config.GitRef cfg |} with
  | inl err => (inl (DiscoverFailed err), w)
  | inr targets =>
      match Runner.NewFuzzEngine cfg targets w with
      | (inl err, w1) => (inl (CreateEngineFailed err), w1)
      | (inr engine, w1) =>
          match Runner.RunAll env engine w1 with
          | (Some err, _, w2) => (inl (FuzzingFailed err), w2)
          | (None, engine1, w2) => (inr engine1, w2)
          end
      end
  end.

(** The loop of [countFiles] over the entries. *)
Fixpoint countEntries (entries : list OS.DirEntry) (count : Z) : Z :=
  match entries with
  | [] => count
  | entry :: rest =>
      if OS.de_isdir entry then countEntries rest count
      else countEntries rest (count + 1)
  end.

(** [countFiles(dir)] ([cmd/fuzzctl/corpus.go]): zero for a directory
    that cannot be read. *)
Definition countFiles (dir : string) (w : OS.World) : Z * OS.World :=
  match OS.ReadDir dir w with
  | (inl _, w1) => (0, w1)
  | (inr entries, w1) => (countEntries entries 0, w1)
  end.

(** One row of the table the list sub-command prints. *)
Record ListRow := mkListRow {
  row_key : string;
  row_count : Z;
  row_dir : string
}.

(** The loop of the list sub-command over the targets. *)
Fixpoint listRows (cm : Corpus.CorpusManager)
    (targets : list Discovery.Target) (rows : list ListRow) (w : OS.World)
  : list ListRow * Corpus.CorpusManager * OS.World :=
  match targets with
  | [] => (rows, cm, w)
  | t :: rest =>
      let '(dir, cm1, w1) := Corpus.GetTargetDir cm t w in
      let '(count, w2) := countFiles dir w1 in
      listRows cm1 rest
        (rows ++ [ {| row_key := Corpus.targetKey t;
                      row_count := count;
                      row_dir := dir |} ]) w2
  end.

(** The options both corpus sub-commands discover with. *)
Definition corpusOptions : Discovery.DiscoveryOptions :=
  {| Discovery.RootDir := ".";
     Discovery.Patterns := ["./..."];
     Discovery.ChangedOnly := false;
     Discovery.GitRef := "" |}.

(** [RunE] of [corpus list], with the rows it prints; writing the table
    out is taken to succeed. *)
Definition corpusListE (tools : Discovery.Tools) (cmds : Discovery.Commands)
    (corpusDir : string) (w : OS.World)
  : (commandError + list ListRow) * OS.World :=
  match Corpus.NewCorpusManager corpusDir Corpus.NoMinimization w with
  | (inl err, w1) => (inl (CreateManagerFailed err), w1)
  | (inr cm, w1) =>
      match Discovery.DiscoverTargets tools cmds corpusOptions with
      | inl err => (inl (DiscoverFailed err), w1)
      | inr targets =>
          let '(rows, _, w2) := listRows cm targets [] w1 in
          (inr rows, w2)
      end
  end.

(** The inner loop of the filter of [corpus minimize]: the target is
    appended once for every argument that is its package or its
    qualified name. *)
Fixpoint matchArgs (t : Discovery.Target) (args : list string)
    (filtered : list Discovery.Target) : list Discovery.Target :=
  match args with
  | [] => filtered
  | arg :: rest =>
      if bool_decide (Discovery.Package t = arg)
         || bool_decide (Corpus.targetKey t = arg)
      then matchArgs t rest (filtered ++ [t])
      else matchArgs t rest filtered
  end.

(** The outer loop of the filter. *)
Fixpoint filterTargets (targets : list Discovery.Target) (args : list string)
    (filtered : list Discovery.Target) : list Discovery.Target :=
  match targets with
  | [] => filtered
  | t :: rest => filterTargets rest args (matchArgs t args filtered)
  end.

(** The targets [corpus minimize] works on. *)
Definition selectTargets (targets : list Discovery.Target)
    (args : list string) : list Discovery.Target :=
  if (0 <? length args)%nat then filterTargets targets args [] else targets.

(** One line of the report of [corpus minimize]: the error, or the
    counts before and after. *)
Record MinimizeLine := mkMinimizeLine {
  ml_target : Discovery.Target;
  ml_outcome : OS.error + (Z * Z)
}.

(** The loop of [corpus minimize] over the selected targets. *)
Fixpoint minimizeEach (env : OS.Env) (cm : Corpus.CorpusManager)
    (targets : list Discovery.Target) (lines : list MinimizeLine)
    (w : OS.World) : list MinimizeLine * Corpus.CorpusManager * OS.World :=
  match targets with
  | [] => (lines, cm, w)
  | t :: rest =>
      let '(dir, cm1, w1) := Corpus.GetTargetDir cm t w in
      let '(countBefore, w2) := countFiles dir w1 in
      match Corpus.Minimize env cm1 t w2 with
      | (Some err, cm2, w3) =>
          minimizeEach env cm2 rest
            (lines ++ [ {| ml_target := t; ml_outcome := inl err |} ]) w3
      | (None, cm2, w3) =>
          let '(dir', cm3, w4) := Corpus.GetTargetDir cm2 t w3 in
          let '(countAfter, w5) := countFiles dir' w4 in
          minimizeEach env cm3 rest
            (lines ++ [ {| ml_target := t;
                           ml_outcome := inr (countBefore, countAfter) |} ])
            w5
      end
  end.

(** [RunE] of [corpus minimize], with the lines it prints. *)
Definition corpusMinimizeE (tools : Discovery.Tools)
    (cmds : Discovery.Commands) (env : OS.Env) (corpusDir : string)
    (args : list string) (w : OS.World)
  : (commandError + list MinimizeLine) * OS.World :=
  match Corpus.NewCorpusManager corpusDir Corpus.CoverageMinimization w with
  | (inl err, w1) => (inl (CreateManagerFailed err), w1)
  | (inr cm, w1) =>
      match Discovery.DiscoverTargets tools cmds corpusOptions with
      | inl err => (inl (DiscoverFailed err), w1)
      | inr targets =>
          let '(lines, _, w2) :=
            minimizeEach env cm (selectTargets targets args) [] w1 in
          (inr lines, w2)
      end
  end.

End Fuzzctl.

(** ** The configurations for LND ([examples/lnd/integration.go]) *)

Module Lnd.

(** The constants [0.4], [0.3] and [0.05] as Go rounds them to float64. *)
Definition four_tenths : Float64.float64 :=
  S754_finite false 7205759403792794 (-54).
Definition three_tenths : Float64.float64 :=
  S754_finite false 5404319552844595 (-54).
Definition five_hundredths : Float64.float64 :=
  S754_finite false 7205759403792794 (-57).

(** [ConfigureForLND()]. *)
Definition ConfigureForLND : Config.Config :=
  let cfg := Config.Default in
  {| Config.Packages :=
       ["./lnwire/..."; "./tlv/..."; "./brontide/..."; "./htlcswitch/...";
        "./zpay32/..."; "./watchtower/wtwire/..."];
     Config.RootDir := Config.RootDir cfg;
     Config.CorpusDir := Config.CorpusDir cfg;
     Config.FuzzTime := Config.FuzzTime cfg;
     Config.Parallelism := Config.Parallelism cfg;
     Config.HarnessDetection := Config.HarnessDetection cfg;
     Config.TimeAllocation :=
       {[ "lnwire" := four_tenths; "brontide" := three_tenths;
          "tlv" := Float64.tenth; "default" := five_hundredths ]};
     Config.ReportDir := Config.ReportDir cfg;
     Config.ChangedOnly := Config.ChangedOnly cfg;
     Config.GitRef := Config.GitRef cfg |}.

(** A configuration with [ChangedOnly] and [FuzzTime] written over. *)
Definition withChangedOnly (changedOnly : bool) (fuzzTime : Z)
    (cfg : Config.Config) : Config.Config :=
  {| Config.Packages := Config.Packages cfg;
     Config.RootDir := Config.RootDir cfg;
     Config.CorpusDir := Config.CorpusDir cfg;
     Config.FuzzTime := fuzzTime;
     Config.Parallelism := Config.Parallelism cfg;
     Config.HarnessDetection := Config.HarnessDetection cfg;
     Config.TimeAllocation := Config.TimeAllocation cfg;
     Config.ReportDir := Config.ReportDir cfg;
     Config.ChangedOnly := changedOnly;
     Config.GitRef := Config.GitRef cfg |}.

(** [GetContinuousIntegrationConfig()]. *)
Definition GetContinuousIntegrationConfig : Config.Config :=
  let cfg := ConfigureForLND in
  withChangedOnly true (Config.FuzzTime cfg) cfg.

(** [GetScheduledFuzzingConfig()]. *)
Definition GetScheduledFuzzingConfig : Config.Config :=
  let cfg := ConfigureForLND in
  withChangedOnly false (30 * 60 * 1000000000) cfg.

End Lnd.

(** * Vocabulary of the statements *)

Import Filepath OS.

Section Vocabulary.

Import Corpus Runner.

(** A series of resolutions on one manager, in order. *)
Fixpoint resolveAll (ts : list Discovery.Target) (m : Corpus.CorpusManager)
    (w : World) : Corpus.CorpusManager * World :=
  match ts with
  | [] => (m, w)
  | t :: rest =>
      let '(_, m1, w1) := GetTargetDir m t w in resolveAll rest m1 w1
  end.

(** The product of a duration and a share as the engine computes it:
    [time.Duration(float64(totalTime) * allocation)]. *)
Definition scaled (totalTime : Z) (allocation : Float64.float64) : Z :=
  Float64.to_int64 (Float64.mul (Float64.of_int64 totalTime) allocation).

(** The target of the end-to-end scenario. *)
Definition example_target : Discovery.Target :=
  Discovery.mkTarget "pkg/codec" "FuzzDecode" "codec_test.go" "FuzzDecode" "".

(** Its configuration: five minutes in all, half of them for the package
    of the target, a tenth by default. *)
Definition example_config : Config.Config :=
  {| Config.Packages := ["./..."];
     Config.RootDir := ".";
     Config.CorpusDir := "corpus";
     Config.FuzzTime := 5 * Config.Minute;
     Config.Parallelism := 4;
     Config.HarnessDetection := true;
     Config.TimeAllocation :=
       {[ "pkg/codec" := Float64.half; "default" := Float64.tenth ]};
     Config.ReportDir := "./fuzz-reports";
     Config.ChangedOnly := false;
     Config.GitRef := "HEAD~1" |}.

(** The engine [NewFuzzEngine] builds from that configuration. *)
Definition example_engine : Runner.FuzzEngine :=
  {| Runner.Config := example_config;
     Runner.Targets := [example_target];
     Runner.CorpusManager :=
       Corpus.mkCorpusManager "corpus" ∅ Corpus.CoverageMinimization;
     Runner.Results := [] |}.

(** The parameter type [*testing.F]. *)
Definition testing_F : Ast.Expr :=
  Ast.StarExpr (Ast.SelectorExpr (Ast.Ident "testing") "F").

(** A declaration is picked when it is a function declaration whose name
    starts with ["Fuzz"] and which passes [hasFuzzParameter]. *)
Definition picked (decl : Ast.Decl) : option Ast.FuncDecl :=
  match decl with
  | Ast.FuncDeclNode fd =>
      if Strings.HasPrefix (Ast.Name fd) "Fuzz" && Discovery.hasFuzzParameter fd
      then Some fd else None
  | _ => None
  end.

(** The target emitted for a picked declaration. *)
Definition targetOf (pkg testFile : string) (fd : Ast.FuncDecl)
  : Discovery.Target :=
  {| Discovery.Package := pkg;
     Discovery.Name := Ast.Name fd;
     Discovery.FilePath := testFile;
     Discovery.FuncName := Ast.Name fd;
     Discovery.Description := from_option Ast.Text "" (Ast.Doc fd) |}.

(** The line feed. *)
Definition newline : string := String (ascii_of_nat 10) "".

(** [// finds foo bugs], as [Doc.Text()] renders it. *)
Definition doc_foo : Ast.CommentGroup :=
  {| Ast.Text := "finds foo bugs" +:+ newline |}.

(** [func FuzzFoo(f *testing.F)] under that comment. *)
Definition decl_FuzzFoo : Ast.Decl :=
  Ast.FuncDeclNode
    {| Ast.Doc := Some doc_foo; Ast.Recv := None; Ast.Name := "FuzzFoo";
       Ast.Params := [ {| Ast.Names := ["f"]; Ast.Type_ := testing_F |} ] |}.

(** The number of parameters a function declares, as
    [Type.Params.NumFields()] counts them: one for each name of a field,
    and one for a field without names. *)
Definition numParams (fd : Ast.FuncDecl) : nat :=
  foldr (fun field n => (Nat.max 1 (length (Ast.Names field)) + n)%nat) O
    (Ast.Params fd).

(** [func FuzzTwo(a, b *testing.F)]: two parameters declared in one
    field. *)
Definition fd_FuzzTwo : Ast.FuncDecl :=
  {| Ast.Doc := None; Ast.Recv := None; Ast.Name := "FuzzTwo";
     Ast.Params := [ {| Ast.Names := ["a"; "b"]; Ast.Type_ := testing_F |} ] |}.

Definition decl_FuzzTwo : Ast.Decl := Ast.FuncDeclNode fd_FuzzTwo.

(** [func NotAFuzzFunc(x int)]. *)
Definition decl_NotAFuzzFunc : Ast.Decl :=
  Ast.FuncDeclNode
    {| Ast.Doc := None; Ast.Recv := None; Ast.Name := "NotAFuzzFunc";
       Ast.Params := [ {| Ast.Names := ["x"]; Ast.Type_ := Ast.Ident "int" |} ] |}.

(** A package ["example.com/foo"] in [/src/foo] with the one test file
    [/src/foo/foo_test.go], which holds the given declarations. *)
Definition tools_with (decls : list Ast.Decl) : Discovery.Tools :=
  {| Discovery.go_list_dir := fun pkg =>
       if String.eqb pkg "example.com/foo"
       then Some ("/src/foo" +:+ newline) else None;
     Discovery.glob_test_files := fun dir =>
       if String.eqb dir "/src/foo" then Some ["/src/foo/foo_test.go"]
       else Some [];
     Discovery.parse_file := fun file =>
       if String.eqb file "/src/foo/foo_test.go"
       then Some {| Ast.Decls := decls |} else None |}.

(** A name as a directory holds it: not empty and free of separators. *)
Definition plain (n : string) : Prop :=
  n <> "" /\ Strings.contains_byte Separator n = false.

(** The import up to the minimization step: the target's directory is
    resolved, the new entries are listed and copied. *)
Definition copyPhase (m : Corpus.CorpusManager) (t : Discovery.Target)
    (newEntriesDir : string) (w : World)
  : option error * Corpus.CorpusManager * World :=
  let '(targetDir, m1, w1) := GetTargetDir m t w in
  match ReadDir newEntriesDir w1 with
  | (inl err, w2) =>
      (Some (Wrap "failed to read new entries directory" err), m1, w2)
  | (inr ents, w2) =>
      let '(err, w3) := importEntries targetDir newEntriesDir ents w2 in
      (err, m1, w3)
  end.

(** A minimizer that exits with status zero and touches nothing. *)
Definition quiet_minimizer (env : Env) : Prop :=
  forall name pkg dir f, run_minimize env name pkg dir f = (f, true).

(** The import reduces to its copy phase: the strategy is not
    ["coverage"], or the minimizer is quiet. *)
Definition copy_only (env : Env) (m : Corpus.CorpusManager) : Prop :=
  Minimization m <> CoverageMinimization \/ quiet_minimizer env.

(** A minimizer that always exits with a non-zero status. *)
Definition failing_minimizer : Env :=
  {| temp_name := fun _ => Some "/tmp/fuzz-run-1";
     run_fuzz := fun _ _ _ _ _ f =>
       {| h_fs := f; h_output := ""; h_ok := true; h_elapsed := 0 |};
     run_minimize := fun _ _ _ f => (f, false) |}.

(** A minimizer whose every run exits with a non-zero status. *)
Definition minimizer_fails (env : Env) : Prop :=
  forall name pkg dir f, (run_minimize env name pkg dir f).2 = false.

(** A minimizer that exits with status zero on its first run, leaving a
    marker behind, and with a non-zero status on every later run. *)
Definition once_minimizer : Env :=
  {| temp_name := fun _ => Some "/tmp/fuzz-run-1";
     run_fuzz := fun _ _ _ _ _ f =>
       {| h_fs := f; h_output := ""; h_ok := true; h_elapsed := 0 |};
     run_minimize := fun _ _ _ f =>
       match f !! "corpus/.minimized" with
       | Some _ => (f, false)
       | None => (<["corpus/.minimized" := FileNode ""]> f, true)
       end |}.

(** A world with an empty corpus directory and two source directories
    that offer different bytes under the one name [seed]. *)
Definition import_world : World :=
  {| fs := {[ "corpus" := DirNode;
              "in1" := DirNode; "in1/seed" := FileNode "AAA";
              "in2" := DirNode; "in2/seed" := FileNode "BBB" ]};
     trace := [] |}.

(** The target the examples import for. *)
Definition import_target : Discovery.Target :=
  Discovery.mkTarget "pkg/codec" "FuzzDecode" "codec_test.go" "FuzzDecode" "".

(** Where [seed] lands in the corpus of that target. *)
Definition seed_path : string := "corpus/pkg_codec/FuzzDecode/seed".

(** Two outcomes agree: same value, same file system. *)
Definition agree {A} (r1 r2 : A * World) : Prop :=
  r1.1 = r2.1 /\ fs r1.2 = fs r2.2.

(** The environment with the exit status of every harness run set to
    [ok], and nothing else changed. *)
Definition with_exit (ok : bool) (env : Env) : Env :=
  {| temp_name := temp_name env;
     run_fuzz := fun name pkg d par cache f =>
       let run := run_fuzz env name pkg d par cache f in
       {| h_fs := h_fs run; h_output := h_output run;
          h_ok := ok; h_elapsed := h_elapsed run |};
     run_minimize := run_minimize env |}.

(** Two engines that differ in their results at most. *)
Definition same_setup (e1 e2 : FuzzEngine) : Prop :=
  Config e1 = Config e2 /\ Targets e1 = Targets e2 /\
  CorpusManager e1 = CorpusManager e2.

(** The errors [RunTarget] can return: a step of the orchestration failed. *)
Definition orchestration_error (err : error) : Prop :=
  exists cause,
    err = Wrap "failed to create temp directory" cause \/
    err = Wrap "failed to create temp corpus directory" cause \/
    err = Wrap "failed to copy corpus" cause \/
    err = Wrap "failed to create crashers directory" cause \/
    err = Wrap "failed to import new corpus entries" cause.

(** What [filepath.Glob] finds in a directory. *)
Definition globbed (f : gmap string node) (dir : string) : list string :=
  if is_dir f dir
  then map (fun e => Join [dir; de_name e]) (entries f dir)
  else [].

(** The world in which the import of a run starts: the file system is the
    one the harness left. *)
Definition classify (run : HarnessRun) (tempDir : string) (w5 : World)
  : string * list string * World :=
  let w6 := set_fs (h_fs run) w5 in
  if h_ok run then ("", [], w6)
  else
    match GlobAll (Join [tempDir; "crashers"]) w6 with
    | (inr crashers, w') => (h_output run, collectCrashInputs crashers [], w')
    | (inl _, w') => (h_output run, [], w')
    end.

(** The crash inputs found in a directory: the paths of its entries whose
    names do not end in [".output"], in name order. *)
Definition crash_paths (f : gmap string node) (dir : string) : list string :=
  map (fun n => dir +:+ "/" +:+ n)
    (filter (fun n => Strings.HasSuffix n ".output" = false)
       (map de_name (entries f dir))).

(** A harness that leaves the given files in the crashers directory of
    its cache, prints ["FAIL"] and exits with a non-zero status. *)
Definition crashing_harness (names : list string) : Env :=
  {| temp_name := fun _ => Some "/tmp/fuzz-run-1";
     run_fuzz := fun _ _ _ _ cache f =>
       {| h_fs :=
            foldr (fun n g => <[cache +:+ "/crashers/" +:+ n := FileNode n]> g)
                  f names;
          h_output := "FAIL"; h_ok := false; h_elapsed := 7 |};
     run_minimize := fun _ _ _ f => (f, true) |}.

(** A world with the directory for temporary files and nothing else. *)
Definition start_world : World :=
  {| fs := {[ "/tmp" := DirNode ]}; trace := [] |}.

(** The run of the example target by a fresh engine on the example
    configuration. *)
Definition example_run (env : Env)
  : option ((error + Result) * FuzzEngine * World) :=
  match NewFuzzEngine example_config [example_target] start_world with
  | (inr e, w) => Some (RunTarget env e example_target w)
  | (inl _, _) => None
  end.

(** The result of a run, when it returned one. *)
Definition result_of (o : option ((error + Result) * FuzzEngine * World))
  : option Result :=
  match o with
  | Some (inr r, _, _) => Some r
  | _ => None
  end.

(** The world in which the fresh engine of the example starts. *)
Definition started_world : World :=
  (NewFuzzEngine example_config [example_target] start_world).2.

(** The byte [c], [n] times. *)
Fixpoint repeat_byte (n : nat) (c : ascii) : string :=
  match n with
  | O => ""
  | S k => String c (repeat_byte k c)
  end.

(** A harness that prints 150 bytes and exits with a non-zero status. *)
Definition noisy_harness : Env :=
  {| temp_name := fun _ => Some "/tmp/fuzz-run-1";
     run_fuzz := fun _ _ _ _ _ f =>
       {| h_fs := f; h_output := repeat_byte 150 "x";
          h_ok := false; h_elapsed := 7 |};
     run_minimize := fun _ _ _ f => (f, true) |}.

(** How two outcomes of [RunTarget] compare when only the exit status of
    the harness, forced to [ok] in the second, sets them apart. *)
Definition same_but_exit (ok : bool) (o1 o2 : error + Result) : Prop :=
  match o1, o2 with
  | inl err1, inl err2 => err1 = err2
  | inr r1, inr r2 =>
      Success r2 = ok /\ Target r2 = Target r1 /\
      Duration r2 = Duration r1 /\ NewCorpusItems r2 = NewCorpusItems r1
  | _, _ => False
  end.

(** The error [RunAll] returns for a target whose run failed. *)
Definition run_error (t : Discovery.Target) (cause : error) : error :=
  Wrap ("failed to run target " +:+ Discovery.Package t +:+ "."
          +:+ Discovery.Name t) cause.

(** A second target of the example package. *)
Definition example_target2 : Discovery.Target :=
  Discovery.mkTarget "pkg/codec" "FuzzEncode" "codec_test.go" "FuzzEncode" "".

(** The example engine with two targets to run. *)
Definition two_target_engine : FuzzEngine :=
  {| Config := example_config;
     Targets := [example_target; example_target2];
     CorpusManager := mkCorpusManager "corpus" ∅ CoverageMinimization;
     Results := [] |}.

(** The engine once the result of a run has been appended to its
    results. *)
Definition appended (e : FuzzEngine) (r : Result) : FuzzEngine :=
  {| Config := Config e; Targets := Targets e;
     CorpusManager := CorpusManager e; Results := Results e ++ [r] |}.

(** A campaign told in runs of [RunTarget]: [runs env ts e w new err e' w']
    says that running the targets [ts] one after the other, each by
    [RunTarget] on the engine and in the world the run before it left,
    yields the results [new], appended one by one, and ends in the engine
    [e'] and the world [w']: after the last target with no error, or at the
    first target whose run returns an error, with that error wrapped and
    no target run after it. *)
Inductive runs (env : Env)
  : list Discovery.Target -> FuzzEngine -> World ->
    list Result -> option error -> FuzzEngine -> World -> Prop :=
| runs_done e w : runs env [] e w [] None e w
| runs_abort t rest e w cause e1 w1 :
    RunTarget env e t w = (inl cause, e1, w1) ->
    runs env (t :: rest) e w [] (Some (run_error t cause)) e1 w1
| runs_next t rest e w r e1 w1 new err e' w' :
    RunTarget env e t w = (inr r, e1, w1) ->
    runs env rest (appended e1 r) w1 new err e' w' ->
    runs env (t :: rest) e w (r :: new) err e' w'.

(** Is the node a regular file? *)
Definition is_file (nd : node) : bool :=
  match nd with FileNode _ => true | DirNode => false end.

(** The number of regular files at or below [base]. *)
Definition fileCount (base : string) (f : gmap string node) : nat :=
  size (filter (fun kv : string * node =>
                  in_tree base kv.1 = true /\ is_file kv.2 = true) f).

(** No call to the minimizer among the calls made from [w] to [w']. *)
Definition no_minimize_between (w w' : World) : Prop :=
  exists evs,
    trace w' = (evs ++ trace w)%list /\
    Forall (fun ev => forall n p d, ev <> EvMinimize n p d) evs.

(** Every path outside the tree of [tmp] keeps its node. *)
Definition outside_kept (tmp : string) (f f' : gmap string node) : Prop :=
  forall p nd, in_tree tmp p = false -> f !! p = Some nd -> f' !! p = Some nd.

(** The harness changes nothing outside the cache directory it is given. *)
Definition contained_harness (env : Env) : Prop :=
  forall name pkg d par cache f,
    outside_kept cache f (h_fs (run_fuzz env name pkg d par cache f)).

(** The minimizer removes nothing and changes nothing. *)
Definition harmless_minimizer (env : Env) : Prop :=
  forall name pkg dir f, f ⊆ (run_minimize env name pkg dir f).1.

(** The scratch directories lie apart from the tree of [base]. *)
Definition scratch_apart (env : Env) (base : string) : Prop :=
  forall f tmp p,
    temp_name env f = Some tmp -> in_tree base p = true ->
    in_tree tmp p = false.

(** A minimizer that deletes the corpus entry [b] of the example target
    and exits with status zero. *)
Definition pruning_minimizer : Env :=
  {| temp_name := fun _ => Some "/tmp/fuzz-run-1";
     run_fuzz := fun _ _ _ _ _ f =>
       {| h_fs := f; h_output := "ok"; h_ok := true; h_elapsed := 7 |};
     run_minimize := fun _ _ dir f => (delete (dir +:+ "/b") f, true) |}.

(** A world whose corpus, in the default corpus directory, holds the
    entries [a] and [b] of the example target. *)
Definition seeded_world : World :=
  {| fs := {[ "/tmp" := DirNode;
              "./fuzz-corpus" := DirNode;
              "./fuzz-corpus/pkg_codec" := DirNode;
              "./fuzz-corpus/pkg_codec/FuzzDecode" := DirNode;
              "./fuzz-corpus/pkg_codec/FuzzDecode/a" := FileNode "A";
              "./fuzz-corpus/pkg_codec/FuzzDecode/b" := FileNode "B" ]};
     trace := [] |}.

End Vocabulary.

(** ** Vocabulary for the commands, discovery and staging *)

Section MoreVocabulary.

Import Corpus Runner.

(** A name as Go spells identifiers: no dot in it. *)
Definition dotless (n : string) : Prop :=
  Strings.contains_byte "."%char n = false.

(** The package path with every separator replaced, as the directory of a
    target is named. *)
Definition sanitized (pkg : string) : string :=
  Strings.ReplaceAll pkg "/" "_".

(** An element of a path that [filepath.Clean] keeps as it is: not empty,
    and neither [.] nor [..]. *)
Definition clean_element (n : string) : Prop :=
  n <> "" /\ n <> "." /\ n <> "..".

(** A path that [filepath.Clean] returns as it is: elements that it
    keeps, separated by single separators, after a leading separator or
    none. *)
Definition clean_path (p : string) : Prop :=
  match Strings.Split p "/" with
  | "" :: e :: rest => Forall clean_element (e :: rest)
  | elems => Forall clean_element elems
  end.

(** The directory [GetTargetDir] computes for a target. *)
Definition targetPath (baseDir : string) (t : Discovery.Target) : string :=
  Join [baseDir; sanitized (Discovery.Package t); Discovery.Name t].

(** Every cached directory is the one computed for some target with the
    key it is stored under. *)
Definition wellCached (m : Corpus.CorpusManager) : Prop :=
  forall k dir,
    TargetDirs m !! k = Some dir ->
    exists t, dotless (Discovery.Name t) /\ k = targetKey t /\
              dir = targetPath (BaseDir m) t.

(** Is the event a start of the harness in fuzzing mode? *)
Definition is_fuzz (ev : event) : bool :=
  match ev with EvFuzz _ _ _ _ _ => true | _ => false end.

(** The starts of the harness in fuzzing mode so far, most recent first. *)
Definition harness_starts (w : World) : list event :=
  filter (fun ev => is_fuzz ev = true) (trace w).

(** What a start of the harness was given on its command line: the name
    after [-fuzz], the package, the duration after [-fuzztime] and the
    number after [-parallel]. *)
Definition start_args (ev : event) : option (string * string * Z * Z) :=
  match ev with
  | EvFuzz name pkg fuzztime par _ => Some (name, pkg, fuzztime, par)
  | _ => None
  end.

(** The command line [RunTarget] puts together for a target. *)
Definition command_line (e : FuzzEngine) (t : Discovery.Target)
  : option (string * string * Z * Z) :=
  Some (Discovery.Name t, Discovery.Package t, getTargetDuration e t,
        Config.Parallelism (Config e)).

(** The command line of a target under the flags of the run command. *)
Definition flagged_line (flags : Fuzzctl.RunFlags) (t : Discovery.Target)
  : option (string * string * Z * Z) :=
  Some (Discovery.Name t, Discovery.Package t, Fuzzctl.time flags,
        Fuzzctl.parallel flags).

(** The options the run command discovers with. *)
Definition runOptions (flags : Fuzzctl.RunFlags) (args : list string)
  : Discovery.DiscoveryOptions :=
  {| Discovery.RootDir := Fuzzctl.root_dir flags;
     Discovery.Patterns := match args with [] => ["./..."] | _ => args end;
     Discovery.ChangedOnly := Fuzzctl.changed_only flags;
     Discovery.GitRef := Fuzzctl.git_ref flags |}.

(** The flags of the run command when none is given. *)
Definition default_flags : Fuzzctl.RunFlags :=
  {| Fuzzctl.root_dir := "."; Fuzzctl.time := 5 * Config.Minute;
     Fuzzctl.corpus := "./fuzz-corpus"; Fuzzctl.parallel := 4;
     Fuzzctl.changed_only := false; Fuzzctl.git_ref := "HEAD~1" |}.

(** [go list] that knows the one package of [tools_with]. *)
Definition example_commands : Discovery.Commands :=
  {| Discovery.go_list := fun _ _ => Some ("example.com/foo" +:+ newline);
     Discovery.git_diff := fun _ _ => Some "" |}.

(** A target of LND's wire package, under the import path [go list]
    prints for it. *)
Definition lnwire_target : Discovery.Target :=
  Discovery.mkTarget "github.com/lightningnetwork/lnd/lnwire"
    "FuzzAcceptChannel" "lnwire/fuzz_test.go" "FuzzAcceptChannel" "".

(** An engine on a configuration, with nothing resolved and nothing run. *)
Definition engine_on (cfg : Config.Config) (ts : list Discovery.Target)
  : FuzzEngine :=
  {| Config := cfg; Targets := ts;
     CorpusManager :=
       mkCorpusManager (Config.CorpusDir cfg) ∅ CoverageMinimization;
     Results := [] |}.

(** A world with a corpus directory [c] that holds a file and, one level
    down, another one. *)
Definition tree_world : World :=
  {| fs := {[ "c" := DirNode; "c/a" := FileNode "A";
              "c/sub" := DirNode; "c/sub/b" := FileNode "B" ]};
     trace := [] |}.

(** Where the walk function of [copyDir] puts the file at [src/rel]. *)
Definition placed (dst rel : string) : string :=
  if bool_decide (rel = ".") then dst else dst +:+ "/" +:+ rel.

(** The world [w0] still holds what the tree of [src] held in [w]. *)
Definition sources_kept (src : string) (w w0 : World) : Prop :=
  forall p nd, in_tree src p = true -> fs w !! p = Some nd ->
               fs w0 !! p = Some nd.

(** The targets found in a package; none when the search fails. *)
Definition found (tools : Discovery.Tools) (pkg : string)
  : list Discovery.Target :=
  match Discovery.findTargetsInPackage tools pkg with
  | inr ts => ts
  | inl _ => []
  end.

(** The search of the package succeeds. *)
Definition searchable (tools : Discovery.Tools) (pkg : string) : Prop :=
  exists ts, Discovery.findTargetsInPackage tools pkg = inr ts.

(** Discovery options with the changed-only filter set as given. *)
Definition options (rootDir : string) (patterns : list string)
    (changedOnly : bool) (gitRef : string) : Discovery.DiscoveryOptions :=
  {| Discovery.RootDir := rootDir; Discovery.Patterns := patterns;
     Discovery.ChangedOnly := changedOnly; Discovery.GitRef := gitRef |}.

(** [git diff] that reports a change in [foo_test.go] and nowhere else. *)
Definition foo_changed : Discovery.Commands :=
  {| Discovery.go_list := fun _ _ => Some ("example.com/foo" +:+ newline);
     Discovery.git_diff := fun _ file =>
       if String.eqb file "/src/foo/foo_test.go"
       then Some ("foo/foo_test.go" +:+ newline) else Some "" |}.

(** [func FuzzBar(f *testing.F)], without a comment. *)
Definition decl_FuzzBar : Ast.Decl :=
  Ast.FuncDeclNode
    {| Ast.Doc := None; Ast.Recv := None; Ast.Name := "FuzzBar";
       Ast.Params := [ {| Ast.Names := ["f"]; Ast.Type_ := testing_F |} ] |}.

(** The argument names the target: it is its package or its qualified
    name. *)
Definition names (t : Discovery.Target) (arg : string) : Prop :=
  Discovery.Package t = arg \/ targetKey t = arg.

#[global] Instance names_dec t arg : Decision (names t arg).
Proof. unfold names. apply _. Defined.

(** The target [FuzzFoo] of the example package. *)
Definition foo_target : Discovery.Target :=
  Discovery.mkTarget "example.com/foo" "FuzzFoo" "/src/foo/foo_test.go"
    "FuzzFoo" "".

(** What a line of [corpus minimize] can report: the failure of the
    minimizer, or two counts. *)
Definition line_ok (l : Fuzzctl.MinimizeLine) : Prop :=
  Fuzzctl.ml_outcome l = inl (Wrap "minimization failed" ExitError) \/
  exists before after,
    Fuzzctl.ml_outcome l = inr (before, after) /\ 0 <= before /\ 0 <= after.

(** The regular files directly in [dir]. *)
Definition direct_files (f : gmap string node) (dir : string)
  : gmap string node :=
  filter (fun kv : string * node =>
            is_Some (entry_name dir kv.1) /\ is_file kv.2 = true) f.

(** The second file system has what the first has, and directories
    besides. *)
Definition only_directories_added (f f' : gmap string node) : Prop :=
  f ⊆ f' /\
  forall k c, f' !! k = Some (FileNode c) -> f !! k = Some (FileNode c).

(** What a row of [corpus list] can show as the count: zero, or the number
    of regular files directly in the directory of the row. *)
Definition row_ok (f : gmap string node) (row : Fuzzctl.ListRow) : Prop :=
  Fuzzctl.row_count row = 0 \/
  Fuzzctl.row_count row
  = Z.of_nat (size (direct_files f (Fuzzctl.row_dir row))).

(** A world in which a regular file sits where the directory of the
    example target belongs. *)
Definition blocked_world : World :=
  {| fs := {[ "/tmp" := DirNode; "corpus" := DirNode;
              "corpus/pkg_codec" := DirNode;
              "corpus/pkg_codec/FuzzDecode" := FileNode "x" ]};
     trace := [] |}.

(** A harness that adds the entry [new1] to the corpus of its cache and
    exits with status zero. *)
Definition finding_harness : Env :=
  {| temp_name := fun _ => Some "/tmp/fuzz-run-1";
     run_fuzz := fun _ _ _ _ cache f =>
       {| h_fs := <[cache +:+ "/corpus/new1" := FileNode "seed"]> f;
          h_output := "ok"; h_ok := true; h_elapsed := 7 |};
     run_minimize := fun _ _ _ f => (f, true) |}.

(** The targets a test file of a package holds; none when the file does
    not parse. *)
Definition targets_in (tools : Discovery.Tools) (pkg testFile : string)
  : list Discovery.Target :=
  match Discovery.parse_file tools testFile with
  | Some file => map (targetOf pkg testFile) (omap picked (Ast.Decls file))
  | None => []
  end.

(** The file parses. *)
Definition parses (tools : Discovery.Tools) (testFile : string) : Prop :=
  is_Some (Discovery.parse_file tools testFile).

(** A package in [/src/foo] with two test files, the first with
    [FuzzFoo], the second with [FuzzBar]; any other file does not parse. *)
Definition two_file_tools : Discovery.Tools :=
  {| Discovery.go_list_dir := fun _ => Some ("/src/foo" +:+ newline);
     Discovery.glob_test_files := fun _ =>
       Some ["/src/foo/a_test.go"; "/src/foo/b_test.go"];
     Discovery.parse_file := fun file =>
       if String.eqb file "/src/foo/a_test.go"
       then Some {| Ast.Decls := [decl_FuzzFoo] |}
       else if String.eqb file "/src/foo/b_test.go"
       then Some {| Ast.Decls := [decl_NotAFuzzFunc; decl_FuzzBar] |}
       else None |}.

(** A world in which a regular file sits where the directory of the
    second example target belongs. *)
Definition half_blocked_world : World :=
  {| fs := {[ "/tmp" := DirNode; "corpus" := DirNode;
              "corpus/pkg_codec" := DirNode;
              "corpus/pkg_codec/FuzzEncode" := FileNode "x" ]};
     trace := [] |}.

(** What lies directly in [dir], files and directories alike. *)
Definition direct_entries (f : gmap string node) (dir : string)
  : gmap string node :=
  filter (fun kv : string * node => is_Some (entry_name dir kv.1)) f.

(** A harness that exits with status zero and touches nothing. *)
Definition idle_harness : Env :=
  {| temp_name := fun _ => Some "/tmp/fuzz-run-1";
     run_fuzz := fun _ _ _ _ _ f =>
       {| h_fs := f; h_output := "ok"; h_ok := true; h_elapsed := 7 |};
     run_minimize := fun _ _ _ f => (f, true) |}.

End MoreVocabulary.

(** * Properties *)

(** ** Resolving a target's directory *)

Section GetTargetDirFacts.

Import Corpus.

(** A cached key is answered from the cache, with nothing else touched. *)
Lemma GetTargetDir_cached m t w dir :
  TargetDirs m !! targetKey t = Some dir ->
  GetTargetDir m t w = (dir, m, w).
Proof. intros H. unfold GetTargetDir. now rewrite H. Qed.

(** A resolution never changes or drops a cached entry. *)
Lemma GetTargetDir_keeps m t w k dir :
  TargetDirs m !! k = Some dir ->
  TargetDirs (GetTargetDir m t w).1.2 !! k = Some dir.
Proof.
  intros H. unfold GetTargetDir.
  destruct (TargetDirs m !! targetKey t) eqn:E; simpl; [exact H|].
  rewrite lookup_insert_ne; [exact H|]. intros Heq. subst k. congruence.
Qed.

(** After a resolution the key is cached with the path returned. *)
Lemma GetTargetDir_caches m t w :
  TargetDirs (GetTargetDir m t w).1.2 !! targetKey t
  = Some (GetTargetDir m t w).1.1.
Proof.
  unfold GetTargetDir.
  destruct (TargetDirs m !! targetKey t) eqn:E; simpl; [exact E|].
  apply lookup_insert_eq.
Qed.

Lemma resolveAll_keeps ts : forall m w k dir,
  TargetDirs m !! k = Some dir ->
  TargetDirs (resolveAll ts m w).1 !! k = Some dir.
Proof.
  induction ts as [|t ts IH]; intros m w k dir H; simpl; [exact H|].
  pose proof (GetTargetDir_keeps m t w k dir H) as H1.
  destruct (GetTargetDir m t w) as [[d m1] w1]. simpl in H1.
  now apply IH.
Qed.

(** A resolution makes at most one library call, [os.MkdirAll] on the path
    it returns. *)
Lemma GetTargetDir_trace m t w :
  trace (GetTargetDir m t w).2 = trace w \/
  trace (GetTargetDir m t w).2
  = EvMkdirAll (GetTargetDir m t w).1.1 :: trace w.
Proof.
  unfold GetTargetDir.
  destruct (TargetDirs m !! targetKey t) eqn:E; simpl; [now left|right].
  unfold MkdirAll. simpl.
  now destruct (mkdir_chain _ _).
Qed.

End GetTargetDirFacts.

(** C7: on one manager, resolving the directory of a target again, also
    after any number of other resolutions, returns the path of the first
    call and leaves the manager, the file system and the trace of library
    calls as they were; the first call itself makes at most one call to
    [os.MkdirAll], on the path it returns. *)
Theorem GetTargetDir_idempotent
    (m : Corpus.CorpusManager) (t : Discovery.Target) (w : World)
    (others : list Discovery.Target) :
  let '(dir, m1, w1) := Corpus.GetTargetDir m t w in
  let '(m2, w2) := resolveAll others m1 w1 in
  Corpus.GetTargetDir m1 t w1 = (dir, m1, w1) /\
  Corpus.GetTargetDir m2 t w2 = (dir, m2, w2) /\
  (trace w1 = trace w \/ trace w1 = EvMkdirAll dir :: trace w).
Proof.
  pose proof (GetTargetDir_caches m t w) as Hc.
  pose proof (GetTargetDir_trace m t w) as Ht.
  destruct (Corpus.GetTargetDir m t w) as [[dir m1] w1]. simpl in Hc, Ht.
  pose proof (resolveAll_keeps others m1 w1 _ _ Hc) as Hk.
  destruct (resolveAll others m1 w1) as [m2 w2]. simpl in Hk.
  split; [|split].
  - now apply GetTargetDir_cached.
  - now apply GetTargetDir_cached.
  - exact Ht.
Qed.

(** C10: the targets ["a/b".FuzzX] and ["a_b".FuzzX] have different
    package identifiers, yet a fresh manager resolves both to one and the
    same directory, whether asked separately or one after the other:
    every ["/"] of the package is replaced by ["_"] before the join. *)
Theorem GetTargetDir_not_injective :
  exists t1 t2 : Discovery.Target,
    Discovery.Package t1 = "a/b" /\
    Discovery.Package t2 = "a_b" /\
    Discovery.Package t1 <> Discovery.Package t2 /\
    Discovery.Name t1 = Discovery.Name t2 /\
    Strings.ReplaceAll (Discovery.Package t1) "/" "_" = Discovery.Package t2 /\
    forall (baseDir : string) (strategy : Corpus.MinimizationStrategy)
           (w : World),
      let m := Corpus.mkCorpusManager baseDir ∅ strategy in
      (Corpus.GetTargetDir m t1 w).1.1 = (Corpus.GetTargetDir m t2 w).1.1 /\
      let '(dir1, m1, w1) := Corpus.GetTargetDir m t1 w in
      (Corpus.GetTargetDir m1 t2 w1).1.1 = dir1.
Proof.
  exists (Discovery.mkTarget "a/b" "FuzzX" "x_test.go" "FuzzX" ""),
         (Discovery.mkTarget "a_b" "FuzzX" "x_test.go" "FuzzX" "").
  repeat split; try reflexivity; try discriminate.
Qed.

(** ** Double-precision arithmetic on durations *)

Section FloatFacts.

Import Float64.

Lemma fexp_eq x : fexp prec emax x = Z.max (x - 53) (-1074).
Proof. reflexivity. Qed.

Lemma digits2_pos_lt p : Zpos p < 2 ^ Zpos (digits2_pos p).
Proof.
  induction p as [p IH|p IH|]; simpl digits2_pos;
    rewrite ?Pos2Z.inj_succ, ?Z.pow_succ_r by lia; lia.
Qed.

Lemma digits2_pos_le p : forall k, 0 <= k -> Zpos p < 2 ^ k ->
  Zpos (digits2_pos p) <= k.
Proof.
  induction p as [p IH|p IH|]; intros k Hk H; simpl digits2_pos.
  - destruct (Z.eq_dec k 0) as [->|Hne]; [simpl in H; lia|].
    replace k with (Z.succ (k - 1)) in H by lia.
    rewrite Z.pow_succ_r in H by lia.
    rewrite Pos2Z.inj_succ. specialize (IH (k - 1)). lia.
  - destruct (Z.eq_dec k 0) as [->|Hne]; [simpl in H; lia|].
    replace k with (Z.succ (k - 1)) in H by lia.
    rewrite Z.pow_succ_r in H by lia.
    rewrite Pos2Z.inj_succ. specialize (IH (k - 1)). lia.
  - destruct (Z.eq_dec k 0) as [->|Hne]; [simpl in H; lia|]. lia.
Qed.

Lemma Zdigits2_le m k : 0 <= k -> 0 <= m < 2 ^ k -> Zdigits2 m <= k.
Proof.
  intros Hk [H0 H]. destruct m as [|p|p]; simpl; [lia| |lia].
  now apply digits2_pos_le.
Qed.

Lemma digits2_pos_iter_xO m d :
  Zpos (digits2_pos (Pos.iter xO m d)) = Zpos (digits2_pos m) + Zpos d.
Proof.
  induction d using Pos.peano_ind.
  - simpl. lia.
  - rewrite Pos.iter_succ. simpl digits2_pos. lia.
Qed.

Lemma shr_1_bounds mrs :
  0 <= shr_m mrs -> 0 <= shr_m (shr_1 mrs) <= shr_m mrs.
Proof.
  destruct mrs as [m r s]. simpl.
  destruct m as [|[p|p|]|[p|p|]]; simpl; lia.
Qed.

Lemma iter_pos_shr_1_bounds p : forall mrs,
  0 <= shr_m mrs -> 0 <= shr_m (SpecFloat.iter_pos shr_1 p mrs) <= shr_m mrs.
Proof.
  induction p as [p IH|p IH|]; intros mrs H; simpl.
  - pose proof (shr_1_bounds mrs H) as H1.
    pose proof (IH _ (proj1 H1)) as H2.
    pose proof (IH _ (proj1 H2)) as H3. lia.
  - pose proof (IH _ H) as H2.
    pose proof (IH _ (proj1 H2)) as H3. lia.
  - now apply shr_1_bounds.
Qed.

Lemma shr_fexp_bounds m e l :
  0 <= m ->
  let r := shr_fexp prec emax m e l in
  0 <= shr_m r.1 <= m /\
  e <= r.2 <= Z.max e (fexp prec emax (Zdigits2 m + e)).
Proof.
  intros Hm. unfold shr_fexp, shr.
  assert (Hrec : shr_m (shr_record_of_loc m l) = m)
    by (destruct l as [|[]]; reflexivity).
  destruct (fexp prec emax (Zdigits2 m + e) - e) as [|p|p] eqn:E; simpl.
  - rewrite Hrec. lia.
  - pose proof (iter_pos_shr_1_bounds p (shr_record_of_loc m l)) as H.
    rewrite Hrec in H. specialize (H Hm). lia.
  - rewrite Hrec. lia.
Qed.

Lemma round_nearest_even_bounds m l :
  0 <= m -> m <= round_nearest_even m l <= m + 1.
Proof.
  intros H. unfold round_nearest_even.
  destruct l as [|[]]; try lia. destruct (Z.even m); lia.
Qed.

Lemma binary_round_aux_finite sx m e l :
  0 <= m < 2 ^ 64 -> -1074 <= e <= 0 ->
  is_finite_or_zero (binary_round_aux prec emax sx m e l) = true.
Proof.
  intros Hm He. unfold binary_round_aux.
  pose proof (shr_fexp_bounds m e l (proj1 Hm)) as H1.
  destruct (shr_fexp prec emax m e l) as [mrs' e'] eqn:E1. simpl in H1.
  pose proof (round_nearest_even_bounds (shr_m mrs') (loc_of_shr_record mrs')
                (proj1 (proj1 H1))) as Hr.
  set (m2 := round_nearest_even (shr_m mrs') (loc_of_shr_record mrs')) in *.
  assert (Hm2 : 0 <= m2 < 2 ^ 65) by (change (2 ^ 64) with 18446744073709551616 in Hm; change (2 ^ 65) with 36893488147419103232; lia).
  pose proof (shr_fexp_bounds m2 e' loc_Exact (proj1 Hm2)) as H2.
  destruct (shr_fexp prec emax m2 e' loc_Exact) as [mrs'' e''] eqn:E2.
  simpl in H2.
  pose proof (Zdigits2_le m 64 ltac:(lia) Hm) as Hd1.
  pose proof (Zdigits2_le m2 65 ltac:(lia) Hm2) as Hd2.
  rewrite fexp_eq in H1, H2.
  assert (Hmm : 0 <= Zdigits2 m) by (destruct m; simpl; lia).
  destruct (shr_m mrs'') as [|p|p] eqn:Em; [reflexivity| |lia].
  replace (e'' <=? emax - prec) with true; [reflexivity|].
  symmetry. apply Z.leb_le. unfold emax, prec. lia.
Qed.

Lemma of_int64_finite n :
  is_int64 n -> is_finite_or_zero (of_int64 n) = true.
Proof.
  unfold is_int64, min_int64, max_int64, of_int64, binary_normalize.
  change (2 ^ 63) with 9223372036854775808.
  intros Hn.
  assert (Hall : forall s p, Zpos p <= 9223372036854775808 ->
            is_finite_or_zero (binary_round prec emax s p 0) = true).
  { intros s p Hp. unfold binary_round, shl_align.
    pose proof (digits2_pos_lt p) as Hlt.
    assert (Hd : Zpos (digits2_pos p) <= 64).
    { apply digits2_pos_le; [lia|]. change (2 ^ 64) with 18446744073709551616. lia. }
    rewrite fexp_eq.
    destruct (Z.max (Z.pos (digits2_pos p) + 0 - 53) (-1074) - 0) as [|d|d] eqn:E.
    - apply binary_round_aux_finite; [|lia].
      change (2 ^ 64) with 18446744073709551616. lia.
    - apply binary_round_aux_finite; [|lia].
      change (2 ^ 64) with 18446744073709551616. lia.
    - apply binary_round_aux_finite; [|lia].
      pose proof (digits2_pos_lt (Pos.iter xO p d)) as H1.
      rewrite digits2_pos_iter_xO in H1.
      assert (Z.pos (digits2_pos p) + Z.pos d = 53) as Heq by lia.
      rewrite Heq in H1. change (2 ^ 53) with 9007199254740992 in H1.
      change (2 ^ 64) with 18446744073709551616. lia. }
  destruct n as [|p|p]; [reflexivity| |]; apply Hall; lia.
Qed.

End FloatFacts.

(** A duration times the zero value is the zero duration. *)
Lemma scaled_zero totalTime :
  Float64.is_int64 totalTime -> scaled totalTime Float64.zero = 0.
Proof.
  intros H. unfold scaled. pose proof (of_int64_finite _ H) as Hf.
  destruct (Float64.of_int64 totalTime); simpl in Hf; try discriminate;
    reflexivity.
Qed.

Section ExactShares.
Import Float64.

Lemma binary_round_aux_exact s m e :
  Zpos (digits2_pos m) = 53 -> -1074 <= e <= 971 ->
  binary_round_aux prec emax s (Zpos m) e loc_Exact = S754_finite s m e.
Proof.
  intros Hd He. unfold binary_round_aux, shr_fexp. simpl Zdigits2.
  rewrite fexp_eq, Hd.
  replace (Z.max (53 + e - 53) (-1074) - e) with 0 by lia.
  simpl. rewrite fexp_eq, Hd.
  replace (Z.max (53 + e - 53) (-1074) - e) with 0 by lia.
  simpl. replace (e <=? emax - prec) with true; [reflexivity|].
  symmetry. apply Z.leb_le. unfold emax, prec. lia.
Qed.

Lemma Zpos_iter_xO m d : Zpos (Pos.iter xO m d) = Zpos m * 2 ^ Zpos d.
Proof.
  induction d using Pos.peano_ind.
  - simpl. lia.
  - rewrite Pos.iter_succ, Pos2Z.inj_succ, Z.pow_succ_r by lia.
    rewrite Pos2Z.inj_xO, IHd. lia.
Qed.

(** [float64] of a positive integer below 2^53 is exact: a normal
    mantissa and the exponent that goes with it. *)
Lemma of_int64_small p :
  Zpos p < 2 ^ 53 ->
  exists m e, of_int64 (Zpos p) = S754_finite false m e /\
              Zpos (digits2_pos m) = 53 /\ -52 <= e <= 0 /\
              Zpos m = Zpos p * 2 ^ (- e).
Proof.
  intros Hp. unfold of_int64, binary_normalize, binary_round, shl_align.
  pose proof (digits2_pos_le p 53 ltac:(lia) Hp) as Hd.
  assert (H1 : 1 <= Zpos (digits2_pos p)) by lia.
  rewrite fexp_eq.
  destruct (Z.max (Z.pos (digits2_pos p) + 0 - 53) (-1074) - 0) as [|d|d] eqn:E.
  - exists p, 0. rewrite binary_round_aux_exact by lia.
    repeat split; try lia.
  - lia.
  - exists (Pos.iter xO p d), (Z.max (Z.pos (digits2_pos p) + 0 - 53) (-1074)).
    assert (Hdig : Zpos (digits2_pos (Pos.iter xO p d)) = 53)
      by (rewrite digits2_pos_iter_xO; lia).
    rewrite binary_round_aux_exact by lia.
    repeat split; try lia.
    rewrite Zpos_iter_xO. f_equal. f_equal. lia.
Qed.

Lemma mul_iter_xO m k : Pos.mul m (Pos.iter xO 1%positive k) = Pos.iter xO m k.
Proof.
  induction k using Pos.peano_ind.
  - simpl. now rewrite Pos.mul_xO_r, Pos.mul_1_r.
  - rewrite !Pos.iter_succ, Pos.mul_xO_r. now rewrite IHk.
Qed.

Lemma shr_exact_52 m e :
  shr (Build_shr_record (Zpos (Pos.iter xO m 52)) false false) e 52
  = (Build_shr_record (Zpos m) false false, e + 52).
Proof. reflexivity. Qed.

(** Multiplying a normal number by a power of two shifts its exponent. *)
Lemma mul_pow2 s m e ey :
  Zpos (digits2_pos m) = 53 -> -1074 <= e + ey + 52 <= 971 ->
  mul (S754_finite s m e) (S754_finite false 4503599627370496 ey)
  = S754_finite s m (e + ey + 52).
Proof.
  intros Hd He. unfold mul, SFmul.
  change 4503599627370496%positive with (Pos.iter xO 1%positive 52).
  rewrite mul_iter_xO, xorb_false_r.
  unfold binary_round_aux, shr_fexp.
  cbn [Zdigits2 shr_record_of_loc].
  rewrite digits2_pos_iter_xO, Hd, fexp_eq.
  replace (Z.max (53 + 52 + (e + ey) - 53) (-1074) - (e + ey)) with 52 by lia.
  rewrite shr_exact_52.
  cbn [shr_m loc_of_shr_record round_nearest_even Zdigits2 shr_record_of_loc].
  rewrite Hd, fexp_eq.
  replace (Z.max (53 + (e + ey + 52) - 53) (-1074) - (e + ey + 52)) with 0
    by lia.
  cbn [shr shr_m].
  replace (e + ey + 52 <=? emax - prec) with true; [reflexivity|].
  symmetry. apply Z.leb_le. unfold emax, prec. lia.
Qed.

(** Below 2^53 nanoseconds the share 0.5 is half the budget, the odd
    nanosecond dropped. *)
Lemma scaled_half_small T :
  0 <= T < 2 ^ 53 -> scaled T half = T / 2.
Proof.
  intros [H0 H]. destruct T as [|p|p]; [reflexivity| |lia].
  destruct (of_int64_small p H) as (m & e & Ho & Hd & He & Hm).
  unfold scaled. rewrite Ho. unfold half. rewrite mul_pow2 by lia.
  unfold to_int64, truncate.
  assert (Hv : match e + -53 + 52 with
               | Z.neg k => Z.shiftr (Z.pos m) (Z.pos k)
               | _ => Z.shiftl (Z.pos m) (e + -53 + 52)
               end = Zpos p / 2).
  { destruct (e + -53 + 52) as [|k|k] eqn:Ee; try lia.
    rewrite Z.shiftr_div_pow2 by lia. rewrite Hm.
    replace (Zpos k) with (- e + 1) by lia.
    rewrite Z.pow_add_r, Z.pow_1_r by lia.
    rewrite (Z.mul_comm (2 ^ (- e)) 2).
    assert (2 ^ (- e) <> 0) by (apply Z.pow_nonzero; lia).
    rewrite Z.div_mul_cancel_r; lia. }
  rewrite Hv.
  assert (0 <= Zpos p / 2 < 2 ^ 53).
  { split; [apply Z.div_pos; lia|].
    apply Z.div_lt_upper_bound; lia. }
  unfold min_int64, max_int64.
  replace ((- 2 ^ 63 <=? Zpos p / 2) && (Zpos p / 2 <=? 2 ^ 63 - 1))
    with true; [reflexivity|].
  symmetry. apply andb_true_iff. split; apply Z.leb_le.
  - change (2 ^ 63) with 9223372036854775808. lia.
  - change (2 ^ 53) with 9007199254740992 in *.
    change (2 ^ 63) with 9223372036854775808. lia.
Qed.

(** Below 2^53 nanoseconds the share 1.0 is the whole budget. *)
Lemma scaled_one_small T :
  0 <= T < 2 ^ 53 -> scaled T one = T.
Proof.
  intros [H0 H]. destruct T as [|p|p]; [reflexivity| |lia].
  destruct (of_int64_small p H) as (m & e & Ho & Hd & He & Hm).
  unfold scaled. rewrite Ho. unfold one. rewrite mul_pow2 by lia.
  unfold to_int64, truncate.
  assert (Hv : match e + -52 + 52 with
               | Z.neg k => Z.shiftr (Z.pos m) (Z.pos k)
               | _ => Z.shiftl (Z.pos m) (e + -52 + 52)
               end = Zpos p).
  { destruct (e + -52 + 52) as [|k|k] eqn:Ee; try lia.
    - rewrite Z.shiftl_0_r, Hm. replace (- e) with 0 by lia. simpl. lia.
    - rewrite Z.shiftr_div_pow2 by lia. rewrite Hm.
      replace (Zpos k) with (- e) by lia.
      apply Z.div_mul. apply Z.pow_nonzero; lia. }
  rewrite Hv. unfold min_int64, max_int64.
  replace ((- 2 ^ 63 <=? Zpos p) && (Zpos p <=? 2 ^ 63 - 1))
    with true; [reflexivity|].
  symmetry. apply andb_true_iff. split; apply Z.leb_le.
  - change (2 ^ 63) with 9223372036854775808. lia.
  - change (2 ^ 53) with 9007199254740992 in *.
    change (2 ^ 63) with 9223372036854775808. lia.
Qed.

End ExactShares.

(** C2: the time budget of a target is the total budget times the share
    of its package when the allocation map has that key, else the total
    budget times the share under ["default"] when the map has that key,
    else zero.  With the map [{"pkgA": 0.5, "default": 0.1}] a target of
    ["pkgA"] gets the total times 0.5 and a target of any other package the
    total times 0.1; of a total of five minutes these are 2m30s and 30s.
    The product is the one of [float64], cut to whole nanoseconds: for a
    total below 2^53 nanoseconds the share 0.5 gives half of it and the
    share 1.0 all of it. *)
Theorem getTargetDuration_allocation
    (e : Runner.FuzzEngine) (t : Discovery.Target) :
  Float64.is_int64 (Config.FuzzTime (Runner.Config e)) ->
  let totalTime := Config.FuzzTime (Runner.Config e) in
  let allocation := Config.TimeAllocation (Runner.Config e) in
  Runner.getTargetDuration e t =
    match allocation !! Discovery.Package t with
    | Some share => scaled totalTime share
    | None =>
        match allocation !! "default" with
        | Some share => scaled totalTime share
        | None => 0
        end
    end /\
  (allocation = {[ "pkgA" := Float64.half; "default" := Float64.tenth ]} ->
   (Discovery.Package t = "pkgA" ->
    Runner.getTargetDuration e t = scaled totalTime Float64.half) /\
   (Discovery.Package t <> "pkgA" ->
    Runner.getTargetDuration e t = scaled totalTime Float64.tenth)) /\
  (allocation !! Discovery.Package t = None ->
   allocation !! "default" = None ->
   Runner.getTargetDuration e t = 0) /\
  scaled (5 * Config.Minute) Float64.half
    = 2 * Config.Minute + 30 * Config.Second /\
  scaled (5 * Config.Minute) Float64.tenth = 30 * Config.Second /\
  (0 <= totalTime < 2 ^ 53 ->
   scaled totalTime Float64.half = totalTime / 2 /\
   scaled totalTime Float64.one = totalTime).
Proof.
  intros Hint totalTime allocation.
  assert (Hgen : Runner.getTargetDuration e t =
    match allocation !! Discovery.Package t with
    | Some share => scaled totalTime share
    | None =>
        match allocation !! "default" with
        | Some share => scaled totalTime share
        | None => 0
        end
    end).
  { unfold Runner.getTargetDuration. fold totalTime allocation.
    destruct (allocation !! Discovery.Package t) as [a|]; [reflexivity|].
    destruct (allocation !! "default") as [a|]; simpl; [reflexivity|].
    now apply scaled_zero. }
  split; [exact Hgen|]. split; [|split; [|split]].
  - intros Hal. split.
    + intros Hp. rewrite Hgen, Hal, Hp. reflexivity.
    + intros Hp. rewrite Hgen, Hal.
      rewrite lookup_insert_ne by congruence.
      destruct (decide (Discovery.Package t = "default")) as [Hd|Hd].
      * rewrite Hd, lookup_singleton_eq. reflexivity.
      * rewrite lookup_singleton_ne by congruence. reflexivity.
  - intros H1 H2. now rewrite Hgen, H1, H2.
  - vm_compute. reflexivity.
  - split; [vm_compute; reflexivity|].
    intros Hsmall. split.
    + now apply scaled_half_small.
    + now apply scaled_one_small.
Qed.

(** The end-to-end scenario: five minutes at the share 0.5. *)
Lemma getTargetDuration_allocation_witness :
  Float64.is_int64 (Config.FuzzTime (Runner.Config example_engine)) /\
  Runner.getTargetDuration example_engine example_target
  = 2 * Config.Minute + 30 * Config.Second.
Proof.
  assert (H : Float64.is_int64
                (Config.FuzzTime (Runner.Config example_engine)))
    by (vm_compute; split; discriminate).
  split; [exact H|].
  destruct (getTargetDuration_allocation example_engine example_target H)
    as [Hgen _].
  rewrite Hgen. vm_compute. reflexivity.
Defined.

(** ** Discovery *)

Lemma hasFuzzParameter_true_iff (fd : Ast.FuncDecl) :
  Discovery.hasFuzzParameter fd = true <->
  exists names, Ast.Params fd = [ {| Ast.Names := names; Ast.Type_ := testing_F |} ].
Proof.
  unfold Discovery.hasFuzzParameter, testing_F. split.
  - destruct (Ast.Params fd) as [|[names ty] [|? ?]]; simpl; try discriminate.
    destruct ty as [| [| |[] sel| | |] | | | |]; simpl; try discriminate.
    intros H. apply andb_true_iff in H as [H1 H2].
    apply String.eqb_eq in H1, H2. subst. now exists names.
  - intros [names ->]. reflexivity.
Qed.

Lemma scanDecls_spec pkg testFile decls : forall targets,
  Discovery.scanDecls pkg testFile decls targets
  = (targets ++ map (targetOf pkg testFile) (omap picked decls))%list.
Proof.
  induction decls as [|decl rest IH]; intros targets; simpl.
  - now rewrite app_nil_r.
  - destruct decl as [fd| |]; simpl; try apply IH.
    destruct (Strings.HasPrefix (Ast.Name fd) "Fuzz"
              && Discovery.hasFuzzParameter fd); simpl.
    + rewrite IH, <- app_assoc. reflexivity.
    + apply IH.
Qed.

(** C9.  The claim holds of the code but for one slip.  Every top-level
    function declaration whose name starts with ["Fuzz"] and whose single
    parameter is of type [*testing.F] gets a target, in declaration order,
    with the text of its leading comment as description when there is one;
    the scenario of the claim comes out as it says, the fuzzing-context
    type being [testing.F]: [FuzzFoo] under the comment "finds foo bugs"
    yields one target with that description, [NotAFuzzFunc(x int)] yields
    none.  The slip: [hasFuzzParameter] means to ask for one parameter
    and compares [len(Params.List)] with one, but that list holds fields,
    and a field can declare several names.  So
    [func FuzzTwo(a, b *testing.F)], a function of two parameters, passes
    the check and is emitted as a target. *)
Theorem discovery_counts_fields_not_parameters :
  numParams fd_FuzzTwo = 2%nat /\
  Discovery.hasFuzzParameter fd_FuzzTwo = true /\
  Discovery.findTargetsInPackage (tools_with [decl_FuzzTwo]) "example.com/foo"
  = inr [ {| Discovery.Package := "example.com/foo";
             Discovery.Name := "FuzzTwo";
             Discovery.FilePath := "/src/foo/foo_test.go";
             Discovery.FuncName := "FuzzTwo";
             Discovery.Description := "" |} ] /\
  (forall fd,
     Discovery.hasFuzzParameter fd = true <->
     exists names,
       Ast.Params fd = [ {| Ast.Names := names; Ast.Type_ := testing_F |} ]) /\
  (forall fd names,
     Ast.Params fd = [ {| Ast.Names := names; Ast.Type_ := testing_F |} ] ->
     numParams fd = Nat.max 1 (length names)) /\
  (forall pkg testFile decls targets,
     Discovery.scanDecls pkg testFile decls targets
     = (targets ++ map (targetOf pkg testFile) (omap picked decls))%list) /\
  (forall fd,
     picked (Ast.FuncDeclNode fd) = Some fd <->
     Strings.HasPrefix (Ast.Name fd) "Fuzz" = true /\
     Discovery.hasFuzzParameter fd = true) /\
  (forall fd,
     picked (Ast.FuncDeclNode fd) = None \/
     picked (Ast.FuncDeclNode fd) = Some fd) /\
  picked Ast.GenDecl = None /\ picked Ast.BadDecl = None /\
  (forall pkg testFile fd doc,
     Ast.Doc fd = Some doc ->
     Discovery.Description (targetOf pkg testFile fd) = Ast.Text doc) /\
  Discovery.findTargetsInPackage
    (tools_with [decl_NotAFuzzFunc; decl_FuzzFoo]) "example.com/foo"
  = inr [ {| Discovery.Package := "example.com/foo";
             Discovery.Name := "FuzzFoo";
             Discovery.FilePath := "/src/foo/foo_test.go";
             Discovery.FuncName := "FuzzFoo";
             Discovery.Description := "finds foo bugs" +:+ newline |} ] /\
  Discovery.findTargetsInPackage (tools_with [decl_NotAFuzzFunc])
    "example.com/foo" = inr [].
Proof.
  split; [reflexivity|]. split; [reflexivity|]. split; [reflexivity|].
  split; [exact hasFuzzParameter_true_iff|].
  split.
  { intros fd names H. unfold numParams. rewrite H. simpl. lia. }
  split; [intros; apply scanDecls_spec|].
  split.
  { intros fd. unfold picked.
    destruct (Strings.HasPrefix (Ast.Name fd) "Fuzz");
      destruct (Discovery.hasFuzzParameter fd); simpl; split;
      try (intros [? ?]); try discriminate; auto. }
  split.
  { intros fd. unfold picked.
    destruct (Strings.HasPrefix (Ast.Name fd) "Fuzz"
              && Discovery.hasFuzzParameter fd); auto. }
  repeat split.
  intros pkg testFile fd doc H. simpl. now rewrite H.
Qed.

(** The statement at [FuzzTwo]: one field of type [*testing.F] passes the
    check, and its two names are two parameters. *)
Lemma discovery_counts_fields_not_parameters_witness :
  Discovery.hasFuzzParameter fd_FuzzTwo = true /\
  numParams fd_FuzzTwo = Nat.max 1 (length ["a"; "b"]) /\
  picked decl_FuzzTwo = Some fd_FuzzTwo.
Proof.
  destruct discovery_counts_fields_not_parameters
    as (_ & _ & _ & Hiff & Hnum & _ & Hpick & _).
  assert (Hp : Discovery.hasFuzzParameter fd_FuzzTwo = true).
  { apply Hiff. exists ["a"; "b"]. reflexivity. }
  split; [exact Hp|].
  split; [exact (Hnum fd_FuzzTwo ["a"; "b"] eq_refl)|].
  apply Hpick. split; [reflexivity|exact Hp].
Defined.

(** ** What the file-system calls leave in place *)

Section FileSystemFacts.

Import Corpus.

Lemma mkdir_chain_subseteq chain : forall f f',
  mkdir_chain chain f = Some f' -> f ⊆ f'.
Proof.
  induction chain as [|p rest IH]; intros f f' H; simpl in H.
  - now inversion H.
  - destruct (f !! p) as [[|c]|] eqn:E; try discriminate.
    + now inversion H.
    + destruct (bool_decide (p = "")); [discriminate|].
      destruct (mkdir_chain rest f) as [f1|] eqn:E1; [|discriminate].
      inversion H; subst. apply insert_subseteq_r; [exact E|]. now apply IH.
Qed.

Lemma MkdirAll_subseteq p w : fs w ⊆ fs (MkdirAll p w).2.
Proof.
  unfold MkdirAll. simpl.
  destruct (mkdir_chain (ancestors p) (fs w)) eqn:E; simpl; [|reflexivity].
  now apply mkdir_chain_subseteq in E.
Qed.

Lemma ReadDir_fs d w : fs (ReadDir d w).2 = fs w.
Proof. unfold ReadDir. simpl. now destruct (_ && _). Qed.

Lemma path_exists_false f p : path_exists f p = false -> f !! p = None.
Proof.
  unfold path_exists. destruct (f !! p); [|reflexivity].
  now rewrite orb_true_r.
Qed.

Lemma path_exists_weaken f f' p :
  f ⊆ f' -> path_exists f p = true -> path_exists f' p = true.
Proof.
  unfold path_exists. intros Hsub H.
  destruct (implicit_dir p); [reflexivity|]. simpl in *.
  destruct (f !! p) as [x|] eqn:E; [|discriminate].
  now rewrite (lookup_weaken _ _ _ _ E Hsub).
Qed.

Lemma is_dir_weaken f f' p :
  f ⊆ f' -> is_dir f p = true -> is_dir f' p = true.
Proof.
  unfold is_dir. intros Hsub H.
  destruct (implicit_dir p); [reflexivity|]. simpl in *.
  destruct (f !! p) as [[|c]|] eqn:E; try discriminate.
  now rewrite (lookup_weaken _ _ _ _ E Hsub).
Qed.

(** Copying onto a path that is not there yet adds, and changes nothing
    else. *)
Lemma copyFile_subseteq src dst w :
  path_exists (fs w) dst = false -> fs w ⊆ fs (copyFile src dst w).2.
Proof.
  intros H. apply path_exists_false in H. unfold copyFile. simpl.
  destruct (negb (path_exists (fs w) src)); simpl; [reflexivity|].
  destruct (_ || _); simpl; [reflexivity|].
  destruct (<[dst:=FileNode ""]> (fs w) !! src) as [[|c]|]; simpl;
    try now apply insert_subseteq.
  rewrite insert_insert_eq. now apply insert_subseteq.
Qed.

(** A copy that succeeds leaves the destination in place. *)
Lemma copyFile_ok_exists src dst w w' :
  copyFile src dst w = (None, w') -> path_exists (fs w') dst = true.
Proof.
  unfold copyFile. simpl.
  destruct (negb (path_exists (fs w) src)); simpl; [discriminate|].
  destruct (_ || _); simpl; [discriminate|].
  destruct (<[dst:=FileNode ""]> (fs w) !! src) as [[|c]|]; simpl;
    try discriminate.
  intros H. inversion H; subst; simpl.
  unfold path_exists. rewrite lookup_insert_eq. apply orb_true_r.
Qed.

Lemma GetTargetDir_subseteq m t w : fs w ⊆ fs (GetTargetDir m t w).2.
Proof.
  unfold GetTargetDir. destruct (TargetDirs m !! targetKey t); simpl.
  - reflexivity.
  - apply MkdirAll_subseteq.
Qed.

Lemma GetTargetDir_strategy m t w :
  Minimization (GetTargetDir m t w).1.2 = Minimization m.
Proof.
  unfold GetTargetDir. now destruct (TargetDirs m !! targetKey t).
Qed.

Section WithEnv.

Variable env : Env.

(** The loop of the import only adds. *)
Lemma importEntries_subseteq targetDir src ents : forall w,
  fs w ⊆ fs (importEntries targetDir src ents w).2.
Proof.
  induction ents as [|entry rest IH]; intros w; simpl; [reflexivity|].
  destruct (de_isdir entry); [apply IH|].
  destruct (path_exists (fs w) (Join [targetDir; de_name entry])) eqn:Ex.
  - etransitivity; [|apply IH]. reflexivity.
  - pose proof (copyFile_subseteq (Join [src; de_name entry])
                  (Join [targetDir; de_name entry])
                  (record (EvStat (Join [targetDir; de_name entry])) w) Ex)
      as Hc.
    destruct (copyFile _ _ _) as [[err|] w2] eqn:Ec; simpl in *; [exact Hc|].
    etransitivity; [exact Hc|apply IH].
Qed.

End WithEnv.

End FileSystemFacts.

(** ** Paths and directory listings *)

Section PathFacts.

#[local] Arguments Ascii.eqb : simpl never.

Lemma strip_prefix_Some pre : forall s r,
  strip_prefix pre s = Some r <-> s = pre +:+ r.
Proof.
  induction pre as [|a pre IH]; intros s r; simpl.
  - split; [now intros [= ->]|now intros ->].
  - destruct s as [|b s]; [split; discriminate|].
    destruct (Ascii.eqb_spec a b) as [->|Hne].
    + rewrite IH. split; [now intros ->|now intros [= ->]].
    + split; [discriminate|]. intros H. inversion H. congruence.
Qed.

Lemma strip_prefix_app pre r : strip_prefix pre (pre +:+ r) = Some r.
Proof. now apply strip_prefix_Some. Qed.

Lemma append_slash d r : (d +:+ "/") +:+ r = d +:+ "/" +:+ r.
Proof.
  induction d as [|c d IH]; [reflexivity|].
  change (String c ((d +:+ "/") +:+ r) = String c (d +:+ "/" +:+ r)).
  now rewrite IH.
Qed.

Lemma append_cancel d x y : d +:+ x = d +:+ y -> x = y.
Proof.
  induction d as [|c d IH]; simpl; [auto|]. intros H. inversion H. auto.
Qed.

Lemma entry_name_Some d p n :
  entry_name d p = Some n <-> p = d +:+ "/" +:+ n /\ plain n.
Proof.
  unfold entry_name, plain.
  destruct (strip_prefix (d +:+ "/") p) as [r|] eqn:E.
  - apply strip_prefix_Some in E. rewrite append_slash in E. subst p.
    assert (Hinj : forall x, d +:+ "/" +:+ r = d +:+ "/" +:+ x -> r = x).
    { intros x H. apply append_cancel in H. now inversion H. }
    destruct (bool_decide_reflect (r = "")) as [->|Hr]; simpl.
    + split; [discriminate|]. intros [H [Hn _]].
      apply Hinj in H. congruence.
    + destruct (Strings.contains_byte Separator r) eqn:Ec.
      * split; [discriminate|]. intros [H [_ Hn]].
        apply Hinj in H. congruence.
      * split.
        -- intros [= ->]. auto.
        -- intros [H _]. apply Hinj in H. congruence.
  - split; [discriminate|]. intros [H _]. exfalso.
    assert (strip_prefix (d +:+ "/") p = Some n); [|congruence].
    apply strip_prefix_Some. subst p. now rewrite append_slash.
Qed.

Lemma split_last_plain n :
  Strings.contains_byte Separator n = false -> split_last n = None.
Proof.
  induction n as [|c n IH]; simpl; [reflexivity|].
  intros H. apply orb_false_iff in H as [H1 H2].
  rewrite (IH H2). rewrite Ascii.eqb_sym. now rewrite H1.
Qed.

Lemma split_last_child d n :
  Strings.contains_byte Separator n = false ->
  split_last (d +:+ "/" +:+ n) = Some (d, n).
Proof.
  intros H. induction d as [|c d IH].
  - change (split_last (String "/" n) = Some ("", n)). simpl.
    rewrite (split_last_plain n H). reflexivity.
  - change (split_last (String c (d +:+ "/" +:+ n)) = Some (String c d, n)).
    simpl. now rewrite IH.
Qed.

(** A path names its directory and its entry in one way only. *)
Lemma child_inj d n d' n' :
  Strings.contains_byte Separator n = false ->
  Strings.contains_byte Separator n' = false ->
  d +:+ "/" +:+ n = d' +:+ "/" +:+ n' -> d = d' /\ n = n'.
Proof.
  intros Hn Hn' H.
  pose proof (split_last_child d n Hn) as H1.
  pose proof (split_last_child d' n' Hn') as H2.
  rewrite H in H1. rewrite H1 in H2. now inversion H2.
Qed.

Lemma Join_child d n : d <> "" -> n <> "" -> Join [d; n] = d +:+ "/" +:+ n.
Proof.
  intros Hd Hn. unfold Join.
  rewrite filter_cons_True by exact Hd.
  rewrite filter_cons_True by exact Hn.
  rewrite filter_nil. reflexivity.
Qed.

Lemma Join_child_empty n : n <> "" -> Join [""; n] = n.
Proof.
  intros Hn. unfold Join.
  rewrite filter_cons_False by (intros H; now apply H).
  rewrite filter_cons_True by exact Hn.
  rewrite filter_nil. reflexivity.
Qed.

Lemma elem_of_insert_by {A} (le : A -> A -> bool) x a l :
  x ∈ insert_by le a l <-> x = a \/ x ∈ l.
Proof.
  induction l as [|y l IH]; simpl.
  - rewrite list_elem_of_singleton. split; [auto|].
    intros [H|H]; [exact H|]. now apply elem_of_nil in H.
  - destruct (le a y).
    + now rewrite elem_of_cons.
    + rewrite !elem_of_cons, IH. tauto.
Qed.

Lemma elem_of_sort_by {A} (le : A -> A -> bool) x l :
  x ∈ sort_by le l <-> x ∈ l.
Proof.
  unfold sort_by. induction l as [|y l IH]; simpl; [reflexivity|].
  rewrite elem_of_insert_by, elem_of_cons, IH. reflexivity.
Qed.

(** What [entries] lists: the direct entries of the directory, each with
    its kind. *)
Lemma elem_of_entries f d e :
  e ∈ entries f d <->
  exists nd, f !! (d +:+ "/" +:+ de_name e) = Some nd /\
             plain (de_name e) /\
             de_isdir e = bool_decide (nd = DirNode).
Proof.
  unfold entries. rewrite elem_of_sort_by, list_elem_of_omap. split.
  - intros [[k nd] [Hin He]]. apply elem_of_map_to_list in Hin. simpl in He.
    destruct (entry_name d k) as [n|] eqn:En; [|discriminate].
    inversion He; subst; simpl. apply entry_name_Some in En as [-> Hp].
    exists nd. auto.
  - intros [nd (Hl & Hp & Hd)].
    exists (d +:+ "/" +:+ de_name e, nd). split.
    + now apply elem_of_map_to_list.
    + simpl.
      assert (En : entry_name d (d +:+ "/" +:+ de_name e) = Some (de_name e))
        by now apply entry_name_Some.
      rewrite En. destruct e as [n b]. simpl in *. now rewrite Hd.
Qed.

End PathFacts.

(** ** Importing corpus entries *)

Section ImportFacts.

Import Corpus.

Lemma copyPhase_subseteq m t src w : fs w ⊆ fs (copyPhase m t src w).2.
Proof.
  unfold copyPhase.
  pose proof (GetTargetDir_subseteq m t w) as H1.
  destruct (GetTargetDir m t w) as [[targetDir m1] w1]. simpl in H1.
  pose proof (ReadDir_fs src w1) as H2.
  destruct (ReadDir src w1) as [[err|ents] w2]; simpl in *.
  - now rewrite H2.
  - pose proof (importEntries_subseteq targetDir src ents w2) as H3.
    destruct (importEntries targetDir src ents w2) as [err w3]; simpl in *.
    etransitivity; [exact H1|]. now rewrite <- H2.
Qed.

Lemma copyPhase_manager m t src w :
  (copyPhase m t src w).1.2 = (GetTargetDir m t w).1.2.
Proof.
  unfold copyPhase. destruct (GetTargetDir m t w) as [[targetDir m1] w1].
  destruct (ReadDir src w1) as [[err|ents] w2]; simpl; [reflexivity|].
  now destruct (importEntries targetDir src ents w2).
Qed.

(** Under [copy_only] the import returns what its copy phase returns and
    leaves the manager and the file system as the copy phase leaves them. *)
Lemma import_is_copyPhase env m t src w :
  copy_only env m ->
  (ImportNewCorpusEntries env m t src w).1 = (copyPhase m t src w).1 /\
  fs (ImportNewCorpusEntries env m t src w).2 = fs (copyPhase m t src w).2.
Proof.
  intros Hco. unfold ImportNewCorpusEntries, copyPhase.
  pose proof (GetTargetDir_strategy m t w) as Hm.
  pose proof (GetTargetDir_caches m t w) as Hc.
  destruct (GetTargetDir m t w) as [[targetDir m1] w1]. simpl in Hm, Hc.
  destruct (ReadDir src w1) as [[err|ents] w2]; simpl; [auto|].
  destruct (importEntries targetDir src ents w2) as [[err|] w3]; simpl;
    [auto|].
  destruct (bool_decide_reflect (Minimization m1 = CoverageMinimization))
    as [Hcov|Hcov]; simpl; [|auto].
  destruct Hco as [Hno|Hq]; [congruence|].
  unfold Minimize. rewrite Hcov. simpl.
  rewrite (GetTargetDir_cached m1 t w3 targetDir Hc). simpl.
  rewrite Hq. simpl. auto.
Qed.

(** What [Minimize] returns under the strategy ["coverage"]: the exit
    status of the minimizer decides. *)
Lemma Minimize_exit env m t w :
  Minimization m = CoverageMinimization ->
  (Minimize env m t w).1.1 =
  (let '(targetDir, _, w1) := GetTargetDir m t w in
   if (run_minimize env (Discovery.Name t) (Discovery.Package t) targetDir
         (fs w1)).2
   then None else Some (Wrap "minimization failed" ExitError)).
Proof.
  intros Hcov. unfold Minimize. rewrite Hcov. simpl.
  destruct (GetTargetDir m t w) as [[targetDir m1] w1]. simpl.
  destruct (run_minimize env _ _ targetDir (fs w1)) as [f ok].
  now destruct ok.
Qed.

(** Under the strategy ["coverage"] an import whose copy phase succeeded
    ends with the minimization, and returns its failure. *)
Lemma import_under_coverage env m t src w :
  Minimization m = CoverageMinimization ->
  (copyPhase m t src w).1.1 = None ->
  ImportNewCorpusEntries env m t src w =
  (let '(_, mc, wc) := copyPhase m t src w in
   match Minimize env mc t wc with
   | (Some err, m2, w2) =>
       (Some (Wrap "corpus minimization failed" err), m2, w2)
   | (None, m2, w2) => (None, m2, w2)
   end).
Proof.
  intros Hcov. unfold ImportNewCorpusEntries, copyPhase.
  pose proof (GetTargetDir_strategy m t w) as Hm.
  destruct (GetTargetDir m t w) as [[targetDir m1] w1]. simpl in Hm.
  destruct (ReadDir src w1) as [[err|ents] w2]; simpl; [discriminate|].
  destruct (importEntries targetDir src ents w2) as [[err|] w3]; simpl;
    [discriminate|].
  intros _. rewrite Hm, Hcov. reflexivity.
Qed.

(** With a minimizer that fails, no import under ["coverage"] succeeds. *)
Lemma import_failing_minimizer env m t src w :
  Minimization m = CoverageMinimization -> minimizer_fails env ->
  (ImportNewCorpusEntries env m t src w).1.1 <> None.
Proof.
  intros Hcov Hfail.
  destruct ((copyPhase m t src w).1.1) as [err|] eqn:Hcp.
  - unfold ImportNewCorpusEntries. revert Hcp. unfold copyPhase.
    destruct (GetTargetDir m t w) as [[targetDir m1] w1].
    destruct (ReadDir src w1) as [[e|ents] w2]; simpl; [discriminate|].
    destruct (importEntries targetDir src ents w2) as [[e|] w3]; simpl;
      discriminate.
  - rewrite (import_under_coverage env m t src w Hcov Hcp).
    pose proof (copyPhase_manager m t src w) as Hm.
    destruct (copyPhase m t src w) as [[ec mc] wc]. simpl in Hm.
    assert (Hc : Minimization mc = CoverageMinimization)
      by (rewrite Hm, GetTargetDir_strategy; exact Hcov).
    pose proof (Minimize_exit env mc t wc Hc) as Hx.
    destruct (GetTargetDir mc t wc) as [[targetDir m1] w1].
    rewrite Hfail in Hx.
    destruct (Minimize env mc t wc) as [[[e|] m2] w2]; simpl in *;
      [discriminate|discriminate].
Qed.

(** After a loop that ran to its end, every file among the entries has
    its counterpart in the target directory. *)
Lemma importEntries_ok_exists targetDir src ents : forall w w',
  importEntries targetDir src ents w = (None, w') ->
  forall e, e ∈ ents -> de_isdir e = false ->
  path_exists (fs w') (Join [targetDir; de_name e]) = true.
Proof.
  induction ents as [|entry rest IH]; intros w w' H e He Hf.
  - now apply elem_of_nil in He.
  - simpl in H. apply elem_of_cons in He.
    destruct (de_isdir entry) eqn:Ed.
    + destruct He as [->|He]; [congruence|]. eapply IH; eauto.
    + destruct (path_exists (fs w) (Join [targetDir; de_name entry])) eqn:Ex.
      * destruct He as [->|He]; [|eapply IH; eauto].
        pose proof (importEntries_subseteq targetDir src rest
          (record (EvStat (Join [targetDir; de_name entry])) w)) as Hs.
        rewrite H in Hs. simpl in Hs.
        eapply path_exists_weaken; eauto.
      * destruct (copyFile _ _ _) as [[err|] w2] eqn:Ec; [discriminate|].
        destruct He as [->|He]; [|eapply IH; eauto].
        pose proof (importEntries_subseteq targetDir src rest w2) as Hs.
        rewrite H in Hs. simpl in Hs.
        eapply path_exists_weaken; [exact Hs|].
        eapply copyFile_ok_exists; eauto.
Qed.

Lemma copyFile_new src dst w k nd :
  fs (copyFile src dst w).2 !! k = Some nd ->
  fs w !! k = Some nd \/ k = dst.
Proof.
  destruct (decide (k = dst)) as [->|Hne]; [now right|]. left.
  revert H. unfold copyFile. simpl.
  destruct (negb (path_exists (fs w) src)); simpl; [auto|].
  destruct (_ || _); simpl; [auto|].
  destruct (<[dst:=FileNode ""]> (fs w) !! src) as [[|c]|]; simpl;
    rewrite ?lookup_insert_ne by congruence; auto.
Qed.

(** Whatever the loop adds sits in the target directory under the name of
    one of the files among the entries. *)
Lemma importEntries_new targetDir src ents : forall w k nd,
  fs (importEntries targetDir src ents w).2 !! k = Some nd ->
  fs w !! k = Some nd \/
  exists e, e ∈ ents /\ de_isdir e = false /\
            k = Join [targetDir; de_name e].
Proof.
  induction ents as [|entry rest IH]; intros w k nd H; simpl in H; [auto|].
  destruct (de_isdir entry) eqn:Ed.
  - apply IH in H as [H|(e & He & Hf & Hk)]; [auto|].
    right. exists e. rewrite elem_of_cons. auto.
  - destruct (path_exists (fs w) (Join [targetDir; de_name entry])) eqn:Ex.
    + apply IH in H as [H|(e & He & Hf & Hk)]; [auto|].
      right. exists e. rewrite elem_of_cons. auto.
    + destruct (copyFile _ _ _) as [[err|] w2] eqn:Ec; simpl in H.
      * assert (H' : fs (copyFile (Join [src; de_name entry])
                       (Join [targetDir; de_name entry])
                       (record (EvStat (Join [targetDir; de_name entry])) w)).2
                     !! k = Some nd) by now rewrite Ec.
        apply copyFile_new in H' as [H'|H']; [auto|].
        right. exists entry. rewrite elem_of_cons. auto.
      * apply IH in H as [H|(e & He & Hf & Hk)].
        -- assert (H' : fs (copyFile (Join [src; de_name entry])
                       (Join [targetDir; de_name entry])
                       (record (EvStat (Join [targetDir; de_name entry])) w)).2
                     !! k = Some nd) by now rewrite Ec.
           apply copyFile_new in H' as [H'|H']; [auto|].
           right. exists entry. rewrite elem_of_cons. auto.
        -- right. exists e. rewrite elem_of_cons. auto.
Qed.

(** Where every file among the entries is already there, the loop copies
    nothing and succeeds. *)
Lemma importEntries_all_present targetDir src ents : forall w,
  (forall e, e ∈ ents -> de_isdir e = false ->
     path_exists (fs w) (Join [targetDir; de_name e]) = true) ->
  (importEntries targetDir src ents w).1 = None /\
  fs (importEntries targetDir src ents w).2 = fs w.
Proof.
  induction ents as [|entry rest IH]; intros w H; simpl; [auto|].
  destruct (de_isdir entry) eqn:Ed.
  - apply IH. intros e He. apply H. rewrite elem_of_cons. auto.
  - rewrite (H entry) by (try rewrite elem_of_cons; auto).
    apply (IH (record (EvStat (Join [targetDir; de_name entry])) w)).
    intros e He. apply H. rewrite elem_of_cons. auto.
Qed.

End ImportFacts.

Section ImportTwice.

Import Corpus.

#[local] Arguments Ascii.eqb : simpl never.

Lemma contains_separator_child d n :
  Strings.contains_byte Separator (d +:+ "/" +:+ n) = true.
Proof.
  induction d as [|c d IH].
  - reflexivity.
  - change (Ascii.eqb Separator c
            || Strings.contains_byte Separator (d +:+ "/" +:+ n) = true).
    rewrite IH. apply orb_true_r.
Qed.

(** After a copy phase that succeeded, every file the new-entries
    directory lists has its counterpart in the target directory. *)
Lemma copyPhase_ok_all_present m t src w m1 w1 :
  copyPhase m t src w = (None, m1, w1) ->
  src <> "" /\ is_dir (fs w1) src = true /\
  TargetDirs m1 !! targetKey t = Some (GetTargetDir m t w).1.1 /\
  forall e, e ∈ entries (fs w1) src -> de_isdir e = false ->
    path_exists (fs w1) (Join [(GetTargetDir m t w).1.1; de_name e]) = true.
Proof.
  unfold copyPhase. pose proof (GetTargetDir_caches m t w) as Hc.
  destruct (GetTargetDir m t w) as [[targetDir m'] wa]. simpl in *.
  unfold ReadDir. simpl.
  destruct (bool_decide_reflect (src = "")) as [Hsrc|Hsrc]; simpl;
    [discriminate|].
  destruct (is_dir (fs wa) src) eqn:Hdir; simpl; [|discriminate].
  set (wb := record (EvReadDir src) wa).
  destruct (importEntries targetDir src (entries (fs wa) src) wb)
    as [[err|] wc] eqn:Hloop; [discriminate|].
  intros H. inversion H; subst m1 w1. clear H.
  pose proof (importEntries_subseteq targetDir src (entries (fs wa) src) wb)
    as Hsub.
  rewrite Hloop in Hsub. simpl in Hsub.
  split; [exact Hsrc|]. split; [eapply is_dir_weaken; eauto|].
  split; [exact Hc|].
  intros e He Hf.
  apply elem_of_entries in He as (nd & Hl & Hp & Hk).
  assert (Hnew := importEntries_new targetDir src (entries (fs wa) src) wb
                    (src +:+ "/" +:+ de_name e) nd).
  rewrite Hloop in Hnew. specialize (Hnew Hl).
  destruct Hnew as [Hold|(e' & He' & Hf' & Hk')].
  - eapply (importEntries_ok_exists _ _ _ _ _ Hloop e); [|exact Hf].
    apply elem_of_entries. exists nd. auto.
  - apply elem_of_entries in He' as (nd' & _ & [Hne' Hp'] & _).
    destruct (decide (targetDir = "")) as [->|Ht].
    + rewrite Join_child_empty in Hk' by exact Hne'.
      pose proof (contains_separator_child src (de_name e)) as Hs.
      rewrite Hk' in Hs. congruence.
    + rewrite Join_child in Hk' by assumption.
      apply child_inj in Hk' as [-> Hn]; [|apply Hp|exact Hp'].
      rewrite Join_child by (try apply Hp; assumption).
      unfold path_exists. rewrite Hl. apply orb_true_r.
Qed.

(** C6, as stated, fails under the strategy the engine uses: with
    ["coverage"] every import ends with a run of the external minimizer,
    and when that exits non-zero the second import of a directory returns
    an error although the first succeeded and every entry was skipped. *)
Lemma import_twice_counterexample :
  let m := mkCorpusManager "corpus" ∅ CoverageMinimization in
  let '(err1, m1, w1) :=
    ImportNewCorpusEntries once_minimizer m import_target "in1"
      import_world in
  let '(err2, m2, w2) :=
    ImportNewCorpusEntries once_minimizer m1 import_target "in1" w1 in
  err1 = None /\
  fs w1 !! seed_path = Some (FileNode "AAA") /\
  fs w2 = fs w1 /\
  err2 = Some (Wrap "corpus minimization failed"
                 (Wrap "minimization failed" ExitError)).
Proof. vm_compute. repeat split. Qed.

(** C6, amended: when the strategy is not ["coverage"], or the minimizer
    the import runs exits with status zero and touches nothing, importing
    a directory again after an import of it that succeeded returns no
    error and leaves the manager and the whole file system, and so the
    file set of the corpus directory, exactly as the first import left
    them. *)
Theorem import_twice_idempotent
    (env : Env) (m m1 : CorpusManager) (t : Discovery.Target)
    (src : string) (w w1 : World) :
  copy_only env m ->
  ImportNewCorpusEntries env m t src w = (None, m1, w1) ->
  let '(err2, m2, w2) := ImportNewCorpusEntries env m1 t src w1 in
  err2 = None /\ m2 = m1 /\ fs w2 = fs w1.
Proof.
  intros Hco H1.
  destruct (import_is_copyPhase env m t src w Hco) as [Ha Hb].
  rewrite H1 in Ha, Hb. simpl in Ha, Hb.
  destruct (copyPhase m t src w) as [[err' m'] wc] eqn:Hcp.
  simpl in Ha, Hb. inversion Ha; subst err' m'. clear Ha.
  destruct (copyPhase_ok_all_present _ _ _ _ _ _ Hcp)
    as (Hsrc & Hdir & Hc & Hall).
  set (targetDir := (GetTargetDir m t w).1.1) in *.
  assert (Hco1 : copy_only env m1).
  { destruct Hco as [Hno|Hq]; [left|now right].
    pose proof (copyPhase_manager m t src w) as Hm. rewrite Hcp in Hm.
    simpl in Hm. rewrite Hm, GetTargetDir_strategy. exact Hno. }
  destruct (import_is_copyPhase env m1 t src w1 Hco1) as [Ha2 Hb2].
  assert (Hcp2 : (copyPhase m1 t src w1).1 = (None, m1) /\
                 fs (copyPhase m1 t src w1).2 = fs w1).
  { rewrite <- Hb in Hdir, Hall. unfold copyPhase.
    rewrite (GetTargetDir_cached m1 t w1 targetDir Hc).
    unfold ReadDir. simpl.
    rewrite bool_decide_eq_false_2 by exact Hsrc. simpl.
    rewrite Hdir.
    pose proof (importEntries_all_present targetDir src
                  (entries (fs w1) src) (record (EvReadDir src) w1) Hall)
      as Hp.
    destruct (importEntries targetDir src (entries (fs w1) src)
                (record (EvReadDir src) w1)) as [err w3].
    simpl in *. destruct Hp as [-> ->]. auto. }
  destruct Hcp2 as [Hc1 Hc2].
  destruct (ImportNewCorpusEntries env m1 t src w1) as [[err2 m2] w2].
  simpl in *. rewrite Hc1 in Ha2. inversion Ha2; subst.
  repeat split. congruence.
Qed.

(** The amended statement on a directory with one seed, imported twice
    under the strategy ["none"]. *)
Lemma import_twice_idempotent_witness :
  let m := mkCorpusManager "corpus" ∅ NoMinimization in
  let r1 := ImportNewCorpusEntries failing_minimizer m import_target "in1"
              import_world in
  let r2 := ImportNewCorpusEntries failing_minimizer r1.1.2 import_target
              "in1" r1.2 in
  r1.1.1 = None /\
  fs r1.2 !! seed_path = Some (FileNode "AAA") /\
  r2.1.1 = None /\ r2.1.2 = r1.1.2 /\ fs r2.2 = fs r1.2.
Proof.
  intros m r1 r2.
  assert (Hco : copy_only failing_minimizer m) by (left; discriminate).
  assert (H1 : ImportNewCorpusEntries failing_minimizer m import_target "in1"
                 import_world = (None, r1.1.2, r1.2))
    by (vm_compute; reflexivity).
  pose proof (import_twice_idempotent failing_minimizer m r1.1.2
                import_target "in1" import_world r1.2 Hco H1) as H2.
  fold r2 in H2. destruct r2 as [[err2 m2] w2]. simpl.
  destruct H2 as (He & Hm & Hf).
  split; [vm_compute; reflexivity|].
  split; [vm_compute; reflexivity|].
  auto.
Defined.

End ImportTwice.

Section ImportCollision.

Import Corpus.

Lemma Join_last_inj d n n' :
  n <> "" -> n' <> "" -> Join [d; n] = Join [d; n'] -> n = n'.
Proof.
  intros Hn Hn'. destruct (decide (d = "")) as [->|Hd].
  - now rewrite !Join_child_empty by assumption.
  - rewrite !Join_child by assumption. intros H.
    apply append_cancel in H. now inversion H.
Qed.

Lemma copyFile_ok_content src dst w w' c :
  copyFile src dst w = (None, w') ->
  fs w !! src = Some (FileNode c) -> src <> dst ->
  fs w' !! dst = Some (FileNode c).
Proof.
  unfold copyFile. simpl. intros H Hsrc Hne. revert H.
  destruct (negb (path_exists (fs w) src)); simpl; [discriminate|].
  destruct (_ || _); simpl; [discriminate|].
  rewrite lookup_insert_ne by congruence. rewrite Hsrc.
  intros H. inversion H; subst; simpl. apply lookup_insert_eq.
Qed.

(** A file among the entries whose name is new to the target directory is
    there, with its bytes, once the loop has run to its end. *)
Lemma importEntries_copies targetDir src ents : forall w w' e c,
  importEntries targetDir src ents w = (None, w') ->
  e ∈ ents -> de_isdir e = false -> de_name e <> "" ->
  (forall e', e' ∈ ents -> de_name e' <> "") ->
  path_exists (fs w) (Join [targetDir; de_name e]) = false ->
  fs w !! Join [src; de_name e] = Some (FileNode c) ->
  fs w' !! Join [targetDir; de_name e] = Some (FileNode c).
Proof.
  induction ents as [|h rest IH]; intros w w' e c H He Hf Hn Hall Hex Hsrc.
  - now apply elem_of_nil in He.
  - assert (Hall' : forall e', e' ∈ rest -> de_name e' <> "")
      by (intros e' He'; apply Hall; rewrite elem_of_cons; auto).
    simpl in H. apply elem_of_cons in He.
    destruct (de_isdir h) eqn:Ed.
    { destruct He as [->|He]; [congruence|]. eapply IH; eauto. }
    destruct (path_exists (fs w) (Join [targetDir; de_name h])) eqn:Ex.
    { destruct He as [->|He]; [congruence|]. eapply IH; eauto. }
    destruct (copyFile _ _ _) as [[err|] w2] eqn:Ec; [discriminate|].
    pose proof (copyFile_subseteq (Join [src; de_name h])
                  (Join [targetDir; de_name h])
                  (record (EvStat (Join [targetDir; de_name h])) w) Ex) as Hs.
    rewrite Ec in Hs. simpl in Hs.
    destruct (decide (Join [targetDir; de_name h] = Join [targetDir; de_name e]))
      as [Heq|Hne].
    + assert (Hnm : de_name h = de_name e).
      { eapply Join_last_inj; [| |exact Heq]; [|exact Hn].
        apply Hall. rewrite elem_of_cons. auto. }
      rewrite Hnm in Ec.
      assert (Hd : Join [src; de_name e] <> Join [targetDir; de_name e]).
      { intros Hd. rewrite Hd in Hsrc. apply path_exists_false in Hex.
        congruence. }
      pose proof (copyFile_ok_content _ _ _ _ c Ec Hsrc Hd) as Hc.
      pose proof (importEntries_subseteq targetDir src rest w2) as Hs2.
      rewrite H in Hs2. simpl in Hs2.
      eapply lookup_weaken; eauto.
    + destruct He as [->|He]; [congruence|].
      eapply (IH w2 w' e c); eauto.
      * unfold path_exists in *.
        apply orb_false_iff in Hex as [Hi Hl]. rewrite Hi. simpl.
        destruct (fs w2 !! Join [targetDir; de_name e]) as [nd|] eqn:El;
          [|reflexivity].
        assert (H' : fs (copyFile (Join [src; de_name h])
                       (Join [targetDir; de_name h])
                       (record (EvStat (Join [targetDir; de_name h])) w)).2
                     !! Join [targetDir; de_name e] = Some nd)
          by now rewrite Ec.
        apply copyFile_new in H' as [H'|H']; [|congruence].
        simpl in H'. now rewrite H' in Hl.
      * eapply lookup_weaken; eauto.
Qed.

End ImportCollision.

Section ImportNameCollision.

Import Corpus.

(** C5, as stated, fails under the strategy the engine uses: the second
    content is skipped and the first stays, but the import that skipped
    it ends with a run of the external minimizer and reports its non-zero
    exit as an error. *)
Lemma import_collision_counterexample :
  let m := mkCorpusManager "corpus" ∅ CoverageMinimization in
  let '(err1, m1, w1) :=
    ImportNewCorpusEntries once_minimizer m import_target "in1"
      import_world in
  let '(err2, m2, w2) :=
    ImportNewCorpusEntries once_minimizer m1 import_target "in2" w1 in
  err1 = None /\
  fs w1 !! seed_path = Some (FileNode "AAA") /\
  fs w1 !! "in2/seed" = Some (FileNode "BBB") /\
  fs w2 !! seed_path = Some (FileNode "AAA") /\
  err2 = Some (Wrap "corpus minimization failed"
                 (Wrap "minimization failed" ExitError)).
Proof. vm_compute. repeat split. Qed.

(** C5, amended: when the strategy is not ["coverage"], or the minimizer
    the import runs exits with status zero and touches nothing, an import
    that succeeds puts the bytes a source file offers under a name new to
    the target's directory there; the next import into that directory
    leaves those bytes untouched, whatever its source offers under the
    same name, and where that source offers files under that name only,
    it returns no error and changes nothing at all.  Under any strategy
    the copy loop of an import leaves the bytes a name holds in the
    target's directory untouched, and where the source offers files under
    that name only, it raises no error and changes nothing.  Under
    ["coverage"] the import then ends with a run of the minimizer, and
    returns its failure, which is a non-zero exit of that run, as its own
    error. *)
Theorem import_name_collision :
  (forall (env : Env) (m m1 : CorpusManager) (t : Discovery.Target)
          (src1 name c1 : string) (w w1 : World),
     copy_only env m ->
     plain name ->
     fs w !! (src1 +:+ "/" +:+ name) = Some (FileNode c1) ->
     (let '(targetDir, _, wr) := GetTargetDir m t w in
      path_exists (fs wr) (Join [targetDir; name]) = false) ->
     ImportNewCorpusEntries env m t src1 w = (None, m1, w1) ->
     let targetDir := (GetTargetDir m t w).1.1 in
     fs w1 !! Join [targetDir; name] = Some (FileNode c1) /\
     forall src2 : string,
       let '(err2, m2, w2) := ImportNewCorpusEntries env m1 t src2 w1 in
       fs w2 !! Join [targetDir; name] = Some (FileNode c1) /\
       (src2 <> "" -> is_dir (fs w1) src2 = true ->
        (forall e, e ∈ entries (fs w1) src2 -> de_isdir e = false ->
                   de_name e = name) ->
        err2 = None /\ m2 = m1 /\ fs w2 = fs w1)) /\
  (forall (env : Env) (m1 : CorpusManager) (t : Discovery.Target)
          (src2 name c1 : string) (w1 : World),
     let targetDir := (GetTargetDir m1 t w1).1.1 in
     let wr := (GetTargetDir m1 t w1).2 in
     fs wr !! Join [targetDir; name] = Some (FileNode c1) ->
     fs (copyPhase m1 t src2 w1).2 !! Join [targetDir; name]
     = Some (FileNode c1) /\
     (src2 <> "" -> is_dir (fs wr) src2 = true ->
      (forall e, e ∈ entries (fs wr) src2 -> de_isdir e = false ->
                 de_name e = name) ->
      (copyPhase m1 t src2 w1).1.1 = None /\
      fs (copyPhase m1 t src2 w1).2 = fs wr) /\
     (Minimization m1 = CoverageMinimization ->
      (copyPhase m1 t src2 w1).1.1 = None ->
      ImportNewCorpusEntries env m1 t src2 w1 =
      (let '(_, mc, wc) := copyPhase m1 t src2 w1 in
       match Minimize env mc t wc with
       | (Some err, m2, w2) =>
           (Some (Wrap "corpus minimization failed" err), m2, w2)
       | (None, m2, w2) => (None, m2, w2)
       end) /\
      (let '(_, mc, wc) := copyPhase m1 t src2 w1 in
       (Minimize env mc t wc).1.1 =
       (let '(dir, _, wm) := GetTargetDir mc t wc in
        if (run_minimize env (Discovery.Name t) (Discovery.Package t) dir
              (fs wm)).2
        then None else Some (Wrap "minimization failed" ExitError))) /\
      (minimizer_fails env ->
       (ImportNewCorpusEntries env m1 t src2 w1).1.1
       = Some (Wrap "corpus minimization failed"
                 (Wrap "minimization failed" ExitError))))).
Proof.
  split.
  { intros env m m1 t src1 name c1 w w1.
  intros Hco Hplain Hsrc Hfresh H1 targetDir.
  destruct (import_is_copyPhase env m t src1 w Hco) as [Ha Hb].
  rewrite H1 in Ha, Hb. simpl in Ha, Hb.
  destruct (copyPhase m t src1 w) as [[err' m'] wc] eqn:Hcp.
  simpl in Ha, Hb. inversion Ha; subst err' m'. clear Ha.
  destruct (copyPhase_ok_all_present _ _ _ _ _ _ Hcp)
    as (Hsrc1 & _ & Hc & _).
  fold targetDir in Hc.
  assert (Hfirst : fs w1 !! Join [targetDir; name] = Some (FileNode c1)).
  { rewrite Hb. revert Hcp. unfold copyPhase. subst targetDir.
    pose proof (GetTargetDir_subseteq m t w) as Hsub.
    destruct (GetTargetDir m t w) as [[td m'] wa]. simpl in *.
    unfold ReadDir. simpl.
    rewrite bool_decide_eq_false_2 by exact Hsrc1. simpl.
    destruct (is_dir (fs wa) src1); simpl; [|discriminate].
    destruct (importEntries td src1 (entries (fs wa) src1)
                (record (EvReadDir src1) wa)) as [[err|] w3] eqn:Hloop;
      [discriminate|].
    intros H. inversion H; subst. clear H.
    apply (importEntries_copies td src1 (entries (fs wa) src1)
             (record (EvReadDir src1) wa) wc
             {| de_name := name; de_isdir := false |} c1 Hloop).
    - apply elem_of_entries. exists (FileNode c1). simpl.
      split; [eapply lookup_weaken; eauto|]. split; [exact Hplain|].
      reflexivity.
    - reflexivity.
    - apply Hplain.
    - intros e' He'. apply elem_of_entries in He' as (? & _ & [? _] & _).
      assumption.
    - exact Hfresh.
    - simpl. rewrite Join_child by (try apply Hplain; assumption).
      eapply lookup_weaken; eauto. }
  split; [exact Hfirst|].
  intros src2.
  assert (Hco1 : copy_only env m1).
  { destruct Hco as [Hno|Hq]; [left|now right].
    pose proof (copyPhase_manager m t src1 w) as Hm. rewrite Hcp in Hm.
    simpl in Hm. rewrite Hm, GetTargetDir_strategy. exact Hno. }
  destruct (import_is_copyPhase env m1 t src2 w1 Hco1) as [Ha2 Hb2].
  pose proof (copyPhase_subseteq m1 t src2 w1) as Hsub2.
  assert (Hcp2 : src2 <> "" -> is_dir (fs w1) src2 = true ->
     (forall e, e ∈ entries (fs w1) src2 -> de_isdir e = false ->
                de_name e = name) ->
     (copyPhase m1 t src2 w1).1 = (None, m1) /\
     fs (copyPhase m1 t src2 w1).2 = fs w1).
  { intros Hs2 Hd2 Hnames. unfold copyPhase.
    rewrite (GetTargetDir_cached m1 t w1 targetDir Hc).
    unfold ReadDir. simpl.
    rewrite bool_decide_eq_false_2 by exact Hs2. simpl. rewrite Hd2.
    assert (Hall : forall e, e ∈ entries (fs w1) src2 -> de_isdir e = false ->
              path_exists (fs (record (EvReadDir src2) w1))
                (Join [targetDir; de_name e]) = true).
    { intros e He Hf. rewrite (Hnames e He Hf). simpl.
      unfold path_exists. rewrite Hfirst. apply orb_true_r. }
    pose proof (importEntries_all_present targetDir src2
                  (entries (fs w1) src2) (record (EvReadDir src2) w1) Hall)
      as Hp.
    destruct (importEntries targetDir src2 (entries (fs w1) src2)
                (record (EvReadDir src2) w1)) as [err w3].
    simpl in *. destruct Hp as [-> ->]. auto. }
  destruct (ImportNewCorpusEntries env m1 t src2 w1) as [[err2 m2] w2].
  simpl in *. split.
  - rewrite Hb2. eapply lookup_weaken; eauto.
  - intros Hs2 Hd2 Hnames.
    destruct (Hcp2 Hs2 Hd2 Hnames) as [Hc1 Hc2].
    rewrite Hc1 in Ha2. inversion Ha2; subst. repeat split. congruence. }
  intros env m1 t src2 name c1 w1 targetDir wr Hthere.
  assert (Hkeep : fs (copyPhase m1 t src2 w1).2 !! Join [targetDir; name]
                  = Some (FileNode c1)).
  { revert Hthere. subst targetDir wr. unfold copyPhase.
    destruct (GetTargetDir m1 t w1) as [[td m'] wa]. simpl. intros Hthere.
    pose proof (ReadDir_fs src2 wa) as H2.
    destruct (ReadDir src2 wa) as [[err|ents] w2]; simpl in *.
    - now rewrite H2.
    - pose proof (importEntries_subseteq td src2 ents w2) as H3.
      destruct (importEntries td src2 ents w2) as [err w3]; simpl in *.
      eapply lookup_weaken; [|exact H3]. now rewrite H2. }
  split; [exact Hkeep|]. split.
  { intros Hs2 Hd2 Hnames. revert Hthere Hd2 Hnames. subst targetDir wr.
    unfold copyPhase.
    destruct (GetTargetDir m1 t w1) as [[td m'] wa]. simpl.
    intros Hthere Hd2 Hnames.
    unfold ReadDir. simpl.
    rewrite bool_decide_eq_false_2 by exact Hs2. simpl. rewrite Hd2.
    assert (Hall : forall e, e ∈ entries (fs wa) src2 -> de_isdir e = false ->
              path_exists (fs (record (EvReadDir src2) wa))
                (Join [td; de_name e]) = true).
    { intros e He Hf. rewrite (Hnames e He Hf). simpl.
      unfold path_exists. rewrite Hthere. apply orb_true_r. }
    pose proof (importEntries_all_present td src2
                  (entries (fs wa) src2) (record (EvReadDir src2) wa) Hall)
      as Hp.
    destruct (importEntries td src2 (entries (fs wa) src2)
                (record (EvReadDir src2) wa)) as [err w3].
    simpl in *. destruct Hp as [-> ->]. auto. }
  intros Hcov Hok.
  pose proof (import_under_coverage env m1 t src2 w1 Hcov Hok) as Himp.
  split; [exact Himp|].
  pose proof (copyPhase_manager m1 t src2 w1) as Hm.
  destruct (copyPhase m1 t src2 w1) as [[ec mc] wc] eqn:Hcp. simpl in Hm.
  assert (Hc : Minimization mc = CoverageMinimization)
    by (rewrite Hm, GetTargetDir_strategy; exact Hcov).
  pose proof (Minimize_exit env mc t wc Hc) as Hx.
  split; [exact Hx|].
  intros Hfail. rewrite Himp.
  destruct (GetTargetDir mc t wc) as [[dir m2] wm].
  rewrite Hfail in Hx.
  destruct (Minimize env mc t wc) as [[[e|] m3] w3]; simpl in *;
    [|discriminate].
  now inversion Hx.
Qed.

(** The amended statement on the two seeds: ["AAA"] is imported first,
    ["BBB"] is offered under the same name next, under the strategy
    ["none"]; and then once more under ["coverage"], with a minimizer that
    fails. *)
Lemma import_name_collision_witness :
  let m := mkCorpusManager "corpus" ∅ NoMinimization in
  let r1 := ImportNewCorpusEntries once_minimizer m import_target "in1"
              import_world in
  let r2 := ImportNewCorpusEntries once_minimizer r1.1.2 import_target
              "in2" r1.2 in
  let mc := mkCorpusManager "corpus" (TargetDirs r1.1.2)
              CoverageMinimization in
  let r3 := ImportNewCorpusEntries failing_minimizer mc import_target
              "in2" r1.2 in
  fs r1.2 !! seed_path = Some (FileNode "AAA") /\
  fs r1.2 !! "in2/seed" = Some (FileNode "BBB") /\
  fs r2.2 !! seed_path = Some (FileNode "AAA") /\
  r2.1.1 = None /\ fs r2.2 = fs r1.2 /\
  fs (copyPhase mc import_target "in2" r1.2).2 !! seed_path
  = Some (FileNode "AAA") /\
  r3.1.1 = Some (Wrap "corpus minimization failed"
                   (Wrap "minimization failed" ExitError)).
Proof.
  intros m r1 r2 mc r3.
  assert (Hco : copy_only once_minimizer m) by (left; discriminate).
  assert (Hplain : plain "seed") by (split; [discriminate|reflexivity]).
  assert (Hsrc : fs import_world !! ("in1" +:+ "/" +:+ "seed")
                 = Some (FileNode "AAA")) by (vm_compute; reflexivity).
  assert (Hfresh : let '(targetDir, _, wr) :=
                     GetTargetDir m import_target import_world in
                   path_exists (fs wr) (Join [targetDir; "seed"]) = false)
    by (vm_compute; reflexivity).
  assert (H1 : ImportNewCorpusEntries once_minimizer m import_target "in1"
                 import_world = (None, r1.1.2, r1.2))
    by (vm_compute; reflexivity).
  destruct import_name_collision as [Hnone Hany].
  destruct (Hnone once_minimizer m r1.1.2 import_target
              "in1" "seed" "AAA" import_world r1.2 Hco Hplain Hsrc Hfresh H1)
    as [Hfirst Hsecond].
  specialize (Hsecond "in2"). fold r2 in Hsecond.
  destruct r2 as [[err2 m2] w2]. simpl.
  destruct Hsecond as [Hkeep Hquiet].
  split; [exact Hfirst|]. split; [vm_compute; reflexivity|].
  split; [exact Hkeep|].
  assert (Hd : is_dir (fs r1.2) "in2" = true) by (vm_compute; reflexivity).
  assert (Hn : forall e, e ∈ entries (fs r1.2) "in2" -> de_isdir e = false ->
                 de_name e = "seed").
  { intros e He _.
    assert (Hl : entries (fs r1.2) "in2"
                 = [ {| de_name := "seed"; de_isdir := false |} ])
      by (vm_compute; reflexivity).
    rewrite Hl in He. apply list_elem_of_singleton in He. now subst. }
  destruct (Hquiet ltac:(discriminate) Hd Hn) as (He & _ & Hf).
  split; [exact He|]. split; [exact Hf|].
  assert (Hthere : fs (GetTargetDir mc import_target r1.2).2
                     !! Join [(GetTargetDir mc import_target r1.2).1.1; "seed"]
                   = Some (FileNode "AAA")) by (vm_compute; reflexivity).
  destruct (Hany failing_minimizer mc import_target "in2" "seed" "AAA" r1.2
              Hthere) as (Hk & _ & Hcovr).
  split; [exact Hk|].
  assert (Hcp : (copyPhase mc import_target "in2" r1.2).1.1 = None)
    by (vm_compute; reflexivity).
  destruct (Hcovr eq_refl Hcp) as (_ & _ & Hfails).
  assert (Hmf : minimizer_fails failing_minimizer)
    by (intros ? ? ? ?; reflexivity).
  exact (Hfails Hmf).
Defined.

End ImportNameCollision.

(** ** The trace does not steer the program *)

Section TraceIrrelevance.

Import Corpus.

Lemma MkdirAll_agree p w w' :
  fs w = fs w' -> agree (MkdirAll p w) (MkdirAll p w').
Proof.
  intros H. unfold agree, MkdirAll. simpl. rewrite H.
  now destruct (mkdir_chain (ancestors p) (fs w')).
Qed.

Lemma ReadDir_agree d w w' :
  fs w = fs w' -> agree (ReadDir d w) (ReadDir d w').
Proof.
  intros H. unfold agree, ReadDir. simpl. rewrite H.
  now destruct (_ && _).
Qed.

Lemma GlobAll_fs d w : fs (GlobAll d w).2 = fs w.
Proof. unfold GlobAll. simpl. now destruct (is_dir _ _). Qed.

Lemma copyFile_agree src dst w w' :
  fs w = fs w' -> agree (copyFile src dst w) (copyFile src dst w').
Proof.
  intros H. unfold agree, copyFile. simpl. rewrite H.
  destruct (negb (path_exists (fs w') src)); simpl; [auto|].
  destruct (_ || _); simpl; [auto|].
  now destruct (<[dst:=FileNode ""]> (fs w') !! src) as [[|c]|].
Qed.

Lemma importEntries_agree targetDir src ents : forall w w',
  fs w = fs w' ->
  agree (importEntries targetDir src ents w)
        (importEntries targetDir src ents w').
Proof.
  induction ents as [|entry rest IH]; intros w w' H; simpl.
  - now split.
  - destruct (de_isdir entry); [now apply IH|].
    rewrite H.
    destruct (path_exists (fs w') (Join [targetDir; de_name entry])).
    + now apply IH.
    + pose proof (copyFile_agree (Join [src; de_name entry])
                    (Join [targetDir; de_name entry])
                    (record (EvStat (Join [targetDir; de_name entry])) w)
                    (record (EvStat (Join [targetDir; de_name entry])) w') H)
        as [Hc1 Hc2].
      destruct (copyFile _ _ (record _ w)) as [o1 w1].
      destruct (copyFile _ _ (record _ w')) as [o2 w2].
      simpl in *. subst o2. destruct o1; [now split|]. now apply IH.
Qed.

Lemma GetTargetDir_agree m t w w' :
  fs w = fs w' -> agree (GetTargetDir m t w) (GetTargetDir m t w').
Proof.
  intros H. unfold agree, GetTargetDir.
  destruct (TargetDirs m !! targetKey t); simpl; [auto|].
  split; [reflexivity|]. now apply MkdirAll_agree.
Qed.

Lemma Minimize_agree env m t w w' :
  fs w = fs w' -> agree (Minimize env m t w) (Minimize env m t w').
Proof.
  intros H. unfold Minimize.
  destruct (bool_decide (Minimization m = NoMinimization)); [now split|].
  destruct (GetTargetDir_agree m t w w' H) as [H1 H2].
  destruct (GetTargetDir m t w) as [[d1 m1] w1].
  destruct (GetTargetDir m t w') as [[d2 m2] w2].
  simpl in *. inversion H1; subst. rewrite H2.
  destruct (run_minimize env _ _ _ _) as [f ok]. now destruct ok.
Qed.

Lemma ImportNewCorpusEntries_agree env m t src w w' :
  fs w = fs w' ->
  agree (ImportNewCorpusEntries env m t src w)
        (ImportNewCorpusEntries env m t src w').
Proof.
  intros H. unfold ImportNewCorpusEntries.
  destruct (GetTargetDir_agree m t w w' H) as [H1 H2].
  destruct (GetTargetDir m t w) as [[d1 m1] w1].
  destruct (GetTargetDir m t w') as [[d2 m2] w2].
  simpl in *. inversion H1; subst. clear H1.
  destruct (ReadDir_agree src w1 w2 H2) as [H3 H4].
  destruct (ReadDir src w1) as [r1 w3].
  destruct (ReadDir src w2) as [r2 w4].
  simpl in *. subst r2. destruct r1 as [err|ents]; [now split|].
  destruct (importEntries_agree d2 src ents w3 w4 H4) as [H5 H6].
  destruct (importEntries d2 src ents w3) as [o1 w5].
  destruct (importEntries d2 src ents w4) as [o2 w6].
  simpl in *. subst o2. destruct o1 as [err|]; [now split|].
  destruct (bool_decide (Minimization m2 = CoverageMinimization));
    [|now split].
  destruct (Minimize_agree env m2 t w5 w6 H6) as [H7 H8].
  destruct (Minimize env m2 t w5) as [[o1 m3] w7].
  destruct (Minimize env m2 t w6) as [[o2 m4] w8].
  simpl in *. inversion H7; subst. now destruct o2.
Qed.

End TraceIrrelevance.

(** ** One run of a target *)

Section RunFacts.

Import Corpus Runner.

Lemma copyVisit_agree src dst path w w' :
  fs w = fs w' -> agree (copyVisit src dst path w) (copyVisit src dst path w').
Proof.
  intros H. unfold copyVisit.
  destruct (if bool_decide (path = src) then Some "."
            else strip_prefix (src +:+ "/") path) as [rel|]; [|now split].
  set (dstPath := if bool_decide (rel = ".") then dst else Join [dst; rel]).
  destruct (MkdirAll_agree (Dir dstPath) w w' H) as [H1 H2].
  destruct (MkdirAll (Dir dstPath) w) as [o1 w1].
  destruct (MkdirAll (Dir dstPath) w') as [o2 w2].
  simpl in *. subst o2. destruct o1; [now split|].
  now apply copyFile_agree.
Qed.

Lemma walkVisit_agree src dst found : forall w w',
  fs w = fs w' -> agree (walkVisit src dst found w) (walkVisit src dst found w').
Proof.
  induction found as [|[path [|c]] rest IH]; intros w w' H; simpl.
  - now split.
  - now apply IH.
  - destruct (copyVisit_agree src dst path w w' H) as [H1 H2].
    destruct (copyVisit src dst path w) as [o1 w1].
    destruct (copyVisit src dst path w') as [o2 w2].
    simpl in *. subst o2. destruct o1; [now split|]. now apply IH.
Qed.

Lemma copyDir_agree src dst w w' :
  fs w = fs w' -> agree (copyDir src dst w) (copyDir src dst w').
Proof.
  intros H. unfold copyDir. simpl. rewrite H.
  destruct (fs w' !! src) as [[|c]|].
  - now apply walkVisit_agree.
  - now apply copyVisit_agree.
  - destruct (implicit_dir src); [now apply walkVisit_agree|now split].
Qed.

Lemma getTargetDuration_setup e1 e2 t :
  same_setup e1 e2 -> getTargetDuration e1 t = getTargetDuration e2 t.
Proof. intros (Hc & _ & _). unfold getTargetDuration. now rewrite Hc. Qed.

(** Staging depends on the setup and the file system only, and leaves the
    results alone. *)
Lemma stage_agree e e2 t tempDir w w2 :
  same_setup e e2 -> fs w = fs w2 ->
  (stage e t tempDir w).1.1 = (stage e2 t tempDir w2).1.1 /\
  same_setup (stage e t tempDir w).1.2 (stage e2 t tempDir w2).1.2 /\
  fs (stage e t tempDir w).2 = fs (stage e2 t tempDir w2).2 /\
  Results (stage e t tempDir w).1.2 = Results e.
Proof.
  intros Hs Hf. unfold stage.
  destruct Hs as (Hc & Ht & Hm). rewrite <- Hm.
  destruct (GetTargetDir_agree (CorpusManager e) t w w2 Hf) as [H1 H2].
  destruct (GetTargetDir (CorpusManager e) t w) as [[d1 m1] w1].
  destruct (GetTargetDir (CorpusManager e) t w2) as [[d2 m2] w1'].
  simpl in *. inversion H1; subst. clear H1.
  assert (Hs1 : same_setup (with_manager e m2) (with_manager e2 m2))
    by (repeat split; assumption).
  destruct (MkdirAll_agree (Join [tempDir; "corpus"]) w1 w1' H2) as [H3 H4].
  destruct (MkdirAll (Join [tempDir; "corpus"]) w1) as [o1 wa].
  destruct (MkdirAll (Join [tempDir; "corpus"]) w1') as [o2 wa'].
  simpl in *. subst o2. destruct o1; [now repeat split|].
  destruct (copyDir_agree d2 (Join [tempDir; "corpus"]) wa wa' H4) as [H5 H6].
  destruct (copyDir d2 (Join [tempDir; "corpus"]) wa) as [o1 wb].
  destruct (copyDir d2 (Join [tempDir; "corpus"]) wa') as [o2 wb'].
  simpl in *. subst o2. destruct o1; [now repeat split|].
  destruct (MkdirAll_agree (Join [tempDir; "crashers"]) wb wb' H6) as [H7 H8].
  destruct (MkdirAll (Join [tempDir; "crashers"]) wb) as [o1 wc].
  destruct (MkdirAll (Join [tempDir; "crashers"]) wb') as [o2 wc'].
  simpl in *. subst o2. destruct o1; now repeat split.
Qed.

(** A failed staging is a failed step of the orchestration. *)
Lemma stage_error e t tempDir w err e1 w1 :
  stage e t tempDir w = (Some err, e1, w1) -> orchestration_error err.
Proof.
  unfold stage, orchestration_error.
  destruct (GetTargetDir (CorpusManager e) t w) as [[d m] wa].
  destruct (MkdirAll (Join [tempDir; "corpus"]) wa) as [[c|] wb].
  { intros [= <- _ _]. exists c. auto. }
  destruct (copyDir d (Join [tempDir; "corpus"]) wb) as [[c|] wc].
  { intros [= <- _ _]. exists c. auto 6. }
  destruct (MkdirAll (Join [tempDir; "crashers"]) wc) as [[c|] wd].
  { intros [= <- _ _]. exists c. auto 6. }
  discriminate.
Qed.

End RunFacts.

Section RunTargetFacts.

Import Corpus Runner.

Lemma GlobAll_value dir w : (GlobAll dir w).1 = inr (globbed (fs w) dir).
Proof. unfold GlobAll, globbed. simpl. now destruct (is_dir (fs w) dir). Qed.

Lemma Import_with_exit ok env m t src w :
  ImportNewCorpusEntries (with_exit ok env) m t src w
  = ImportNewCorpusEntries env m t src w.
Proof. reflexivity. Qed.

Lemma classify_spec run tempDir w5 :
  (classify run tempDir w5).1.1 = (if h_ok run then "" else h_output run) /\
  (classify run tempDir w5).1.2 =
    (if h_ok run then []
     else collectCrashInputs
            (globbed (h_fs run) (Join [tempDir; "crashers"])) []) /\
  fs (classify run tempDir w5).2 = h_fs run.
Proof.
  unfold classify. destruct (h_ok run); [now repeat split|].
  pose proof (GlobAll_value (Join [tempDir; "crashers"])
                (set_fs (h_fs run) w5)) as Hv.
  pose proof (GlobAll_fs (Join [tempDir; "crashers"])
                (set_fs (h_fs run) w5)) as Hf.
  destruct (GlobAll _ _) as [[err|crashers] w']; simpl in *;
    [discriminate|].
  inversion Hv; subst. now repeat split.
Qed.

(** [runInTemp], step by step. *)
Lemma runInTemp_unfold env e t tempDir w :
  runInTemp env e t tempDir w =
  match stage e t tempDir w with
  | (Some err, e1, w4) => (inl err, e1, w4)
  | (None, e1, w4) =>
      let w5 :=
        record (EvFuzz (Discovery.Name t) (Discovery.Package t)
                  (getTargetDuration e1 t)
                  (Config.Parallelism (Config e1)) tempDir) w4 in
      let run := harnessRun env e1 t tempDir (fs w4) in
      let c := classify run tempDir w5 in
      match ImportNewCorpusEntries env (CorpusManager e1) t
              (Join [tempDir; "corpus"]) c.2 with
      | (Some err, cm2, w8) =>
          (inl (Wrap "failed to import new corpus entries" err),
           with_manager e1 cm2, w8)
      | (None, cm2, w8) =>
          (inr {| Target := t;
                  Duration := h_elapsed run;
                  Success := h_ok run;
                  ErrorMessage := c.1.1;
                  CrashInputs := c.1.2;
                  NewCorpusItems :=
                    match (ReadDir (Join [tempDir; "corpus"]) w8).1 with
                    | inr l => Z.of_nat (length l)
                    | inl _ => 0
                    end;
                  Coverage := Float64.zero |},
           with_manager e1 cm2, (ReadDir (Join [tempDir; "corpus"]) w8).2)
      end
  end.
Proof.
  unfold runInTemp, classify.
  destruct (stage e t tempDir w) as [[[err|] e1] w4]; [reflexivity|].
  simpl.
  destruct (h_ok (harnessRun env e1 t tempDir (fs w4))).
  - destruct (ImportNewCorpusEntries _ _ _ _ _) as [[[err|] cm2] w8];
      [reflexivity|].
    now destruct (ReadDir _ w8).
  - destruct (GlobAll _ _) as [[err|crashers] w'];
      (destruct (ImportNewCorpusEntries _ _ _ _ _) as [[[err'|] cm2] w8];
       [reflexivity|]); now destruct (ReadDir _ w8).
Qed.

End RunTargetFacts.

Section RunTargetOutcome.

Import Corpus Runner.

Lemma MkdirTemp_ok env dir pattern w tempDir w1 :
  MkdirTemp env dir pattern w = (inr tempDir, w1) ->
  temp_name env (fs w) = Some tempDir /\ tempDir <> "" /\
  fs w !! tempDir = None /\ fs w1 = <[tempDir := DirNode]> (fs w).
Proof.
  unfold MkdirTemp. simpl.
  destruct (temp_name env (fs w)) as [p|]; [|discriminate].
  destruct (bool_decide_reflect (p = "")) as [Hp|Hp]; simpl; [discriminate|].
  destruct (path_exists (fs w) p) eqn:Ex; simpl; [discriminate|].
  destruct (negb (is_dir (fs w) (Dir p))); simpl; [discriminate|].
  intros H. inversion H; subst. apply path_exists_false in Ex. auto.
Qed.

(** What a run that returns a result has done, and what the result
    holds. *)
Lemma RunTarget_result env e t w r e' w' :
  RunTarget env e t w = (inr r, e', w') ->
  exists tempDir w1 e1 w4,
    MkdirTemp env "" "fuzz-run-*" w = (inr tempDir, w1) /\
    tempDir <> "" /\
    stage e t tempDir w1 = (None, e1, w4) /\
    let run := harnessRun env e1 t tempDir (fs w4) in
    Target r = t /\
    Duration r = h_elapsed run /\
    Success r = h_ok run /\
    ErrorMessage r = (if h_ok run then "" else h_output run) /\
    CrashInputs r =
      (if h_ok run then []
       else collectCrashInputs
              (globbed (h_fs run) (Join [tempDir; "crashers"])) []) /\
    Coverage r = Float64.zero.
Proof.
  unfold RunTarget.
  destruct (MkdirTemp env "" "fuzz-run-*" w) as [[err|tempDir] w1] eqn:Emk;
    [discriminate|].
  rewrite runInTemp_unfold.
  destruct (stage e t tempDir w1) as [[[err|] e1] w4] eqn:Est;
    [discriminate|].
  simpl.
  match goal with
  | |- context [classify ?run ?d ?w5] =>
      pose proof (classify_spec run d w5) as (Hc1 & Hc2 & _)
  end.
  destruct (ImportNewCorpusEntries _ _ _ _ _) as [[[err|] cm2] w8];
    [discriminate|].
  intros H. inversion H; subst. clear H.
  exists tempDir, w1, e1, w4. simpl.
  apply MkdirTemp_ok in Emk as (_ & Hne & _).
  repeat split; auto.
Qed.

(** An error of [RunTarget] is a failed step of the orchestration: making
    the scratch directories, copying the corpus, importing the new
    entries. *)
Lemma RunTarget_error env e t w err e' w' :
  RunTarget env e t w = (inl err, e', w') -> orchestration_error err.
Proof.
  unfold RunTarget.
  destruct (MkdirTemp env "" "fuzz-run-*" w) as [[c|tempDir] w1] eqn:Emk.
  { intros [= <- _ _]. exists c. auto. }
  rewrite runInTemp_unfold.
  destruct (stage e t tempDir w1) as [[[c|] e1] w4] eqn:Est.
  { intros [= <- _ _]. eapply stage_error; eauto. }
  simpl.
  destruct (ImportNewCorpusEntries _ _ _ _ _) as [[[c|] cm2] w8];
    [|discriminate].
  intros [= <- _ _]. exists c. auto 6.
Qed.

(** [RunTarget] changes the engine in its corpus manager at most. *)
Lemma RunTarget_engine env e t w :
  Config (RunTarget env e t w).1.2 = Config e /\
  Targets (RunTarget env e t w).1.2 = Targets e /\
  Results (RunTarget env e t w).1.2 = Results e.
Proof.
  unfold RunTarget.
  destruct (MkdirTemp env "" "fuzz-run-*" w) as [[c|tempDir] w1];
    [now repeat split|].
  rewrite runInTemp_unfold.
  assert (Hst : Config (stage e t tempDir w1).1.2 = Config e /\
                Targets (stage e t tempDir w1).1.2 = Targets e /\
                Results (stage e t tempDir w1).1.2 = Results e).
  { unfold stage.
    destruct (GetTargetDir (CorpusManager e) t w1) as [[d m] wa].
    destruct (MkdirAll (Join [tempDir; "corpus"]) wa) as [[c|] wb];
      [now repeat split|].
    destruct (copyDir d (Join [tempDir; "corpus"]) wb) as [[c|] wc];
      [now repeat split|].
    destruct (MkdirAll (Join [tempDir; "crashers"]) wc) as [[c|] wd];
      now repeat split. }
  destruct (stage e t tempDir w1) as [[[c|] e1] w4]; [exact Hst|].
  simpl in *.
  destruct (ImportNewCorpusEntries _ _ _ _ _) as [[[c|] cm2] w8];
    simpl; exact Hst.
Qed.

End RunTargetOutcome.

(** ** Suffixes of paths *)

Section SuffixFacts.

#[local] Arguments Ascii.eqb : simpl never.

Lemma substring_all s : String.substring 0 (String.length s) s = s.
Proof. induction s as [|c s IH]; simpl; [reflexivity|now rewrite IH]. Qed.

Lemma eqb_true_length a b :
  String.eqb a b = true -> String.length a = String.length b.
Proof. intros H. apply String.eqb_eq in H. now subst. Qed.

(** One more byte in front: the suffix test looks at the rest, unless the
    suffix needs that byte too. *)
Lemma HasSuffix_cons c s suf :
  Strings.HasSuffix (String c s) suf =
  if (String.length suf <=? String.length s)%nat
  then Strings.HasSuffix s suf
  else String.eqb (String c s) suf.
Proof.
  unfold Strings.HasSuffix.
  destruct (Nat.leb_spec (String.length suf) (String.length s)) as [Hle|Hgt].
  - replace (String.length suf <=? String.length (String c s))%nat with true
      by (symmetry; apply Nat.leb_le; simpl; lia).
    replace (String.length (String c s) - String.length suf)%nat
      with (S (String.length s - String.length suf)) by (simpl; lia).
    reflexivity.
  - destruct (Nat.eq_dec (String.length suf) (S (String.length s)))
      as [Heq|Hne].
    + replace (String.length suf <=? String.length (String c s))%nat with true
        by (symmetry; apply Nat.leb_le; simpl; lia).
      replace (String.length (String c s) - String.length suf)%nat with O
        by (simpl; lia).
      replace (String.length suf) with (String.length (String c s))
        by (simpl; lia).
      now rewrite substring_all.
    + replace (String.length suf <=? String.length (String c s))%nat
        with false by (symmetry; apply Nat.leb_gt; simpl; lia).
      cbn [andb]. symmetry. apply not_true_is_false. intros H.
      apply eqb_true_length in H. simpl in H. lia.
Qed.

Lemma HasSuffix_short s suf :
  (String.length s < String.length suf)%nat -> Strings.HasSuffix s suf = false.
Proof.
  intros H. unfold Strings.HasSuffix.
  replace (String.length suf <=? String.length s)%nat with false
    by (symmetry; apply Nat.leb_gt; lia).
  reflexivity.
Qed.

Lemma length_child d n :
  String.length (d +:+ "/" +:+ n)
  = (String.length d + S (String.length n))%nat.
Proof. induction d as [|c d IH]; simpl; [reflexivity|now rewrite IH]. Qed.

(** For a suffix free of separators, a path ends in it exactly when its
    last element does. *)
Lemma HasSuffix_child d n suf :
  Strings.contains_byte Separator suf = false ->
  Strings.HasSuffix (d +:+ "/" +:+ n) suf = Strings.HasSuffix n suf.
Proof.
  intros Hsuf.
  assert (Hne : forall x, String.eqb (x +:+ "/" +:+ n) suf = false).
  { intros x. apply not_true_is_false. intros H. apply String.eqb_eq in H.
    pose proof (contains_separator_child x n) as Hc. rewrite H in Hc.
    congruence. }
  induction d as [|c d IH].
  - change ("" +:+ "/" +:+ n) with (String "/" n). rewrite HasSuffix_cons.
    destruct (Nat.leb_spec (String.length suf) (String.length n)); [reflexivity|].
    pose proof (Hne "") as H0.
    change ("" +:+ "/" +:+ n) with (String "/" n) in H0.
    rewrite H0. symmetry. now apply HasSuffix_short.
  - change (String c d +:+ "/" +:+ n) with (String c (d +:+ "/" +:+ n)).
    rewrite HasSuffix_cons, IH.
    destruct (Nat.leb_spec (String.length suf)
                (String.length (d +:+ "/" +:+ n))) as [Hle|Hgt];
      [reflexivity|].
    pose proof (Hne (String c d)) as H0.
    change (String c d +:+ "/" +:+ n) with (String c (d +:+ "/" +:+ n)) in H0.
    rewrite H0. symmetry. apply HasSuffix_short.
    rewrite length_child in Hgt. lia.
Qed.

Lemma collectCrashInputs_filter crashers : forall acc,
  Runner.collectCrashInputs crashers acc =
  (acc ++ filter (fun c => Strings.HasSuffix c ".output" = false) crashers)%list.
Proof.
  induction crashers as [|c rest IH]; intros acc; simpl.
  - now rewrite app_nil_r.
  - destruct (Strings.HasSuffix c ".output") eqn:E.
    + rewrite IH, filter_cons_False by congruence. reflexivity.
    + rewrite IH, filter_cons_True by exact E.
      now rewrite <- app_assoc.
Qed.

Lemma collect_entries dir ents :
  dir <> "" -> Forall (fun e => plain (de_name e)) ents ->
  filter (fun c => Strings.HasSuffix c ".output" = false)
    (map (fun e => Join [dir; de_name e]) ents)
  = map (fun n => dir +:+ "/" +:+ n)
      (filter (fun n => Strings.HasSuffix n ".output" = false)
         (map de_name ents)).
Proof.
  intros Hd Hall. induction Hall as [|e rest [Hne Hp] _ IH]; [reflexivity|].
  simpl map at 1. simpl map at 3.
  rewrite Join_child by assumption.
  pose proof (HasSuffix_child dir (de_name e) ".output" eq_refl) as Hs.
  destruct (Strings.HasSuffix (de_name e) ".output") eqn:E.
  - rewrite !filter_cons_False by congruence. exact IH.
  - rewrite !filter_cons_True by congruence. simpl. now rewrite IH.
Qed.

Lemma collect_globbed f dir :
  dir <> "" -> is_dir f dir = true ->
  Runner.collectCrashInputs (globbed f dir) [] = crash_paths f dir.
Proof.
  intros Hd Hdir. rewrite collectCrashInputs_filter. simpl.
  unfold globbed, crash_paths. rewrite Hdir.
  apply collect_entries; [exact Hd|].
  apply Forall_forall. intros e He.
  apply elem_of_entries in He as (? & _ & Hp & _). exact Hp.
Qed.

End SuffixFacts.

(** ** Crash inputs *)

Section CrashInputs.

Import Corpus Runner.

Lemma elem_of_crash_paths f dir p :
  p ∈ crash_paths f dir <->
  exists n nd, p = dir +:+ "/" +:+ n /\ f !! p = Some nd /\ plain n /\
               Strings.HasSuffix n ".output" = false.
Proof.
  unfold crash_paths. rewrite list_elem_of_fmap. split.
  - intros (n & -> & Hin). apply list_elem_of_filter in Hin as [Hs Hin].
    apply list_elem_of_fmap in Hin as (e & -> & He).
    apply elem_of_entries in He as (nd & Hl & Hp & _).
    exists (de_name e), nd. auto.
  - intros (n & nd & -> & Hl & Hp & Hs). exists n. split; [reflexivity|].
    apply list_elem_of_filter. split; [exact Hs|].
    apply list_elem_of_fmap.
    exists {| de_name := n; de_isdir := bool_decide (nd = DirNode) |}.
    split; [reflexivity|]. apply elem_of_entries. exists nd. auto.
Qed.

(** C8: after a run whose harness exited non-zero, the crash inputs of
    the result are the paths of exactly those entries of the scratch
    crashers directory whose names do not end in [".output"], in name
    order (none when the harness left no such directory).  With the
    crashers [c1], [c1.output] and [c2] the inputs reported are those of
    [c1] and [c2]; in the end-to-end scenario, with a budget of 2m30s and
    the crashers [abc123] and [abc123.output], the result has
    [Success = false] and the one crash input [abc123]. *)
Theorem crash_inputs_listed :
  (forall env e t w r e' w',
     RunTarget env e t w = (inr r, e', w') -> Success r = false ->
     exists tempDir w1 e1 w4,
       MkdirTemp env "" "fuzz-run-*" w = (inr tempDir, w1) /\
       stage e t tempDir w1 = (None, e1, w4) /\
       let run := harnessRun env e1 t tempDir (fs w4) in
       let crashersDir := tempDir +:+ "/" +:+ "crashers" in
       h_ok run = false /\
       CrashInputs r =
         if is_dir (h_fs run) crashersDir
         then crash_paths (h_fs run) crashersDir else []) /\
  (forall f dir p,
     p ∈ crash_paths f dir <->
     exists n nd, p = dir +:+ "/" +:+ n /\ f !! p = Some nd /\ plain n /\
                  Strings.HasSuffix n ".output" = false) /\
  (CrashInputs <$> result_of (example_run
                                (crashing_harness ["c1"; "c1.output"; "c2"]))
   = Some ["/tmp/fuzz-run-1/crashers/c1"; "/tmp/fuzz-run-1/crashers/c2"] /\
   map Base ["/tmp/fuzz-run-1/crashers/c1"; "/tmp/fuzz-run-1/crashers/c2"]
   = ["c1"; "c2"]) /\
  (let r := result_of (example_run
                         (crashing_harness ["abc123"; "abc123.output"])) in
   Success <$> r = Some false /\
   CrashInputs <$> r = Some ["/tmp/fuzz-run-1/crashers/abc123"] /\
   (length ∘ CrashInputs) <$> r = Some 1%nat /\
   (map Base ∘ CrashInputs) <$> r = Some ["abc123"] /\
   getTargetDuration example_engine example_target
   = 2 * Config.Minute + 30 * Config.Second).
Proof.
  split; [|split; [apply elem_of_crash_paths|]].
  - intros env e t w r e' w' H Hfail.
    apply RunTarget_result in H
      as (tempDir & w1 & e1 & w4 & Hmk & Hne & Hst & H).
    simpl in H. destruct H as (_ & _ & Hs & _ & Hc & _).
    exists tempDir, w1, e1, w4. split; [exact Hmk|]. split; [exact Hst|].
    simpl. rewrite Hfail in Hs. rewrite <- Hs in Hc.
    split; [now symmetry|]. rewrite Hc.
    rewrite Join_child by (try discriminate; exact Hne).
    destruct (is_dir (h_fs (harnessRun env e1 t tempDir (fs w4)))
                (tempDir +:+ "/" +:+ "crashers")) eqn:Hd.
    + apply collect_globbed; [|exact Hd].
      intros Hx. destruct tempDir; discriminate.
    + unfold globbed. now rewrite Hd.
  - split; [split|]; vm_compute; repeat split.
Qed.

(** The statement at the run with the crashers [c1], [c1.output], [c2]. *)
Lemma crash_inputs_listed_witness :
  let env := crashing_harness ["c1"; "c1.output"; "c2"] in
  exists r e' w',
    RunTarget env example_engine example_target started_world
    = (inr r, e', w') /\
    Success r = false /\
    exists tempDir w1 e1 w4,
      MkdirTemp env "" "fuzz-run-*" started_world = (inr tempDir, w1) /\
      stage example_engine example_target tempDir w1 = (None, e1, w4) /\
      let run := harnessRun env e1 example_target tempDir (fs w4) in
      let crashersDir := tempDir +:+ "/" +:+ "crashers" in
      h_ok run = false /\
      CrashInputs r =
        if is_dir (h_fs run) crashersDir
        then crash_paths (h_fs run) crashersDir else [].
Proof.
  intros env.
  destruct (RunTarget env example_engine example_target started_world)
    as [[[err|r] e'] w'] eqn:E; [vm_compute in E; discriminate|].
  exists r, e', w'. split; [reflexivity|].
  assert (Hs : Success r = false)
    by (vm_compute in E; inversion E; reflexivity).
  split; [exact Hs|].
  exact (proj1 crash_inputs_listed _ _ _ _ _ _ _ E Hs).
Defined.

End CrashInputs.

(** ** The diagnostic text *)

Section DiagnosticText.

Import Corpus Runner.

Lemma length_substring_0 n : forall s,
  String.length (String.substring 0 n s) = Nat.min n (String.length s).
Proof.
  induction n as [|n IH]; intros [|c s]; simpl; try reflexivity.
  now rewrite IH.
Qed.

Lemma length_append a b :
  String.length (a +:+ b) = (String.length a + String.length b)%nat.
Proof. induction a as [|c a IH]; simpl; [reflexivity|now rewrite IH]. Qed.

(** C4, as stated, fails: the result of a failing run stores the whole
    output of the harness, here all of its 150 bytes; the cut to 100 bytes
    is made by the run command when it prints the text. *)
Lemma diagnostic_text_counterexample :
  let r := result_of (example_run noisy_harness) in
  Success <$> r = Some false /\
  ErrorMessage <$> r = Some (repeat_byte 150 "x") /\
  (String.length ∘ ErrorMessage) <$> r = Some 150%nat /\
  Fuzzctl.shownError <$> r = Some (Some (repeat_byte 97 "x" +:+ "...")).
Proof. vm_compute. repeat split. Qed.

(** C4, amended: the result of a failing run stores the combined output
    of the harness in full, whatever its length; the run command prints
    at most 100 bytes of it: the text itself when it is that short, and
    its first 97 bytes followed by ["..."] otherwise. *)
Theorem diagnostic_text_stored_in_full :
  (forall env e t w r e' w',
     RunTarget env e t w = (inr r, e', w') -> Success r = false ->
     exists tempDir w1 e1 w4,
       MkdirTemp env "" "fuzz-run-*" w = (inr tempDir, w1) /\
       stage e t tempDir w1 = (None, e1, w4) /\
       ErrorMessage r = h_output (harnessRun env e1 t tempDir (fs w4))) /\
  (forall r : Result,
     exists s,
       Fuzzctl.shownError r = Some s /\
       (String.length s <= 100)%nat /\
       ((String.length (ErrorMessage r) <= 100)%nat -> s = ErrorMessage r) /\
       ((100 < String.length (ErrorMessage r))%nat ->
        s = String.substring 0 97 (ErrorMessage r) +:+ "...")).
Proof.
  split.
  - intros env e t w r e' w' H Hfail.
    apply RunTarget_result in H
      as (tempDir & w1 & e1 & w4 & Hmk & Hne & Hst & H).
    simpl in H. destruct H as (_ & _ & Hs & Hm & _).
    exists tempDir, w1, e1, w4. split; [exact Hmk|]. split; [exact Hst|].
    rewrite Hfail in Hs. now rewrite <- Hs in Hm.
  - intros r. unfold Fuzzctl.shownError, Fuzzctl.truncate.
    destruct (Z.leb_spec (Z.of_nat (String.length (ErrorMessage r))) 100)
      as [Hle|Hgt].
    + exists (ErrorMessage r).
      split; [reflexivity|]. split; [lia|]. split; [reflexivity|].
      intros H. exfalso. lia.
    + exists (String.substring 0 97 (ErrorMessage r) +:+ "...").
      change (100 - 3 <? 0) with false. change (Z.to_nat (100 - 3)) with 97%nat.
      split; [reflexivity|].
      split; [|split; [intros H; exfalso; lia|reflexivity]].
      rewrite length_append, length_substring_0.
      change (String.length "...") with 3%nat. lia.
Qed.

(** The amended statement at the run of the noisy harness. *)
Lemma diagnostic_text_stored_in_full_witness :
  exists r e' w',
    RunTarget noisy_harness example_engine example_target started_world
    = (inr r, e', w') /\
    Success r = false /\
    exists tempDir w1 e1 w4,
      MkdirTemp noisy_harness "" "fuzz-run-*" started_world
      = (inr tempDir, w1) /\
      stage example_engine example_target tempDir w1 = (None, e1, w4) /\
      ErrorMessage r
      = h_output (harnessRun noisy_harness e1 example_target tempDir (fs w4)).
Proof.
  destruct (RunTarget noisy_harness example_engine example_target
              started_world) as [[[err|r] e'] w'] eqn:E;
    [vm_compute in E; discriminate|].
  exists r, e', w'. split; [reflexivity|].
  assert (Hs : Success r = false)
    by (vm_compute in E; inversion E; reflexivity).
  split; [exact Hs|].
  exact (proj1 diagnostic_text_stored_in_full _ _ _ _ _ _ _ E Hs).
Defined.

End DiagnosticText.

(** ** The exit status of the harness and the errors of the engine *)

Section ExitStatus.

Import Corpus Runner.

Lemma MkdirTemp_agree env dir pattern w w' :
  fs w = fs w' ->
  agree (MkdirTemp env dir pattern w) (MkdirTemp env dir pattern w').
Proof.
  intros H. unfold agree, MkdirTemp. simpl. rewrite H.
  destruct (temp_name env (fs w')) as [p|]; [|now split].
  now destruct (_ || _).
Qed.

Lemma runInTemp_with_exit env ok e e2 t tempDir w w2 :
  same_setup e e2 -> fs w = fs w2 ->
  same_but_exit ok (runInTemp env e t tempDir w).1.1
                   (runInTemp (with_exit ok env) e2 t tempDir w2).1.1 /\
  same_setup (runInTemp env e t tempDir w).1.2
             (runInTemp (with_exit ok env) e2 t tempDir w2).1.2 /\
  fs (runInTemp env e t tempDir w).2
  = fs (runInTemp (with_exit ok env) e2 t tempDir w2).2.
Proof.
  intros Hs Hf. rewrite !runInTemp_unfold.
  destruct (stage_agree e e2 t tempDir w w2 Hs Hf) as (H1 & H2 & H3 & _).
  destruct (stage e t tempDir w) as [[o1 e1] w4].
  destruct (stage e2 t tempDir w2) as [[o2 e1'] w4'].
  simpl in H1, H2, H3. subst o2.
  destruct o1 as [err|];
    [simpl; split; [reflexivity|]; split; assumption|].
  cbv zeta.
  set (run := harnessRun env e1 t tempDir (fs w4)).
  set (run' := harnessRun (with_exit ok env) e1' t tempDir (fs w4')).
  assert (Hrun : h_fs run' = h_fs run /\ h_elapsed run' = h_elapsed run /\
                 h_ok run' = ok).
  { subst run run'. unfold harnessRun. simpl.
    rewrite <- (getTargetDuration_setup e1 e1' t H2).
    destruct H2 as (Hc & _ & _). rewrite <- Hc, <- H3. auto. }
  destruct Hrun as (Hrf & Hre & Hro).
  match goal with
  | |- context [classify run tempDir ?w5] =>
      pose proof (classify_spec run tempDir w5) as (_ & _ & Hc1);
      set (c := classify run tempDir w5) in *
  end.
  match goal with
  | |- context [classify run' tempDir ?w5] =>
      pose proof (classify_spec run' tempDir w5) as (_ & _ & Hc2);
      set (c' := classify run' tempDir w5) in *
  end.
  assert (Hcf : fs c.2 = fs c'.2) by congruence.
  destruct H2 as (Hcfg & Htg & Hcm). rewrite <- Hcm.
  rewrite Import_with_exit.
  destruct (ImportNewCorpusEntries_agree env (CorpusManager e1) t
              (Join [tempDir; "corpus"]) c.2 c'.2 Hcf) as [Hi1 Hi2].
  destruct (ImportNewCorpusEntries env (CorpusManager e1) t
              (Join [tempDir; "corpus"]) c.2) as [[oi cm2] w8].
  destruct (ImportNewCorpusEntries env (CorpusManager e1) t
              (Join [tempDir; "corpus"]) c'.2) as [[oi' cm2'] w8'].
  simpl in Hi1, Hi2. inversion Hi1; subst oi' cm2'. clear Hi1.
  destruct oi as [err|]; simpl.
  - repeat split; assumption.
  - destruct (ReadDir_agree (Join [tempDir; "corpus"]) w8 w8' Hi2) as [Hr1 Hr2].
    rewrite Hr1. repeat split; try assumption; try (now symmetry).
Qed.

(** Forcing the exit status of the harness changes neither whether
    [RunTarget] returns an error, nor which, nor what is left of the
    manager and the file system: it shows in the result only. *)
Lemma RunTarget_with_exit env ok e e2 t w w2 :
  same_setup e e2 -> fs w = fs w2 ->
  same_but_exit ok (RunTarget env e t w).1.1
                   (RunTarget (with_exit ok env) e2 t w2).1.1 /\
  same_setup (RunTarget env e t w).1.2
             (RunTarget (with_exit ok env) e2 t w2).1.2 /\
  fs (RunTarget env e t w).2 = fs (RunTarget (with_exit ok env) e2 t w2).2.
Proof.
  intros Hs Hf. unfold RunTarget.
  change (MkdirTemp (with_exit ok env) "" "fuzz-run-*" w2)
    with (MkdirTemp env "" "fuzz-run-*" w2).
  destruct (MkdirTemp_agree env "" "fuzz-run-*" w w2 Hf) as [H1 H2].
  destruct (MkdirTemp env "" "fuzz-run-*" w) as [o1 w1].
  destruct (MkdirTemp env "" "fuzz-run-*" w2) as [o2 w1'].
  simpl in H1, H2. subst o2. destruct o1 as [err|tempDir]; simpl.
  - repeat split; try assumption; apply Hs.
  - destruct (runInTemp_with_exit env ok e e2 t tempDir w1 w1' Hs H2)
      as (Ha & Hb & Hc).
    destruct (runInTemp env e t tempDir w1) as [[o e1] wa].
    destruct (runInTemp (with_exit ok env) e2 t tempDir w1') as [[o' e1'] wa'].
    simpl in *. repeat split; try assumption; try apply Hb.
    now rewrite Hc.
Qed.

End ExitStatus.

(** ** Running all targets *)

Section RunAllFacts.

Import Corpus Runner.

(** The loop appends one result per target, in order, up to the first
    target whose run returns an error; that error is an orchestration
    error and ends the loop. *)
Lemma runEach_results env ts : forall e w,
  exists new,
    Results (runEach env ts e w).1.2 = (Results e ++ new)%list /\
    map Target new = take (length new) ts /\
    match (runEach env ts e w).1.1 with
    | None => length new = length ts
    | Some err =>
        (length new < length ts)%nat /\
        exists t cause,
          ts !! length new = Some t /\ err = run_error t cause /\
          orchestration_error cause
    end.
Proof.
  induction ts as [|t rest IH]; intros e w; simpl.
  - exists []. rewrite app_nil_r. auto.
  - pose proof (RunTarget_engine env e t w) as (_ & _ & Hres).
    destruct (RunTarget env e t w) as [[[err|r] e1] w1] eqn:Erun;
      simpl in Hres.
    + exists []. simpl. rewrite app_nil_r. split; [exact Hres|].
      split; [reflexivity|]. split; [lia|].
      exists t, err. repeat split. eapply RunTarget_error; eauto.
    + destruct (IH {| Config := Config e1; Targets := Targets e1;
                      CorpusManager := CorpusManager e1;
                      Results := Results e1 ++ [r] |} w1)
        as (new & Hn1 & Hn2 & Hn3).
      simpl in Hn1. exists (r :: new).
      split; [rewrite Hn1, Hres, <- app_assoc; reflexivity|].
      apply RunTarget_result in Erun as (? & ? & ? & ? & _ & _ & _ & Ht & _).
      split; [simpl; now rewrite Ht, Hn2|].
      destruct (runEach env rest _ w1).1.1 as [err|]; simpl.
      * destruct Hn3 as [Hl (t' & cause & H1 & H2 & H3)].
        split; [lia|]. exists t', cause. auto.
      * lia.
Qed.

(** Forcing the exit status of the harness leaves the error of the loop
    and the number of results as they are; every result then carries the
    forced status. *)
Lemma runEach_with_exit env ok ts : forall e e2 w w2,
  same_setup e e2 -> fs w = fs w2 ->
  (runEach env ts e w).1.1 = (runEach (with_exit ok env) ts e2 w2).1.1 /\
  fs (runEach env ts e w).2 = fs (runEach (with_exit ok env) ts e2 w2).2 /\
  exists new new2,
    Results (runEach env ts e w).1.2 = (Results e ++ new)%list /\
    Results (runEach (with_exit ok env) ts e2 w2).1.2
    = (Results e2 ++ new2)%list /\
    length new = length new2 /\
    Forall (fun r => Success r = ok) new2.
Proof.
  induction ts as [|t rest IH]; intros e e2 w w2 Hs Hf; simpl.
  - split; [reflexivity|]. split; [exact Hf|].
    exists [], []. rewrite !app_nil_r. auto.
  - destruct (RunTarget_with_exit env ok e e2 t w w2 Hs Hf) as (Ha & Hb & Hc).
    pose proof (RunTarget_engine env e t w) as (_ & _ & Hres).
    pose proof (RunTarget_engine (with_exit ok env) e2 t w2)
      as (_ & _ & Hres2).
    destruct (RunTarget env e t w) as [[o e1] w1].
    destruct (RunTarget (with_exit ok env) e2 t w2) as [[o2 e1'] w1'].
    simpl in Ha, Hb, Hc, Hres, Hres2.
    destruct o as [err|r], o2 as [err2|r2]; simpl in Ha; try contradiction.
    + subst err2. simpl. split; [reflexivity|]. split; [exact Hc|].
      exists [], []. rewrite !app_nil_r. auto.
    + destruct Ha as (Hok & _).
      assert (Hs' : same_setup
                {| Config := Config e1; Targets := Targets e1;
                   CorpusManager := CorpusManager e1;
                   Results := Results e1 ++ [r] |}
                {| Config := Config e1'; Targets := Targets e1';
                   CorpusManager := CorpusManager e1';
                   Results := Results e1' ++ [r2] |})
        by (destruct Hb as (? & ? & ?); repeat split; assumption).
      destruct (IH _ _ w1 w1' Hs' Hc)
        as (He & Hfs & new & new2 & Hn1 & Hn2 & Hl & Hall).
      split; [exact He|]. split; [exact Hfs|].
      exists (r :: new), (r2 :: new2). simpl in Hn1, Hn2.
      split; [rewrite Hn1, Hres, <- app_assoc; reflexivity|].
      split; [rewrite Hn2, Hres2, <- app_assoc; reflexivity|].
      split; [simpl; now rewrite Hl|].
      constructor; assumption.
Qed.

(** The loop is a campaign of runs of [RunTarget], and appends their
    results. *)
Lemma runEach_runs env ts : forall e w,
  exists new,
    runs env ts e w new (runEach env ts e w).1.1 (runEach env ts e w).1.2
      (runEach env ts e w).2 /\
    Results (runEach env ts e w).1.2 = (Results e ++ new)%list.
Proof.
  induction ts as [|t rest IH]; intros e w; simpl.
  - exists []. rewrite app_nil_r. split; [constructor|reflexivity].
  - pose proof (RunTarget_engine env e t w) as (_ & _ & Hres).
    destruct (RunTarget env e t w) as [[[err|r] e1] w1] eqn:Erun;
      simpl in Hres.
    + exists []. simpl. rewrite app_nil_r. split; [|exact Hres].
      now apply runs_abort.
    + destruct (IH (appended e1 r) w1) as (new & Hruns & Hn).
      exists (r :: new). split.
      * eapply runs_next; [exact Erun|exact Hruns].
      * unfold appended in Hn at 2. simpl in Hn.
        change (Results (runEach env rest (appended e1 r) w1).1.2
                = (Results e ++ r :: new)%list).
        rewrite Hn, Hres, <- app_assoc. reflexivity.
Qed.

(** A campaign has one outcome: the one the loop computes. *)
Lemma runs_runEach env ts e w new err e' w' :
  runs env ts e w new err e' w' ->
  runEach env ts e w = (err, e', w') /\
  Results e' = (Results e ++ new)%list.
Proof.
  induction 1 as [e w|t rest e w cause e1 w1 Hrun
                 |t rest e w r e1 w1 new err e' w' Hrun _ [IH1 IH2]]; simpl.
  - rewrite app_nil_r. auto.
  - rewrite Hrun. rewrite app_nil_r. split; [reflexivity|].
    pose proof (RunTarget_engine env e t w) as (_ & _ & Hres).
    now rewrite Hrun in Hres.
  - rewrite Hrun. split; [exact IH1|].
    pose proof (RunTarget_engine env e t w) as (_ & _ & Hres).
    rewrite Hrun in Hres. simpl in Hres, IH2.
    rewrite IH2, Hres, <- app_assoc. reflexivity.
Qed.

Lemma stage_strategy e t tempDir w :
  Minimization (CorpusManager (stage e t tempDir w).1.2)
  = Minimization (CorpusManager e).
Proof.
  unfold stage.
  pose proof (GetTargetDir_strategy (CorpusManager e) t w) as Hm.
  destruct (GetTargetDir (CorpusManager e) t w) as [[d m] wa]. simpl in Hm.
  destruct (MkdirAll (Join [tempDir; "corpus"]) wa) as [[c|] wb];
    [exact Hm|].
  destruct (copyDir d (Join [tempDir; "corpus"]) wb) as [[c|] wc];
    [exact Hm|].
  destruct (MkdirAll (Join [tempDir; "crashers"]) wc) as [[c|] wd];
    exact Hm.
Qed.

(** Under ["coverage"], with a minimizer that fails, no run returns a
    result: the import, where the run gets that far, fails. *)
Lemma RunTarget_failing_minimizer env e t w :
  Minimization (CorpusManager e) = CoverageMinimization ->
  minimizer_fails env ->
  exists err, (RunTarget env e t w).1.1 = inl err.
Proof.
  intros Hcov Hfail. unfold RunTarget.
  destruct (MkdirTemp env "" "fuzz-run-*" w) as [[c|tempDir] w1];
    [eexists; reflexivity|].
  rewrite runInTemp_unfold.
  pose proof (stage_strategy e t tempDir w1) as Hst.
  destruct (stage e t tempDir w1) as [[[c|] e1] w4];
    [eexists; reflexivity|].
  simpl in Hst. rewrite Hcov in Hst. simpl.
  match goal with
  | |- context [ImportNewCorpusEntries env ?m t ?src ?w0] =>
      pose proof (import_failing_minimizer env m t src w0 Hst Hfail) as Hi;
      destruct (ImportNewCorpusEntries env m t src w0) as [[[c|] cm2] w8]
  end; simpl in *; [eexists; reflexivity|congruence].
Qed.

End RunAllFacts.

Section HarnessExit.

Import Corpus Runner.

(** C1: the exit status of the harness is no engine error.  Forcing it to
    non-zero leaves [RunTarget] with the same error where it had one and
    with a result whose [Success] is false where it had a result; an error
    of [RunTarget] is always a failed step of the orchestration (making
    the scratch directories, copying the corpus, importing the new
    entries) and no result is appended with it.  [RunAll] appends one
    result per target, in order, until the first error of [RunTarget],
    which it wraps and returns at once; with every harness run failing it
    returns the same error, if any, and appends as many results, all with
    [Success] false.  [RunAll] is the campaign of runs of [RunTarget] over
    the targets of the engine, and the only one: each target is run by
    [RunTarget] on the engine and in the world the run before it left, the
    result it returns is the one appended, and the first error it returns
    is the one wrapped and returned, with the engine and the world as that
    run left them and no target run after it.  The run of the harness in
    minimization mode is a step of the import: under ["coverage"], a
    minimizer that exits with a non-zero status makes the import fail and
    [RunTarget] return that orchestration error, with no result
    appended. *)
Theorem harness_exit_is_no_engine_error :
  (forall env e t w,
     same_but_exit false (RunTarget env e t w).1.1
       (RunTarget (with_exit false env) e t w).1.1 /\
     CorpusManager (RunTarget (with_exit false env) e t w).1.2
     = CorpusManager (RunTarget env e t w).1.2 /\
     fs (RunTarget (with_exit false env) e t w).2
     = fs (RunTarget env e t w).2) /\
  (forall env e t w r e' w',
     RunTarget env e t w = (inr r, e', w') ->
     Results e' = Results e /\
     exists tempDir w1 e1 w4,
       MkdirTemp env "" "fuzz-run-*" w = (inr tempDir, w1) /\
       stage e t tempDir w1 = (None, e1, w4) /\
       Success r = h_ok (harnessRun env e1 t tempDir (fs w4))) /\
  (forall env e t w err e' w',
     RunTarget env e t w = (inl err, e', w') ->
     orchestration_error err /\ Results e' = Results e) /\
  (forall env e w,
     exists new,
       Results (RunAll env e w).1.2 = (Results e ++ new)%list /\
       map Target new = take (length new) (Targets e) /\
       match (RunAll env e w).1.1 with
       | None => length new = length (Targets e)
       | Some err =>
           (length new < length (Targets e))%nat /\
           exists t cause,
             Targets e !! length new = Some t /\ err = run_error t cause /\
             orchestration_error cause
       end) /\
  (forall env e w,
     (RunAll (with_exit false env) e w).1.1 = (RunAll env e w).1.1 /\
     exists new new2,
       Results (RunAll env e w).1.2 = (Results e ++ new)%list /\
       Results (RunAll (with_exit false env) e w).1.2
       = (Results e ++ new2)%list /\
       length new2 = length new /\
       Forall (fun r => Success r = false) new2) /\
  (forall env e w,
     exists new,
       runs env (Targets e) e w new (RunAll env e w).1.1
         (RunAll env e w).1.2 (RunAll env e w).2 /\
       Results (RunAll env e w).1.2 = (Results e ++ new)%list) /\
  (forall env e w new err e' w',
     runs env (Targets e) e w new err e' w' ->
     RunAll env e w = (err, e', w') /\
     Results e' = (Results e ++ new)%list) /\
  (forall env e w, Targets e = [] -> RunAll env e w = (None, e, w)) /\
  (forall env e w t rest cause e1 w1,
     Targets e = t :: rest ->
     RunTarget env e t w = (inl cause, e1, w1) ->
     RunAll env e w = (Some (run_error t cause), e1, w1) /\
     Results e1 = Results e) /\
  (forall env e w t rest r e1 w1,
     Targets e = t :: rest ->
     RunTarget env e t w = (inr r, e1, w1) ->
     exists new,
       Results (RunAll env e w).1.2 = (Results e ++ r :: new)%list /\
       runs env rest (appended e1 r) w1 new (RunAll env e w).1.1
         (RunAll env e w).1.2 (RunAll env e w).2) /\
  (forall env e t w,
     Minimization (CorpusManager e) = CoverageMinimization ->
     minimizer_fails env ->
     exists err,
       (RunTarget env e t w).1.1 = inl err /\ orchestration_error err /\
       Results (RunTarget env e t w).1.2 = Results e).
Proof.
  split; [|split; [|split; [|split; [|split; [|split; [|split; [|split;
    [|split; [|split]]]]]]]]].
  - intros env e t w.
    assert (Hs : same_setup e e) by (repeat split).
    destruct (RunTarget_with_exit env false e e t w w Hs eq_refl)
      as (Ha & (_ & _ & Hm) & Hf).
    auto.
  - intros env e t w r e' w' H.
    pose proof (RunTarget_engine env e t w) as (_ & _ & Hres).
    rewrite H in Hres. split; [exact Hres|].
    apply RunTarget_result in H
      as (tempDir & w1 & e1 & w4 & Hmk & _ & Hst & _ & _ & Hs & _).
    exists tempDir, w1, e1, w4. auto.
  - intros env e t w err e' w' H.
    pose proof (RunTarget_engine env e t w) as (_ & _ & Hres).
    rewrite H in Hres. split; [|exact Hres].
    eapply RunTarget_error; eauto.
  - intros env e w. apply runEach_results.
  - intros env e w. unfold RunAll.
    assert (Hs : same_setup e e) by (repeat split).
    destruct (runEach_with_exit env false (Targets e) e e w w Hs eq_refl)
      as (He & _ & new & new2 & H1 & H2 & Hl & Hall).
    split; [now symmetry|]. exists new, new2. auto.
  - intros env e w. apply runEach_runs.
  - intros env e w new err e' w' H. now apply runs_runEach.
  - intros env e w H. unfold RunAll. now rewrite H.
  - intros env e w t rest cause e1 w1 Ht H. unfold RunAll. rewrite Ht.
    simpl. rewrite H. split; [reflexivity|].
    pose proof (RunTarget_engine env e t w) as (_ & _ & Hres).
    now rewrite H in Hres.
  - intros env e w t rest r e1 w1 Ht H. unfold RunAll. rewrite Ht.
    simpl. rewrite H.
    destruct (runEach_runs env rest (appended e1 r) w1) as (new & Hruns & Hn).
    exists new. split; [|exact Hruns].
    pose proof (RunTarget_engine env e t w) as (_ & _ & Hres).
    rewrite H in Hres. simpl in Hres.
    change (Results (runEach env rest (appended e1 r) w1).1.2
            = (Results e ++ r :: new)%list).
    rewrite Hn. simpl. rewrite Hres, <- app_assoc. reflexivity.
  - intros env e t w Hcov Hfail.
    destruct (RunTarget_failing_minimizer env e t w Hcov Hfail) as [err He].
    exists err. split; [exact He|].
    pose proof (RunTarget_engine env e t w) as (_ & _ & Hres).
    split; [|exact Hres].
    destruct (RunTarget env e t w) as [[o e'] w'] eqn:E. simpl in He.
    subst o. eapply RunTarget_error; eauto.
Qed.

(** The statement at a campaign of two targets whose harness finds a
    crasher each time: both results are recorded, with [Success] false,
    the first being the one [RunTarget] returns, and [RunAll] returns no
    error. *)
Lemma harness_exit_is_no_engine_error_witness :
  let env := crashing_harness ["abc123"; "abc123.output"] in
  exists r e' w',
    RunTarget env two_target_engine example_target started_world
    = (inr r, e', w') /\
    Success r = false /\
    Results e' = Results two_target_engine /\
    (RunAll env two_target_engine started_world).1.1 = None /\
    map Success (Results (RunAll env two_target_engine started_world).1.2)
    = [false; false] /\
    exists new,
      Results (RunAll env two_target_engine started_world).1.2
      = (Results two_target_engine ++ r :: new)%list.
Proof.
  intros env.
  destruct (RunTarget env two_target_engine example_target started_world)
    as [[[err|r] e'] w'] eqn:E; [vm_compute in E; discriminate|].
  exists r, e', w'. split; [reflexivity|].
  destruct harness_exit_is_no_engine_error
    as (_ & H2 & _ & _ & _ & _ & _ & _ & _ & H10 & _).
  destruct (H2 _ _ _ _ _ _ _ E) as [Hres _].
  split; [vm_compute in E; inversion E; reflexivity|].
  split; [exact Hres|].
  split; [vm_compute; reflexivity|].
  split; [vm_compute; reflexivity|].
  destruct (H10 env two_target_engine started_world example_target
              [example_target2] r e' w' eq_refl E) as (new & Hn & _).
  exists new. exact Hn.
Defined.

End HarnessExit.

(** ** The size of the persistent corpus *)

Section CorpusSize.

Import Corpus Runner.

Lemma fileCount_mono base f f' :
  f ⊆ f' -> (fileCount base f <= fileCount base f')%nat.
Proof.
  intros H. unfold fileCount. apply map_subseteq_size.
  now apply map_filter_subseteq_mono.
Qed.

Lemma no_minimize_refl w : no_minimize_between w w.
Proof. exists []. split; [reflexivity|constructor]. Qed.

Lemma no_minimize_trans w1 w2 w3 :
  no_minimize_between w1 w2 -> no_minimize_between w2 w3 ->
  no_minimize_between w1 w3.
Proof.
  intros (evs1 & H1 & F1) (evs2 & H2 & F2). exists (evs2 ++ evs1)%list.
  split; [now rewrite H2, H1, app_assoc|]. now apply Forall_app.
Qed.

Lemma no_minimize_record ev w :
  (forall n p d, ev <> EvMinimize n p d) ->
  no_minimize_between w (record ev w).
Proof. intros H. exists [ev]. split; [reflexivity|]. now constructor. Qed.

Lemma no_minimize_set_fs f w w' :
  no_minimize_between w w' -> no_minimize_between w (set_fs f w').
Proof. intros (evs & H & F). exists evs. auto. Qed.

Lemma MkdirAll_no_minimize p w : no_minimize_between w (MkdirAll p w).2.
Proof.
  unfold MkdirAll. simpl.
  destruct (mkdir_chain _ _); simpl;
    [apply no_minimize_set_fs|]; now apply no_minimize_record.
Qed.

Lemma GetTargetDir_no_minimize m t w :
  no_minimize_between w (GetTargetDir m t w).2.
Proof.
  unfold GetTargetDir. destruct (TargetDirs m !! targetKey t); simpl.
  - apply no_minimize_refl.
  - apply MkdirAll_no_minimize.
Qed.

Lemma ReadDir_no_minimize d w : no_minimize_between w (ReadDir d w).2.
Proof.
  unfold ReadDir. simpl. destruct (_ && _); now apply no_minimize_record.
Qed.

Lemma copyFile_no_minimize src dst w :
  no_minimize_between w (Corpus.copyFile src dst w).2.
Proof.
  unfold Corpus.copyFile. simpl.
  assert (H1 : no_minimize_between w (record (EvOpen src) w))
    by now apply no_minimize_record.
  destruct (negb (path_exists (fs w) src)); simpl; [exact H1|].
  assert (H2 : no_minimize_between w
                 (record (EvCreate dst) (record (EvOpen src) w))).
  { eapply no_minimize_trans; [exact H1|]. now apply no_minimize_record. }
  destruct (_ || _); simpl; [exact H2|].
  destruct (<[dst:=FileNode ""]> (fs w) !! src) as [[|c]|]; simpl;
    repeat apply no_minimize_set_fs; exact H2.
Qed.

Lemma importEntries_no_minimize targetDir src ents : forall w,
  no_minimize_between w (importEntries targetDir src ents w).2.
Proof.
  induction ents as [|entry rest IH]; intros w; simpl.
  - apply no_minimize_refl.
  - destruct (de_isdir entry); [apply IH|].
    assert (H1 : no_minimize_between w
              (record (EvStat (Join [targetDir; de_name entry])) w))
      by now apply no_minimize_record.
    destruct (path_exists (fs w) (Join [targetDir; de_name entry])).
    + eapply no_minimize_trans; [exact H1|apply IH].
    + pose proof (copyFile_no_minimize (Join [src; de_name entry])
                    (Join [targetDir; de_name entry])
                    (record (EvStat (Join [targetDir; de_name entry])) w))
        as H2.
      destruct (Corpus.copyFile _ _ _) as [[err|] w2]; simpl in *.
      * eapply no_minimize_trans; eauto.
      * eapply no_minimize_trans; [exact H1|].
        eapply no_minimize_trans; [exact H2|apply IH].
Qed.

Lemma copyPhase_no_minimize m t src w :
  no_minimize_between w (copyPhase m t src w).2.
Proof.
  unfold copyPhase.
  pose proof (GetTargetDir_no_minimize m t w) as H1.
  destruct (GetTargetDir m t w) as [[targetDir m1] w1]. simpl in H1.
  pose proof (ReadDir_no_minimize src w1) as H2.
  destruct (ReadDir src w1) as [[err|ents] w2]; simpl in *.
  - eapply no_minimize_trans; eauto.
  - pose proof (importEntries_no_minimize targetDir src ents w2) as H3.
    destruct (importEntries targetDir src ents w2) as [err w3]. simpl in *.
    eapply no_minimize_trans; [exact H1|].
    eapply no_minimize_trans; eauto.
Qed.

(** Under a strategy other than ["coverage"] the import is its copy
    phase. *)
Lemma import_not_coverage env m t src w :
  Minimization m <> CoverageMinimization ->
  ImportNewCorpusEntries env m t src w = copyPhase m t src w.
Proof.
  intros Hs. unfold ImportNewCorpusEntries, copyPhase.
  pose proof (GetTargetDir_strategy m t w) as Hm.
  destruct (GetTargetDir m t w) as [[targetDir m1] w1]. simpl in Hm.
  destruct (ReadDir src w1) as [[err|ents] w2]; [reflexivity|].
  destruct (importEntries targetDir src ents w2) as [[err|] w3];
    [reflexivity|].
  rewrite bool_decide_eq_false_2 by congruence. reflexivity.
Qed.

End CorpusSize.

(** ** What a run leaves outside its scratch directory *)

Section OutsideScratch.

Import Corpus Runner.

Lemma outside_kept_refl tmp f : outside_kept tmp f f.
Proof. intros p nd _ H. exact H. Qed.

Lemma outside_kept_trans tmp f1 f2 f3 :
  outside_kept tmp f1 f2 -> outside_kept tmp f2 f3 -> outside_kept tmp f1 f3.
Proof. intros H1 H2 p nd Hp H. apply H2, H1; assumption. Qed.

Lemma subseteq_outside_kept tmp f f' : f ⊆ f' -> outside_kept tmp f f'.
Proof. intros Hs p nd _ H. eapply lookup_weaken; eauto. Qed.

Lemma append_assoc a b c : (a +:+ b) +:+ c = a +:+ b +:+ c.
Proof.
  induction a as [|x a IH]; [reflexivity|].
  change (String x ((a +:+ b) +:+ c) = String x (a +:+ b +:+ c)).
  now rewrite IH.
Qed.

Lemma in_tree_below tmp x : in_tree tmp (tmp +:+ "/" +:+ x) = true.
Proof.
  unfold in_tree. rewrite <- append_slash, strip_prefix_app.
  apply orb_true_r.
Qed.

Lemma Join_empty_last d : d <> "" -> Join [d; ""] = d.
Proof.
  intros Hd. unfold Join.
  rewrite filter_cons_True by exact Hd.
  rewrite filter_cons_False by (intros H; now apply H).
  reflexivity.
Qed.

Lemma in_tree_scratch_corpus tmp rel :
  tmp <> "" ->
  in_tree tmp (Join [tmp; "corpus"]) = true /\
  in_tree tmp (Join [Join [tmp; "corpus"]; rel]) = true.
Proof.
  intros Ht. rewrite (Join_child tmp "corpus") by (try discriminate; exact Ht).
  split; [apply in_tree_below|].
  assert (Hd : tmp +:+ "/" +:+ "corpus" <> "")
    by (destruct tmp; discriminate).
  destruct (decide (rel = "")) as [->|Hr].
  - rewrite Join_empty_last by exact Hd. apply in_tree_below.
  - rewrite Join_child by assumption.
    replace ((tmp +:+ "/" +:+ "corpus") +:+ "/" +:+ rel)
      with (tmp +:+ "/" +:+ ("corpus" +:+ "/" +:+ rel)).
    + apply in_tree_below.
    + symmetry. rewrite append_assoc. reflexivity.
Qed.

Lemma copyFile_other src dst w k :
  k <> dst -> fs (Corpus.copyFile src dst w).2 !! k = fs w !! k.
Proof.
  intros Hne. unfold Corpus.copyFile. simpl.
  destruct (negb (path_exists (fs w) src)); simpl; [reflexivity|].
  destruct (_ || _); simpl; [reflexivity|].
  destruct (<[dst:=FileNode ""]> (fs w) !! src) as [[|c]|]; simpl;
    rewrite ?lookup_insert_ne by congruence; reflexivity.
Qed.

Lemma copyFile_outside tmp src dst w :
  in_tree tmp dst = true ->
  outside_kept tmp (fs w) (fs (Corpus.copyFile src dst w).2).
Proof.
  intros Hd p nd Hp H. rewrite copyFile_other; [exact H|].
  intros ->. congruence.
Qed.

Lemma copyVisit_outside tmp src path w :
  tmp <> "" ->
  outside_kept tmp (fs w)
    (fs (copyVisit src (Join [tmp; "corpus"]) path w).2).
Proof.
  intros Ht. unfold copyVisit.
  destruct (if bool_decide (path = src) then Some "."
            else strip_prefix (src +:+ "/") path) as [rel|];
    [|apply outside_kept_refl].
  set (dstPath := if bool_decide (rel = ".") then Join [tmp; "corpus"]
                  else Join [Join [tmp; "corpus"]; rel]).
  assert (Hin : in_tree tmp dstPath = true).
  { subst dstPath. destruct (in_tree_scratch_corpus tmp rel Ht).
    now destruct (bool_decide (rel = ".")). }
  pose proof (MkdirAll_subseteq (Dir dstPath) w) as H1.
  destruct (MkdirAll (Dir dstPath) w) as [[err|] w1]; simpl in *.
  - now apply subseteq_outside_kept.
  - eapply outside_kept_trans; [apply subseteq_outside_kept, H1|].
    now apply copyFile_outside.
Qed.

Lemma walkVisit_outside tmp src found : forall w,
  tmp <> "" ->
  outside_kept tmp (fs w)
    (fs (walkVisit src (Join [tmp; "corpus"]) found w).2).
Proof.
  induction found as [|[path [|c]] rest IH]; intros w Ht; simpl.
  - apply outside_kept_refl.
  - now apply IH.
  - pose proof (copyVisit_outside tmp src path w Ht) as H1.
    destruct (copyVisit src (Join [tmp; "corpus"]) path w) as [[err|] w1];
      simpl in *; [exact H1|].
    eapply outside_kept_trans; [exact H1|now apply IH].
Qed.

Lemma copyDir_outside tmp src w :
  tmp <> "" ->
  outside_kept tmp (fs w) (fs (copyDir src (Join [tmp; "corpus"]) w).2).
Proof.
  intros Ht. unfold copyDir. simpl.
  destruct (fs w !! src) as [[|c]|].
  - now apply (walkVisit_outside tmp src _ (record (EvWalk src) w)).
  - now apply (copyVisit_outside tmp src src (record (EvWalk src) w)).
  - destruct (implicit_dir src).
    + now apply (walkVisit_outside tmp src _ (record (EvWalk src) w)).
    + apply outside_kept_refl.
Qed.

Lemma stage_outside e t tmp w :
  tmp <> "" -> outside_kept tmp (fs w) (fs (stage e t tmp w).2).
Proof.
  intros Ht. unfold stage.
  pose proof (GetTargetDir_subseteq (CorpusManager e) t w) as H1.
  destruct (GetTargetDir (CorpusManager e) t w) as [[d m] wa]. simpl in H1.
  pose proof (MkdirAll_subseteq (Join [tmp; "corpus"]) wa) as H2.
  destruct (MkdirAll (Join [tmp; "corpus"]) wa) as [[c|] wb]; simpl in *.
  { apply subseteq_outside_kept. etransitivity; eauto. }
  pose proof (copyDir_outside tmp d wb Ht) as H3.
  destruct (copyDir d (Join [tmp; "corpus"]) wb) as [[c|] wc]; simpl in *.
  { eapply outside_kept_trans; [|exact H3].
    apply subseteq_outside_kept. etransitivity; eauto. }
  pose proof (MkdirAll_subseteq (Join [tmp; "crashers"]) wc) as H4.
  assert (H : outside_kept tmp (fs w) (fs (MkdirAll (Join [tmp; "crashers"]) wc).2)).
  { eapply outside_kept_trans; [|apply subseteq_outside_kept, H4].
    eapply outside_kept_trans; [|exact H3].
    apply subseteq_outside_kept. etransitivity; eauto. }
  destruct (MkdirAll (Join [tmp; "crashers"]) wc) as [[c|] wd]; exact H.
Qed.

(** With a harmless minimizer every import only adds. *)
Lemma import_subseteq_harmless env m t src w :
  harmless_minimizer env ->
  fs w ⊆ fs (ImportNewCorpusEntries env m t src w).2.
Proof.
  intros Hh. unfold ImportNewCorpusEntries.
  pose proof (GetTargetDir_subseteq m t w) as H1.
  destruct (GetTargetDir m t w) as [[targetDir m1] w1]. simpl in H1.
  pose proof (ReadDir_fs src w1) as H2.
  destruct (ReadDir src w1) as [[err|ents] w2]; simpl in *.
  - now rewrite H2.
  - pose proof (importEntries_subseteq targetDir src ents w2) as H3.
    assert (H03 : fs w ⊆ fs (importEntries targetDir src ents w2).2).
    { etransitivity; [exact H1|]. now rewrite <- H2. }
    destruct (importEntries targetDir src ents w2) as [[err|] w3];
      simpl in *; [exact H03|].
    destruct (bool_decide (Minimization m1 = CoverageMinimization));
      [|exact H03].
    assert (Hmin : fs w3 ⊆ fs (Minimize env m1 t w3).2).
    { unfold Minimize.
      destruct (bool_decide (Minimization m1 = NoMinimization));
        [reflexivity|].
      pose proof (GetTargetDir_subseteq m1 t w3) as H4.
      destruct (GetTargetDir m1 t w3) as [[d m2] w4]. simpl in H4.
      pose proof (Hh (Discovery.Name t) (Discovery.Package t) d
                    (fs (record (EvMinimize (Discovery.Name t)
                                   (Discovery.Package t) d) w4))) as H5.
      destruct (run_minimize env _ _ _ _) as [f ok]. simpl in H5.
      destruct ok; simpl; etransitivity; eauto. }
    destruct (Minimize env m1 t w3) as [[[err|] m2] w4]; simpl in *;
      etransitivity; eauto.
Qed.

Lemma RemoveAll_outside tmp w :
  outside_kept tmp (fs w) (fs (RemoveAll tmp w).2).
Proof.
  intros p nd Hp H. unfold RemoveAll. simpl.
  apply map_lookup_filter_Some. split; [exact H|exact Hp].
Qed.

(** With a contained harness and a harmless minimizer, a run keeps every
    node outside its scratch directory, whether it returns a result or an
    error. *)
Lemma RunTarget_outside env e t w p nd :
  contained_harness env -> harmless_minimizer env ->
  (forall tmp, temp_name env (fs w) = Some tmp -> in_tree tmp p = false) ->
  fs w !! p = Some nd ->
  fs (RunTarget env e t w).2 !! p = Some nd.
Proof.
  intros Hc Hh Hp H. unfold RunTarget.
  destruct (MkdirTemp env "" "fuzz-run-*" w) as [[c|tmp] w1] eqn:Emk.
  { simpl. revert Emk. unfold MkdirTemp. simpl.
    destruct (temp_name env (fs w)); [|now intros [= _ <-]].
    destruct (_ || _); [now intros [= _ <-]|discriminate]. }
  apply MkdirTemp_ok in Emk as (Htn & Hne & Hfresh & Hfs1).
  specialize (Hp tmp Htn).
  assert (H1 : fs w1 !! p = Some nd).
  { rewrite Hfs1. rewrite lookup_insert_ne; [exact H|].
    intros ->. congruence. }
  assert (Hrun : outside_kept tmp (fs w1) (fs (runInTemp env e t tmp w1).2)).
  { rewrite runInTemp_unfold.
    pose proof (stage_outside e t tmp w1 Hne) as Hst.
    destruct (stage e t tmp w1) as [[[c|] e1] w4]; simpl in Hst;
      [exact Hst|].
    cbv zeta.
    set (run := harnessRun env e1 t tmp (fs w4)).
    match goal with
    | |- context [classify run tmp ?w5] =>
        pose proof (classify_spec run tmp w5) as (_ & _ & Hcf);
        set (c := classify run tmp w5) in *
    end.
    assert (Hh1 : outside_kept tmp (fs w1) (fs c.2)).
    { eapply outside_kept_trans; [exact Hst|]. rewrite Hcf.
      subst run. unfold harnessRun. apply Hc. }
    pose proof (import_subseteq_harmless env (CorpusManager e1) t
                  (Join [tmp; "corpus"]) c.2 Hh) as Hi.
    destruct (ImportNewCorpusEntries env (CorpusManager e1) t
                (Join [tmp; "corpus"]) c.2) as [[[err|] cm2] w8];
      simpl in *.
    - eapply outside_kept_trans; [exact Hh1|].
      now apply subseteq_outside_kept.
    - rewrite ReadDir_fs.
      eapply outside_kept_trans; [exact Hh1|].
      now apply subseteq_outside_kept. }
  destruct (runInTemp env e t tmp w1) as [[r e1] w2]. simpl in *.
  apply RemoveAll_outside; [exact Hp|]. now apply Hrun.
Qed.

(** A tree that lies apart from the scratch directories does not lose a
    file. *)
Lemma fileCount_kept base f f' :
  (forall p nd, in_tree base p = true -> f !! p = Some nd ->
                f' !! p = Some nd) ->
  (fileCount base f <= fileCount base f')%nat.
Proof.
  intros H. unfold fileCount. apply map_subseteq_size.
  apply map_subseteq_spec. intros p nd Hl.
  apply map_lookup_filter_Some in Hl as [Hl [Hin Hf]]. simpl in *.
  apply map_lookup_filter_Some. split; [now apply H|]. now split.
Qed.

Lemma RunTarget_fileCount env e t w base :
  contained_harness env -> harmless_minimizer env ->
  scratch_apart env base ->
  (fileCount base (fs w) <= fileCount base (fs (RunTarget env e t w).2))%nat.
Proof.
  intros Hc Hh Ha. apply fileCount_kept. intros p nd Hin Hl.
  apply RunTarget_outside; try assumption.
  intros tmp Htn. eapply Ha; eauto.
Qed.

Lemma runEach_fileCount env base ts : forall e w,
  contained_harness env -> harmless_minimizer env ->
  scratch_apart env base ->
  (fileCount base (fs w) <= fileCount base (fs (runEach env ts e w).2))%nat.
Proof.
  induction ts as [|t rest IH]; intros e w Hc Hh Ha; simpl; [lia|].
  pose proof (RunTarget_fileCount env e t w base Hc Hh Ha) as H1.
  destruct (RunTarget env e t w) as [[[err|r] e1] w1]; simpl in *;
    [exact H1|].
  etransitivity; [exact H1|]. now apply IH.
Qed.

End OutsideScratch.

Section CorpusMonotone.

Import Corpus Runner.

(** C3, as stated, fails: the engine [NewFuzzEngine] builds from the
    default configuration, which asks for no minimization anywhere, has
    the strategy ["coverage"]; its run of the example target succeeds, calls
    the minimizer, and leaves one file in the corpus tree where there were
    two. *)
Lemma corpus_count_counterexample :
  match NewFuzzEngine Config.Default [example_target] seeded_world with
  | (inr e, w) =>
      Minimization (CorpusManager e) = CoverageMinimization /\
      fileCount "./fuzz-corpus" (fs w) = 2%nat /\
      Success <$> result_of (Some (RunTarget pruning_minimizer e
                                     example_target w)) = Some true /\
      fileCount "./fuzz-corpus"
        (fs (RunTarget pruning_minimizer e example_target w).2) = 1%nat /\
      bool_decide
        (EvMinimize "FuzzDecode" "pkg/codec"
           "./fuzz-corpus/pkg_codec/FuzzDecode"
           ∈ trace (RunTarget pruning_minimizer e example_target w).2)
      = true
  | (inl _, _) => False
  end.
Proof. vm_compute. repeat split. Qed.

Lemma import_coverage_minimizes env m t src w :
  Minimization m = CoverageMinimization ->
  (copyPhase m t src w).1.1 = None ->
  exists dir rest,
    trace (ImportNewCorpusEntries env m t src w).2
    = EvMinimize (Discovery.Name t) (Discovery.Package t) dir :: rest.
Proof.
  intros Hcov. unfold ImportNewCorpusEntries, copyPhase.
  pose proof (GetTargetDir_strategy m t w) as Hm.
  pose proof (GetTargetDir_caches m t w) as Hc.
  destruct (GetTargetDir m t w) as [[targetDir m1] w1]. simpl in Hm, Hc.
  destruct (ReadDir src w1) as [[err|ents] w2]; simpl; [discriminate|].
  destruct (importEntries targetDir src ents w2) as [[err|] w3]; simpl;
    [discriminate|].
  intros _. rewrite Hm, Hcov. simpl.
  unfold Minimize. rewrite Hm, Hcov. simpl.
  rewrite (GetTargetDir_cached m1 t w3 targetDir Hc).
  destruct (run_minimize env _ _ _ _) as [f ok].
  exists targetDir, (trace w3). now destruct ok.
Qed.

(** C3, amended: the copy phase of an import only adds, so whenever the
    strategy is not ["coverage"] or the minimizer is quiet, an import,
    successful or failed, keeps every path with its node and the file
    count of any tree does not decrease.  Minimization is run by an import
    under the strategy ["coverage"] and under no other, and [Minimize] does
    nothing under ["none"]; but ["coverage"] is the strategy of every
    engine [NewFuzzEngine] builds, whatever the configuration, so every
    engine run whose copy phase succeeds runs the minimizer.  Across the
    runs of an engine the file count of the corpus tree is non-decreasing
    where the minimizer removes nothing, the harness stays inside its
    scratch directory and the scratch directories lie apart from the
    tree. *)
Theorem corpus_grows_up_to_minimization :
  (forall cfg ts w e w',
     NewFuzzEngine cfg ts w = (inr e, w') ->
     Minimization (CorpusManager e) = CoverageMinimization) /\
  (forall env m t src w base,
     copy_only env m ->
     fs w ⊆ fs (ImportNewCorpusEntries env m t src w).2 /\
     (fileCount base (fs w)
      <= fileCount base (fs (ImportNewCorpusEntries env m t src w).2))%nat) /\
  (forall env m t src w,
     Minimization m <> CoverageMinimization ->
     no_minimize_between w (ImportNewCorpusEntries env m t src w).2) /\
  (forall env m t src w,
     Minimization m = CoverageMinimization ->
     (copyPhase m t src w).1.1 = None ->
     exists dir rest,
       trace (ImportNewCorpusEntries env m t src w).2
       = EvMinimize (Discovery.Name t) (Discovery.Package t) dir :: rest) /\
  (forall env m t w,
     Minimization m = NoMinimization -> Minimize env m t w = (None, m, w)) /\
  (forall env base e w,
     contained_harness env -> harmless_minimizer env ->
     scratch_apart env base ->
     (forall t,
        (fileCount base (fs w)
         <= fileCount base (fs (RunTarget env e t w).2))%nat) /\
     (fileCount base (fs w) <= fileCount base (fs (RunAll env e w).2))%nat).
Proof.
  split; [|split; [|split; [|split; [|split]]]].
  - intros cfg ts w e w'. unfold NewFuzzEngine, NewCorpusManager.
    destruct (MkdirAll (Config.CorpusDir cfg) w) as [[err|] w1];
      [discriminate|].
    intros H. inversion H; subst. reflexivity.
  - intros env m t src w base Hco.
    destruct (import_is_copyPhase env m t src w Hco) as [_ Hfs].
    assert (Hsub : fs w ⊆ fs (ImportNewCorpusEntries env m t src w).2)
      by (rewrite Hfs; apply copyPhase_subseteq).
    split; [exact Hsub|now apply fileCount_mono].
  - intros env m t src w Hs. rewrite import_not_coverage by exact Hs.
    apply copyPhase_no_minimize.
  - intros env m t src w. apply import_coverage_minimizes.
  - intros env m t w H. unfold Minimize. now rewrite H.
  - intros env base e w Hc Hh Ha. split.
    + intros t. now apply RunTarget_fileCount.
    + unfold RunAll. now apply runEach_fileCount.
Qed.

(** The amended statement at the engine of the example configuration and
    at an import of the seed directory under the strategy ["none"]. *)
Lemma corpus_grows_up_to_minimization_witness :
  Minimization (CorpusManager example_engine) = CoverageMinimization /\
  let m := mkCorpusManager "corpus" ∅ NoMinimization in
  fs import_world
    ⊆ fs (ImportNewCorpusEntries pruning_minimizer m import_target "in1"
            import_world).2 /\
  (fileCount "corpus" (fs import_world)
   <= fileCount "corpus"
        (fs (ImportNewCorpusEntries pruning_minimizer m import_target "in1"
               import_world).2))%nat.
Proof.
  destruct corpus_grows_up_to_minimization as (H1 & H2 & _).
  split.
  - apply (H1 example_config [example_target] start_world example_engine
              started_world).
    vm_compute. reflexivity.
  - intros m. apply H2. left. discriminate.
Defined.

End CorpusMonotone.

(** * Properties of the commands, of discovery and of staging *)

(** ** Truncation for display *)

Section Truncation.

Import Fuzzctl.

(** X1.  [truncate(s, maxLen)] returns [s] itself when [s] has at most
    [maxLen] bytes.  When [s] is longer and [maxLen] is below three, the
    slice bound [maxLen-3] is negative and the function panics.  When [s]
    is longer and [maxLen] is at least three, the result has exactly
    [maxLen] bytes: the first [maxLen-3] bytes of [s] and three dots. *)
Theorem truncate_within_bound (s : string) (maxLen : Z) :
  (Z.of_nat (String.length s) <= maxLen -> truncate s maxLen = Some s) /\
  (maxLen < Z.of_nat (String.length s) -> maxLen < 3 ->
   truncate s maxLen = None) /\
  (maxLen < Z.of_nat (String.length s) -> 3 <= maxLen ->
   exists r,
     truncate s maxLen = Some r /\
     Z.of_nat (String.length r) = maxLen /\
     r = String.substring 0 (Z.to_nat (maxLen - 3)) s +:+ "...").
Proof.
  unfold truncate. repeat split.
  - intros H. destruct (Z.leb_spec (Z.of_nat (String.length s)) maxLen); [reflexivity|lia].
  - intros H H3. destruct (Z.leb_spec (Z.of_nat (String.length s)) maxLen); [lia|].
    destruct (Z.ltb_spec (maxLen - 3) 0); [reflexivity|lia].
  - intros H H3. destruct (Z.leb_spec (Z.of_nat (String.length s)) maxLen); [lia|].
    destruct (Z.ltb_spec (maxLen - 3) 0); [lia|].
    eexists. split; [reflexivity|]. split; [|reflexivity].
    rewrite length_append, length_substring_0.
    change (String.length "...") with 3%nat. lia.
Qed.

Lemma truncate_within_bound_witness :
  truncate "abcdefghij" 8 = Some "abcde..." /\ truncate "abcdefghij" 2 = None.
Proof.
  destruct (truncate_within_bound "abcdefghij" 8) as (_ & _ & H).
  destruct (truncate_within_bound "abcdefghij" 2) as (_ & H2 & _).
  split.
  - destruct H as (r & Hr & _ & ->); [simpl; lia | lia | exact Hr].
  - apply H2; simpl; lia.
Defined.

End Truncation.

(** ** The cache of target directories *)

Section CacheKeys.

Import Corpus.
#[local] Arguments Ascii.eqb : simpl never.

Lemma contains_byte_app c a b :
  Strings.contains_byte c (a +:+ b)
  = Strings.contains_byte c a || Strings.contains_byte c b.
Proof.
  induction a as [|x a IH]; simpl; [reflexivity|].
  rewrite IH. now rewrite orb_assoc.
Qed.

Lemma contains_byte_mid c a b :
  Strings.contains_byte c (a +:+ String c b) = true.
Proof.
  rewrite contains_byte_app. simpl. rewrite Ascii.eqb_refl.
  now rewrite orb_true_r.
Qed.

(** Splitting at the last occurrence of a byte is unique. *)
Lemma last_byte_inj c : forall d n d' n',
  Strings.contains_byte c n = false ->
  Strings.contains_byte c n' = false ->
  d +:+ String c n = d' +:+ String c n' -> d = d' /\ n = n'.
Proof.
  induction d as [|x d IH]; intros n [|x' d'] n' Hn Hn' H; simpl in H.
  - injection H as ->. now split.
  - injection H as <- ->. now rewrite contains_byte_mid in Hn.
  - injection H as -> <-. now rewrite contains_byte_mid in Hn'.
  - injection H as -> H. destruct (IH _ _ _ Hn Hn' H) as [-> ->]. now split.
Qed.

Lemma targetKey_inj (t1 t2 : Discovery.Target) :
  dotless (Discovery.Name t1) -> dotless (Discovery.Name t2) ->
  targetKey t1 = targetKey t2 ->
  Discovery.Package t1 = Discovery.Package t2 /\
  Discovery.Name t1 = Discovery.Name t2.
Proof.
  unfold targetKey, dotless. intros H1 H2 H.
  exact (last_byte_inj "."%char _ _ _ _ H1 H2 H).
Qed.

Lemma GetTargetDir_BaseDir m t w : BaseDir (GetTargetDir m t w).1.2 = BaseDir m.
Proof. unfold GetTargetDir. now destruct (TargetDirs m !! targetKey t). Qed.

Lemma GetTargetDir_wellCached m t w :
  dotless (Discovery.Name t) -> wellCached m ->
  wellCached (GetTargetDir m t w).1.2.
Proof.
  intros Ht Hm. unfold GetTargetDir.
  destruct (TargetDirs m !! targetKey t) eqn:E; simpl; [exact Hm|].
  intros k dir. simpl.
  destruct (decide (k = targetKey t)) as [->|Hk].
  - rewrite lookup_insert_eq. intros [= <-]. now exists t.
  - rewrite lookup_insert_ne by congruence. apply Hm.
Qed.

Lemma resolveAll_wellCached ts : forall m w,
  Forall (fun t => dotless (Discovery.Name t)) ts -> wellCached m ->
  wellCached (resolveAll ts m w).1 /\
  BaseDir (resolveAll ts m w).1 = BaseDir m.
Proof.
  induction ts as [|t ts IH]; intros m w Hts Hm; simpl; [now split|].
  inversion Hts as [|? ? Ht Hts']; subst.
  pose proof (GetTargetDir_wellCached m t w Ht Hm) as H1.
  pose proof (GetTargetDir_BaseDir m t w) as H2.
  destruct (GetTargetDir m t w) as [[dir m1] w1]. simpl in *.
  destruct (IH m1 w1 Hts' H1) as [H3 H4]. split; [exact H3|congruence].
Qed.

(** X2.  The cache of [GetTargetDir] never changes an answer: on a manager
    that started with an empty cache and has resolved any series of
    targets, the directory returned for a target is the one computed from
    the base directory, the package and the name of that very target,
    whether it comes from the cache or not.  Names are identifiers (they
    hold no dot), which makes the key [package.name] tell targets apart. *)
Theorem cache_is_transparent
    (baseDir : string) (strategy : MinimizationStrategy)
    (ts : list Discovery.Target) (t : Discovery.Target) (w : World) :
  Forall (fun t' => dotless (Discovery.Name t')) ts ->
  dotless (Discovery.Name t) ->
  let '(m, w') := resolveAll ts (mkCorpusManager baseDir ∅ strategy) w in
  (GetTargetDir m t w').1.1 = targetPath baseDir t.
Proof.
  intros Hts Ht.
  assert (H0 : wellCached (mkCorpusManager baseDir ∅ strategy)).
  { intros k dir. simpl. now rewrite lookup_empty. }
  destruct (resolveAll_wellCached ts _ w Hts H0) as [Hm Hb].
  destruct (resolveAll ts _ w) as [m w']. simpl in Hm, Hb.
  unfold GetTargetDir.
  destruct (TargetDirs m !! targetKey t) as [dir|] eqn:E; simpl.
  - destruct (Hm _ _ E) as (t' & Ht' & Hk & ->).
    destruct (targetKey_inj t t' Ht Ht' Hk) as [Hp Hn].
    unfold targetPath. now rewrite Hb, Hp, Hn.
  - unfold targetPath, sanitized. now rewrite Hb.
Qed.

Lemma cache_is_transparent_witness :
  let '(m, w') :=
    resolveAll [example_target2; example_target]
      (mkCorpusManager "corpus" ∅ NoMinimization) start_world in
  (GetTargetDir m example_target w').1.1 = "corpus/pkg_codec/FuzzDecode".
Proof.
  apply (cache_is_transparent "corpus" NoMinimization
           [example_target2; example_target] example_target start_world).
  - repeat constructor.
  - reflexivity.
Defined.

End CacheKeys.

(** ** Where a target directory lies *)

Section Layout.

Import Corpus.
#[local] Arguments Ascii.eqb : simpl never.

Lemma prefix_slash c s :
  String.prefix "/" (String c s) = Ascii.eqb "/"%char c.
Proof.
  change (String.prefix "/" (String c s))
    with (if ascii_dec "/" c then String.prefix "" s else false).
  destruct (ascii_dec "/" c) as [<-|Hc].
  - rewrite Ascii.eqb_refl. now destruct s.
  - symmetry. now apply Ascii.eqb_neq.
Qed.

Lemma sanitized_cons c s :
  sanitized (String c s)
  = String (if Ascii.eqb "/"%char c then "_"%char else c) (sanitized s).
Proof.
  unfold sanitized, Strings.ReplaceAll.
  change (Strings.replace_from 0 "/" "_" (String c s))
    with (if String.prefix "/" (String c s)
          then "_" +:+ Strings.replace_from 0 "/" "_" s
          else String c (Strings.replace_from 0 "/" "_" s)).
  rewrite prefix_slash. now destruct (Ascii.eqb "/"%char c).
Qed.

Lemma sanitized_no_separator s :
  Strings.contains_byte Separator (sanitized s) = false.
Proof.
  induction s as [|c s IH]; [reflexivity|].
  rewrite sanitized_cons. simpl. rewrite IH, orb_false_r.
  unfold Separator. destruct (Ascii.eqb "/"%char c) eqn:E; [reflexivity|exact E].
Qed.

Lemma sanitized_length s : String.length (sanitized s) = String.length s.
Proof.
  induction s as [|c s IH]; [reflexivity|].
  rewrite sanitized_cons. simpl. now rewrite IH.
Qed.

Lemma sanitized_nonempty s : s <> "" -> sanitized s <> "".
Proof.
  intros Hs E. apply (f_equal String.length) in E.
  rewrite sanitized_length in E. destruct s; [congruence|discriminate].
Qed.

Lemma sanitized_plain s :
  Strings.contains_byte Separator s = false -> sanitized s = s.
Proof.
  induction s as [|c s IH]; [reflexivity|]. simpl.
  intros H. apply orb_false_iff in H as [Hc Hs].
  rewrite sanitized_cons, (IH Hs). unfold Separator in Hc. now rewrite Hc.
Qed.

Lemma targetPath_eq baseDir t :
  baseDir <> "" -> Discovery.Package t <> "" -> Discovery.Name t <> "" ->
  targetPath baseDir t
  = (baseDir +:+ "/" +:+ sanitized (Discovery.Package t))
      +:+ "/" +:+ Discovery.Name t.
Proof.
  intros Hb Hp Hn. unfold targetPath, Join.
  pose proof (sanitized_nonempty _ Hp) as Hs.
  rewrite filter_cons_True by exact Hb.
  rewrite filter_cons_True by exact Hs.
  rewrite filter_cons_True by exact Hn.
  rewrite filter_nil. simpl. now rewrite append_assoc.
Qed.

Lemma mkdir_chain_is_dir p f f' :
  mkdir_chain (ancestors p) f = Some f' -> is_dir f' p = true.
Proof.
  unfold ancestors, is_dir. simpl.
  destruct (implicit_dir p) eqn:Hi; [reflexivity|]. simpl.
  destruct (f !! p) as [[|c]|] eqn:E.
  - intros [= <-]. now rewrite E.
  - discriminate.
  - destruct (bool_decide (p = "")); [discriminate|].
    destruct (mkdir_chain _ f) as [f1|]; [|discriminate].
    intros [= <-]. now rewrite lookup_insert_eq.
Qed.

Lemma clean_path_nonempty p : clean_path p -> p <> "".
Proof.
  intros H ->. unfold clean_path in H.
  change (Strings.Split "" "/") with [""] in H.
  apply Forall_cons in H as [[H _] _]. now apply H.
Qed.

(** X3.  The directory [GetTargetDir] computes for a target that is not
    cached lies exactly two levels below the base directory: it is
    [base/flat/name], where [flat] is the package path with every separator
    replaced (so it has none left, and the length of the package path);
    its last element is the name of the target and the parent of its
    parent is the base directory.  When [os.MkdirAll] succeeds on it, it is
    a directory afterwards.  This is stated for the paths on which the
    [filepath.Join] of the program, which cleans its result, returns the
    elements joined as they are: the base directory is a clean path, and
    [flat] and the name are elements that [filepath.Clean] keeps.  (A base
    directory such as [./fuzz-corpus] is not: there the program drops the
    leading [./].) *)
Theorem target_directory_layout
    (m : CorpusManager) (t : Discovery.Target) (w : World) :
  TargetDirs m !! targetKey t = None ->
  clean_path (BaseDir m) ->
  clean_element (sanitized (Discovery.Package t)) ->
  plain (Discovery.Name t) -> clean_element (Discovery.Name t) ->
  let '(dir, m1, w1) := GetTargetDir m t w in
  let flat := sanitized (Discovery.Package t) in
  dir = (BaseDir m +:+ "/" +:+ flat) +:+ "/" +:+ Discovery.Name t /\
  Strings.contains_byte Separator flat = false /\
  String.length flat = String.length (Discovery.Package t) /\
  Base dir = Discovery.Name t /\
  Dir dir = BaseDir m +:+ "/" +:+ flat /\
  Dir (Dir dir) = BaseDir m /\
  ((MkdirAll dir w).1 = None -> is_dir (fs w1) dir = true).
Proof.
  intros Hk Hclean Hflat0 [Hn Hsep] _.
  pose proof (clean_path_nonempty _ Hclean) as Hb.
  assert (Hp : Discovery.Package t <> "").
  { intros E. destruct Hflat0 as [Hf _]. apply Hf. now rewrite E. }
  unfold GetTargetDir. rewrite Hk.
  fold (sanitized (Discovery.Package t)). fold (targetPath (BaseDir m) t).
  rewrite (targetPath_eq _ _ Hb Hp Hn).
  pose proof (sanitized_no_separator (Discovery.Package t)) as Hflat.
  set (flat := sanitized (Discovery.Package t)) in *.
  set (dir := (BaseDir m +:+ "/" +:+ flat) +:+ "/" +:+ Discovery.Name t).
  assert (Hd : Dir dir = BaseDir m +:+ "/" +:+ flat).
  { unfold Dir, dir. rewrite (split_last_child _ _ Hsep).
    destruct (BaseDir m) eqn:E; [congruence|reflexivity]. }
  repeat split.
  - exact Hflat.
  - apply sanitized_length.
  - unfold Base, dir. now rewrite (split_last_child _ _ Hsep).
  - exact Hd.
  - rewrite Hd. unfold Dir. rewrite (split_last_child _ _ Hflat).
    destruct (BaseDir m) eqn:E; [congruence|reflexivity].
  - unfold MkdirAll. simpl.
    destruct (mkdir_chain (ancestors dir) (fs w)) as [f'|] eqn:E; simpl;
      [|discriminate].
    intros _. exact (mkdir_chain_is_dir _ _ _ E).
Qed.

Lemma target_directory_layout_witness :
  let '(dir, m1, w1) :=
    GetTargetDir (mkCorpusManager "corpus" ∅ NoMinimization)
      example_target start_world in
  dir = "corpus/pkg_codec/FuzzDecode" /\
  Dir (Dir dir) = "corpus" /\ is_dir (fs w1) dir = true.
Proof.
  pose proof (target_directory_layout
                (mkCorpusManager "corpus" ∅ NoMinimization)
                example_target start_world) as H.
  destruct (GetTargetDir _ example_target start_world) as [[dir m1] w1] eqn:E.
  destruct H as (H1 & _ & _ & _ & _ & H6 & H7).
  - reflexivity.
  - unfold clean_path. change (Strings.Split "corpus" "/") with ["corpus"].
    constructor; [repeat split; discriminate|constructor].
  - change (sanitized (Discovery.Package example_target)) with "pkg_codec".
    repeat split; discriminate.
  - split; [discriminate|reflexivity].
  - repeat split; discriminate.
  - split; [exact H1|]. split; [exact H6|]. apply H7.
    injection E as <- _ _. reflexivity.
Defined.

End Layout.

(** ** Cleaning up after a run *)

Section Cleanup.

Import Corpus Runner.

Lemma in_tree_scratch tmp sub rel :
  tmp <> "" -> sub <> "" ->
  in_tree tmp (Join [Join [tmp; sub]; rel]) = true.
Proof.
  intros Ht Hs. rewrite (Join_child tmp sub) by assumption.
  assert (Hd : tmp +:+ "/" +:+ sub <> "") by (destruct tmp; discriminate).
  destruct (decide (rel = "")) as [->|Hr].
  - rewrite Join_empty_last by exact Hd. apply in_tree_below.
  - rewrite Join_child by assumption.
    replace ((tmp +:+ "/" +:+ sub) +:+ "/" +:+ rel)
      with (tmp +:+ "/" +:+ (sub +:+ "/" +:+ rel)).
    + apply in_tree_below.
    + symmetry. rewrite append_assoc. reflexivity.
Qed.

Lemma RemoveAll_gone tmp w p :
  in_tree tmp p = true -> fs (RemoveAll tmp w).2 !! p = None.
Proof.
  intros Hp. unfold RemoveAll. simpl.
  apply map_lookup_filter_None. right. intros nd _. simpl. congruence.
Qed.

(** X4.  Once [os.MkdirTemp] has made the scratch directory, [RunTarget]
    leaves nothing of it behind, whatever it returns: no path at or below
    the scratch directory exists afterwards.  In particular every path a
    result lists in [CrashInputs] is gone by the time the caller sees the
    result. *)
Theorem scratch_is_removed
    (env : Env) (e : FuzzEngine) (t : Discovery.Target) (w w1 : World)
    (tempDir : string) :
  MkdirTemp env "" "fuzz-run-*" w = (inr tempDir, w1) ->
  (forall p, in_tree tempDir p = true ->
             fs (RunTarget env e t w).2 !! p = None) /\
  (forall r p,
     (RunTarget env e t w).1.1 = inr r -> p ∈ CrashInputs r ->
     fs (RunTarget env e t w).2 !! p = None).
Proof.
  intros Hmk.
  assert (Hgone : forall p, in_tree tempDir p = true ->
                            fs (RunTarget env e t w).2 !! p = None).
  { intros p Hp. unfold RunTarget. rewrite Hmk.
    destruct (runInTemp env e t tempDir w1) as [[r e1] w2]. simpl.
    now apply RemoveAll_gone. }
  split; [exact Hgone|].
  intros r p Hr Hin. apply Hgone.
  destruct (RunTarget env e t w) as [[o e'] w'] eqn:Erun. simpl in Hr.
  subst o.
  apply RunTarget_result in Erun
    as (tmp & w1' & e1 & w4 & Hmk' & Hne & _ & _ & _ & _ & _ & Hc & _).
  rewrite Hmk in Hmk'. injection Hmk' as <- <-.
  rewrite Hc in Hin.
  destruct (h_ok _); [now apply elem_of_nil in Hin|].
  rewrite collectCrashInputs_filter in Hin. simpl in Hin.
  apply list_elem_of_filter in Hin as [_ Hin].
  unfold globbed in Hin.
  destruct (is_dir _ _); [|now apply elem_of_nil in Hin].
  apply list_elem_of_fmap in Hin as (en & -> & _).
  apply in_tree_scratch; [exact Hne|discriminate].
Qed.

Lemma scratch_is_removed_witness :
  let env := crashing_harness ["c1"; "c1.output"; "c2"] in
  (CrashInputs <$> result_of (example_run env)
   = Some ["/tmp/fuzz-run-1/crashers/c1"; "/tmp/fuzz-run-1/crashers/c2"]) /\
  fs (RunTarget env example_engine example_target started_world).2
    !! "/tmp/fuzz-run-1/crashers/c1" = None.
Proof.
  intros env. split; [vm_compute; reflexivity|].
  refine (proj1 (scratch_is_removed env example_engine example_target
                   started_world
                   (MkdirTemp env "" "fuzz-run-*" started_world).2
                   "/tmp/fuzz-run-1" _) _ _).
  - vm_compute. reflexivity.
  - vm_compute. reflexivity.
Defined.

End Cleanup.

(** ** The shape of results *)

Section ResultInvariants.

Import Corpus Runner.

(** X5.  Every result [RunAll] appends is the result of one of the
    engine's targets, has [Coverage] zero, and either reports a failure or
    carries neither an error message nor crash inputs. *)
Theorem results_are_well_formed
    (env : Env) (e : FuzzEngine) (w : World) :
  exists new,
    Results (RunAll env e w).1.2 = (Results e ++ new)%list /\
    Forall (fun r =>
              Target r ∈ Targets e /\ Coverage r = Float64.zero /\
              (Success r = false \/
               (ErrorMessage r = "" /\ CrashInputs r = []))) new.
Proof.
  unfold RunAll. generalize (Targets e) as ts. intros ts. revert e w.
  induction ts as [|t rest IH]; intros e w; simpl.
  - exists []. rewrite app_nil_r. auto.
  - pose proof (RunTarget_engine env e t w) as (_ & _ & Hres).
    destruct (RunTarget env e t w) as [[[err|r] e1] w1] eqn:Erun;
      simpl in Hres.
    + exists []. simpl. rewrite app_nil_r. auto.
    + destruct (IH {| Config := Config e1; Targets := Targets e1;
                      CorpusManager := CorpusManager e1;
                      Results := Results e1 ++ [r] |} w1)
        as (new & Hn1 & Hn2).
      simpl in Hn1. exists (r :: new).
      split; [rewrite Hn1, Hres, <- app_assoc; reflexivity|].
      apply RunTarget_result in Erun
        as (? & ? & ? & ? & _ & _ & _ & Ht & _ & Hs & Hm & Hc & Hcov).
      constructor.
      * split; [rewrite Ht; apply list_elem_of_here|]. split; [exact Hcov|].
        rewrite Hs, Hm, Hc. destruct (h_ok _); auto.
      * eapply Forall_impl; [exact Hn2|]. simpl.
        intros r' (H1 & H2). split; [now apply list_elem_of_further|exact H2].
Qed.

End ResultInvariants.

(** ** Starts of the harness *)

Section HarnessStarts.

Import Corpus Runner.

Lemma starts_record ev w :
  harness_starts (record ev w)
  = if is_fuzz ev then ev :: harness_starts w else harness_starts w.
Proof.
  unfold harness_starts, record. simpl.
  destruct (is_fuzz ev) eqn:E.
  - now rewrite filter_cons_True.
  - rewrite filter_cons_False; [reflexivity|]. congruence.
Qed.

Lemma starts_set_fs f w : harness_starts (set_fs f w) = harness_starts w.
Proof. reflexivity. Qed.

Lemma starts_MkdirAll p w : harness_starts (MkdirAll p w).2 = harness_starts w.
Proof.
  unfold MkdirAll. simpl.
  now destruct (mkdir_chain (ancestors p) (fs w)).
Qed.

Lemma starts_MkdirTemp env d pat w :
  harness_starts (MkdirTemp env d pat w).2 = harness_starts w.
Proof.
  unfold MkdirTemp. simpl.
  destruct (temp_name env (fs w)) as [p|]; [|reflexivity].
  now destruct (_ || _).
Qed.

Lemma starts_RemoveAll p w : harness_starts (RemoveAll p w).2 = harness_starts w.
Proof. reflexivity. Qed.

Lemma starts_ReadDir d w : harness_starts (ReadDir d w).2 = harness_starts w.
Proof. unfold ReadDir. simpl. now destruct (_ && _). Qed.

Lemma starts_GlobAll d w : harness_starts (GlobAll d w).2 = harness_starts w.
Proof. unfold GlobAll. simpl. now destruct (is_dir _ _). Qed.

Lemma starts_copyFile src dst w :
  harness_starts (Corpus.copyFile src dst w).2 = harness_starts w.
Proof.
  unfold Corpus.copyFile. simpl.
  destruct (negb _); [reflexivity|].
  destruct (_ || _); [reflexivity|]. simpl.
  now destruct (_ !! src) as [[|c]|].
Qed.

Lemma starts_GetTargetDir m t w :
  harness_starts (GetTargetDir m t w).2 = harness_starts w.
Proof.
  unfold GetTargetDir. destruct (TargetDirs m !! targetKey t); [reflexivity|].
  simpl. apply starts_MkdirAll.
Qed.

Lemma starts_Minimize env m t w :
  harness_starts (Minimize env m t w).2 = harness_starts w.
Proof.
  unfold Minimize. destruct (bool_decide _); [reflexivity|].
  pose proof (starts_GetTargetDir m t w) as H.
  destruct (GetTargetDir m t w) as [[d m1] w1]. simpl in *.
  destruct (run_minimize env _ _ _ _) as [f ok].
  now destruct ok.
Qed.

Lemma starts_importEntries targetDir src ents : forall w,
  harness_starts (importEntries targetDir src ents w).2 = harness_starts w.
Proof.
  induction ents as [|en rest IH]; intros w; simpl; [reflexivity|].
  destruct (de_isdir en); [apply IH|].
  unfold Stat. simpl.
  destruct (path_exists _ _).
  - now rewrite IH.
  - match goal with
    | |- context [Corpus.copyFile ?a ?b ?w0] =>
        pose proof (starts_copyFile a b w0) as H;
        destruct (Corpus.copyFile a b w0) as [[err|] w2]
    end; simpl in *.
    + exact H.
    + now rewrite IH.
Qed.

Lemma starts_Import env m t src w :
  harness_starts (ImportNewCorpusEntries env m t src w).2 = harness_starts w.
Proof.
  unfold ImportNewCorpusEntries.
  pose proof (starts_GetTargetDir m t w) as H1.
  destruct (GetTargetDir m t w) as [[d m1] w1]. simpl in H1.
  pose proof (starts_ReadDir src w1) as H2.
  destruct (ReadDir src w1) as [[err|ents] w2]; simpl in H2; simpl;
    [congruence|].
  pose proof (starts_importEntries d src ents w2) as H3.
  destruct (importEntries d src ents w2) as [[err|] w3]; simpl in H3; simpl;
    [congruence|].
  destruct (bool_decide _); simpl; [|congruence].
  pose proof (starts_Minimize env m1 t w3) as H4.
  destruct (Minimize env m1 t w3) as [[[err|] m2] w4]; simpl in *; congruence.
Qed.

Lemma starts_copyVisit src dst path w :
  harness_starts (copyVisit src dst path w).2 = harness_starts w.
Proof.
  unfold copyVisit.
  destruct (if bool_decide (path = src) then _ else _) as [rel|];
    [|reflexivity].
  match goal with
  | |- context [MkdirAll ?p w] =>
      pose proof (starts_MkdirAll p w) as H;
      destruct (MkdirAll p w) as [[err|] w1]
  end; simpl in *; [exact H|].
  unfold copyFile. now rewrite starts_copyFile.
Qed.

Lemma starts_walkVisit src dst found : forall w,
  harness_starts (walkVisit src dst found w).2 = harness_starts w.
Proof.
  induction found as [|[path [|c]] rest IH]; intros w; simpl;
    [reflexivity|apply IH|].
  pose proof (starts_copyVisit src dst path w) as H.
  destruct (copyVisit src dst path w) as [[err|] w1]; simpl in *;
    [exact H|].
  now rewrite IH.
Qed.

Lemma starts_copyDir src dst w :
  harness_starts (copyDir src dst w).2 = harness_starts w.
Proof.
  unfold copyDir. simpl.
  destruct (fs w !! src) as [[|c]|].
  - now rewrite starts_walkVisit.
  - now rewrite starts_copyVisit.
  - destruct (implicit_dir src); [now rewrite starts_walkVisit|reflexivity].
Qed.

Lemma starts_stage e t tmp w :
  harness_starts (stage e t tmp w).2 = harness_starts w.
Proof.
  unfold stage.
  pose proof (starts_GetTargetDir (CorpusManager e) t w) as H1.
  destruct (GetTargetDir (CorpusManager e) t w) as [[d m1] w1]. simpl in H1.
  pose proof (starts_MkdirAll (Join [tmp; "corpus"]) w1) as H2.
  destruct (MkdirAll (Join [tmp; "corpus"]) w1) as [[err|] w2];
    simpl in *; [congruence|].
  pose proof (starts_copyDir d (Join [tmp; "corpus"]) w2) as H3.
  destruct (copyDir d (Join [tmp; "corpus"]) w2) as [[err|] w3];
    simpl in *; [congruence|].
  pose proof (starts_MkdirAll (Join [tmp; "crashers"]) w3) as H4.
  destruct (MkdirAll (Join [tmp; "crashers"]) w3) as [[err|] w4];
    simpl in *; congruence.
Qed.

Lemma stage_config e t tmp w :
  Config (stage e t tmp w).1.2 = Config e.
Proof.
  unfold stage.
  destruct (GetTargetDir (CorpusManager e) t w) as [[d m] wa].
  destruct (MkdirAll (Join [tmp; "corpus"]) wa) as [[c|] wb]; [reflexivity|].
  destruct (copyDir d (Join [tmp; "corpus"]) wb) as [[c|] wc]; [reflexivity|].
  now destruct (MkdirAll (Join [tmp; "crashers"]) wc) as [[c|] wd].
Qed.

Lemma getTargetDuration_config e1 e2 t :
  Config e1 = Config e2 -> getTargetDuration e1 t = getTargetDuration e2 t.
Proof. unfold getTargetDuration. now intros ->. Qed.

(** A run that returns a result has started the harness once, on the
    command line of the target. *)
Lemma starts_RunTarget env e t w :
  match (RunTarget env e t w).1.1 with
  | inr _ =>
      exists ev,
        harness_starts (RunTarget env e t w).2 = ev :: harness_starts w /\
        start_args ev = command_line e t
  | inl _ => True
  end.
Proof.
  unfold RunTarget.
  pose proof (starts_MkdirTemp env "" "fuzz-run-*" w) as H0.
  destruct (MkdirTemp env "" "fuzz-run-*" w) as [[c|tmp] w1]; simpl in H0;
    [exact I|].
  rewrite runInTemp_unfold.
  pose proof (starts_stage e t tmp w1) as H1.
  pose proof (stage_config e t tmp w1) as Hc.
  destruct (stage e t tmp w1) as [[[c|] e1] w4]; simpl in H1, Hc; [exact I|].
  simpl.
  match goal with
  | |- context [ImportNewCorpusEntries env ?m t ?s ?w0] =>
      pose proof (starts_Import env m t s w0) as H2;
      destruct (ImportNewCorpusEntries env m t s w0) as [[[c|] cm2] w8]
  end; simpl in *; [exact I|].
  eexists. split.
  - rewrite starts_set_fs, starts_record. simpl is_fuzz. cbv iota.
    rewrite starts_ReadDir, H2.
    match goal with
    | |- context [classify ?run ?d ?w5] =>
        assert (Hcl : harness_starts (classify run d w5).2
                      = harness_starts w5)
    end.
    { unfold classify. destruct (h_ok _); [reflexivity|].
      match goal with
      | |- context [GlobAll ?d ?w0] =>
          pose proof (starts_GlobAll d w0) as Hg;
          destruct (GlobAll d w0) as [[c|cr] w']
      end; exact Hg. }
    rewrite Hcl, starts_record. simpl. rewrite H1, H0. reflexivity.
  - unfold command_line. simpl.
    now rewrite (getTargetDuration_config e1 e t Hc), Hc.
Qed.

Lemma starts_runEach env ts : forall e w e' w',
  runEach env ts e w = (None, e', w') ->
  map start_args (harness_starts w')
  = (rev (map (command_line e) ts) ++ map start_args (harness_starts w))%list.
Proof.
  induction ts as [|t rest IH]; intros e w e' w' H; simpl in H.
  - injection H as <- <-. reflexivity.
  - pose proof (starts_RunTarget env e t w) as Hs.
    pose proof (RunTarget_engine env e t w) as (Hc & _ & _).
    destruct (RunTarget env e t w) as [[[err|r] e1] w1]; [discriminate|].
    simpl in Hs, Hc. destruct Hs as (ev & Hs1 & Hs2).
    apply IH in H. rewrite H, Hs1. simpl.
    rewrite <- app_assoc. simpl. rewrite Hs2.
    match goal with
    | |- context [map (command_line ?e2) rest] =>
        replace (map (command_line e2) rest) with (map (command_line e) rest)
    end; [reflexivity|].
    apply map_ext. intros t'. unfold command_line. simpl.
    rewrite (getTargetDuration_config e e1 t') by congruence.
    rewrite Hc. f_equal. f_equal. f_equal.
    now apply getTargetDuration_config.
Qed.

(** X6.  A [RunAll] that returns no error has started the harness in
    fuzzing mode exactly once for every target, in the order of the
    targets, each time with the name and the package of the target, the
    time budget [getTargetDuration] computes for it and the configured
    parallelism. *)
Theorem one_harness_start_per_target
    (env : Env) (e : FuzzEngine) (w : World) :
  (RunAll env e w).1.1 = None ->
  map start_args (harness_starts (RunAll env e w).2)
  = (rev (map (command_line e) (Targets e))
       ++ map start_args (harness_starts w))%list.
Proof.
  intros H. destruct (RunAll env e w) as [[o e'] w'] eqn:E.
  simpl in H. subst o. exact (starts_runEach env _ _ _ _ _ E).
Qed.

Lemma one_harness_start_per_target_witness :
  let env := crashing_harness ["c1"] in
  (RunAll env two_target_engine started_world).1.1 = None /\
  map start_args
    (harness_starts (RunAll env two_target_engine started_world).2)
  = [ Some ("FuzzEncode", "pkg/codec", 150000000000, 4);
      Some ("FuzzDecode", "pkg/codec", 150000000000, 4) ].
Proof.
  intros env. split; [vm_compute; reflexivity|].
  rewrite (one_harness_start_per_target env two_target_engine started_world)
    by (vm_compute; reflexivity).
  vm_compute. reflexivity.
Defined.

End HarnessStarts.

(** ** The run command *)

Section RunCommand.

Import Corpus Runner Fuzzctl.

Lemma runConfig_budget flags args (e : FuzzEngine) t :
  0 <= time flags < 2 ^ 53 ->
  Config e = runConfig flags args ->
  command_line e t = flagged_line flags t.
Proof.
  intros Ht Hc. unfold command_line, flagged_line, getTargetDuration.
  rewrite Hc. simpl.
  fold (scaled (time flags) Float64.one).
  destruct (decide (Discovery.Package t = "default")) as [->|Hp].
  - rewrite lookup_singleton_eq. fold (scaled (time flags) Float64.one).
    now rewrite scaled_one_small.
  - rewrite lookup_singleton_ne by congruence.
    rewrite lookup_singleton_eq. simpl.
    fold (scaled (time flags) Float64.one).
    now rewrite scaled_one_small.
Qed.

Lemma runConfig_options flags args :
  {| Discovery.RootDir := Config.RootDir (runConfig flags args);
     Discovery.Patterns := Config.Packages (runConfig flags args);
     Discovery.ChangedOnly := Config.ChangedOnly (runConfig flags args);
     Discovery.GitRef := Config.GitRef (runConfig flags args) |}
  = runOptions flags args.
Proof. unfold runOptions. now destruct args. Qed.

(** X7.  The run command never changes the time allocation of the default
    configuration, which gives every package the share one: when the
    command returns no error, it has discovered with the flags and
    arguments it was given (the pattern [./...] without arguments), its
    results are those of the discovered targets in order, and the harness
    was started once per discovered target with the whole of [--time] as
    [-fuzztime] and [--parallel] as [-parallel].  The duration is below
    2^53 nanoseconds, where the conversions to and from float64 are
    exact. *)
Theorem run_command_spends_full_time
    (tools : Discovery.Tools) (cmds : Discovery.Commands) (env : Env)
    (flags : RunFlags) (args : list string) (w : World) (e' : FuzzEngine) :
  0 <= time flags < 2 ^ 53 ->
  (runE tools cmds env flags args w).1 = inr e' ->
  exists targets,
    Discovery.DiscoverTargets tools cmds (runOptions flags args)
    = inr targets /\
    map Target (Results e') = targets /\
    map start_args (harness_starts (runE tools cmds env flags args w).2)
    = (rev (map (flagged_line flags) targets)
         ++ map start_args (harness_starts w))%list.
Proof.
  intros Ht. unfold runE. rewrite runConfig_options.
  destruct (Discovery.DiscoverTargets tools cmds (runOptions flags args))
    as [err|targets]; [discriminate|].
  unfold NewFuzzEngine, NewCorpusManager.
  pose proof (starts_MkdirAll (Config.CorpusDir (runConfig flags args)) w)
    as H0.
  destruct (MkdirAll _ w) as [[err|] w1]; [discriminate|]. simpl in H0.
  match goal with
  | |- context [RunAll env ?e0 w1] => set (e := e0)
  end.
  destruct (RunAll env e w1) as [[[err|] e1] w2] eqn:E; [discriminate|].
  simpl. intros [= <-]. exists targets. split; [reflexivity|].
  pose proof (runEach_results env (Targets e) e w1) as (new & Hn1 & Hn2 & Hn3).
  unfold RunAll in E. rewrite E in Hn1, Hn3. simpl in Hn1, Hn3.
  split.
  - rewrite Hn1, Hn2. simpl. rewrite Hn3. apply firstn_all.
  - rewrite (starts_runEach env _ _ _ _ _ E), H0. simpl.
    f_equal. f_equal. apply map_ext. intros t.
    now apply (runConfig_budget flags args).
Qed.

Lemma run_command_spends_full_time_witness :
  let env := crashing_harness ["c1"] in
  let r := runE (tools_with [decl_FuzzFoo]) example_commands env
             default_flags [] start_world in
  exists e',
    r.1 = inr e' /\ map Success (Results e') = [false] /\
    map start_args (harness_starts r.2)
    = [ Some ("FuzzFoo", "example.com/foo", 5 * Config.Minute, 4) ].
Proof.
  intros env r. eexists. split; [vm_compute; reflexivity|].
  split; [vm_compute; reflexivity|].
  destruct (run_command_spends_full_time (tools_with [decl_FuzzFoo])
              example_commands env default_flags [] start_world _
              ltac:(vm_compute; split; congruence)
              ltac:(vm_compute; reflexivity))
    as (targets & Hd & _ & Hs).
  unfold r. rewrite Hs.
  vm_compute in Hd. injection Hd as <-. vm_compute. reflexivity.
Defined.

End RunCommand.

(** ** The configurations for LND *)

Section LndShares.

Import Corpus Runner Lnd.
#[local] Arguments Ascii.eqb : simpl never.

Lemma lnd_allocation_miss pkg :
  Strings.contains_byte Separator pkg = true ->
  Config.TimeAllocation ConfigureForLND !! pkg = None /\
  Config.TimeAllocation ConfigureForLND !! "default" = Some five_hundredths.
Proof.
  intros H. split; [|reflexivity].
  unfold ConfigureForLND. simpl.
  repeat rewrite lookup_insert_ne by (intros <-; discriminate).
  apply lookup_singleton_ne. intros <-. discriminate.
Qed.

(** X8.  The time allocation of [ConfigureForLND] is keyed by short names
    ([lnwire], [brontide], [tlv]), and the engine looks the package of a
    target up as it is.  A target whose package is an import path (it holds
    a separator) therefore gets the share under [default], 0.05: fifteen
    seconds of the five minutes of [ConfigureForLND] and of
    [GetContinuousIntegrationConfig], ninety seconds of the thirty minutes
    of [GetScheduledFuzzingConfig]; the two minutes of the share 0.4 go to
    a package named [lnwire] only. *)
Theorem lnd_shares_miss_import_paths
    (e : FuzzEngine) (t : Discovery.Target) :
  Config.TimeAllocation (Config e) = Config.TimeAllocation ConfigureForLND ->
  Strings.contains_byte Separator (Discovery.Package t) = true ->
  getTargetDuration e t
  = scaled (Config.FuzzTime (Config e)) five_hundredths /\
  scaled (Config.FuzzTime ConfigureForLND) five_hundredths
  = 15 * Config.Second /\
  scaled (Config.FuzzTime GetContinuousIntegrationConfig) five_hundredths
  = 15 * Config.Second /\
  scaled (Config.FuzzTime GetScheduledFuzzingConfig) five_hundredths
  = 90 * Config.Second /\
  scaled (Config.FuzzTime ConfigureForLND) four_tenths
  = 2 * Config.Minute.
Proof.
  intros Ha Hp. split; [|now vm_compute].
  destruct (lnd_allocation_miss _ Hp) as [H1 H2].
  unfold getTargetDuration. rewrite Ha, H1, H2. reflexivity.
Qed.

Lemma lnd_shares_miss_import_paths_witness :
  getTargetDuration (engine_on GetScheduledFuzzingConfig [lnwire_target])
    lnwire_target
  = 90 * Config.Second.
Proof.
  destruct (lnd_shares_miss_import_paths
              (engine_on GetScheduledFuzzingConfig [lnwire_target])
              lnwire_target) as (H & _ & _ & H90 & _).
  - reflexivity.
  - reflexivity.
  - rewrite H. exact H90.
Defined.

End LndShares.

(** ** Copying a file *)

Section CopyFile.

Import Corpus Runner.

(** A copy that succeeds between two paths changes the destination
    alone, which then holds the bytes of the source. *)
Lemma copyFile_ok_fs src dst w w' :
  Corpus.copyFile src dst w = (None, w') -> src <> dst ->
  exists c, fs w !! src = Some (FileNode c) /\
            fs w' = <[dst := FileNode c]> (fs w).
Proof.
  unfold Corpus.copyFile. simpl.
  destruct (negb (path_exists (fs w) src)); [discriminate|].
  destruct (_ || _); [discriminate|]. simpl.
  intros H Hne. rewrite lookup_insert_ne in H by congruence.
  destruct (fs w !! src) as [[|c]|]; try discriminate.
  injection H as <-. exists c. split; [reflexivity|]. simpl.
  apply insert_insert_eq.
Qed.

(** X9.  [copyFile(src, dst)]: when it succeeds, the source was a regular
    file and the file system differs from the one before in the
    destination alone, which holds the bytes of the source; copying a file
    onto itself succeeds and leaves it empty.  When it fails, either
    nothing has changed, or the source exists without being a regular file
    and an empty destination file is left behind. *)
Theorem copyFile_contract (src dst : string) (w : World) :
  match Corpus.copyFile src dst w with
  | (None, w') =>
      exists c,
        fs w !! src = Some (FileNode c) /\
        fs w' = <[dst := FileNode (if bool_decide (src = dst) then "" else c)]>
                  (fs w)
  | (Some err, w') =>
      fs w' = fs w \/
      (path_exists (fs w) src = true /\
       (forall c, fs w !! src <> Some (FileNode c)) /\
       fs w' = <[dst := FileNode ""]> (fs w))
  end.
Proof.
  unfold Corpus.copyFile. simpl.
  destruct (path_exists (fs w) src) eqn:Hex; simpl; [|now left].
  destruct (bool_decide (dst = "") || is_dir (fs w) dst
            || negb (is_dir (fs w) (Dir dst))) eqn:Hcr; [now left|]. simpl.
  destruct (decide (src = dst)) as [->|Hne].
  - rewrite lookup_insert_eq.
    apply orb_false_iff in Hcr as [Hcr _].
    apply orb_false_iff in Hcr as [_ Hd].
    unfold is_dir in Hd. apply orb_false_iff in Hd as [Hi Hd].
    unfold path_exists in Hex. rewrite Hi in Hex. simpl in Hex.
    destruct (fs w !! dst) as [[|c]|] eqn:Es; try discriminate.
    exists c. split; [reflexivity|].
    rewrite bool_decide_eq_true_2 by reflexivity. apply insert_insert_eq.
  - rewrite lookup_insert_ne by congruence.
    destruct (fs w !! src) as [[|c]|] eqn:Es; simpl.
    + right. now repeat split.
    + exists c. split; [reflexivity|].
      rewrite bool_decide_eq_false_2 by exact Hne. apply insert_insert_eq.
    + right. now repeat split.
Qed.

End CopyFile.

(** ** What an import adds *)

Section ImportFaithful.

Import Corpus Runner.

(** Making directories adds directories only. *)
Lemma mkdir_chain_files chain : forall f f' k c,
  mkdir_chain chain f = Some f' ->
  f' !! k = Some (FileNode c) -> f !! k = Some (FileNode c).
Proof.
  induction chain as [|p rest IH]; intros f f' k c H Hk; simpl in H.
  - now injection H as <-.
  - destruct (f !! p) as [[|c']|] eqn:E.
    + now injection H as <-.
    + discriminate.
    + destruct (bool_decide (p = "")); [discriminate|].
      destruct (mkdir_chain rest f) as [f1|] eqn:E1; [|discriminate].
      injection H as <-.
      destruct (decide (k = p)) as [->|Hne].
      * rewrite lookup_insert_eq in Hk. discriminate.
      * rewrite lookup_insert_ne in Hk by congruence. eauto.
Qed.

Lemma MkdirAll_files p w k c :
  fs (MkdirAll p w).2 !! k = Some (FileNode c) ->
  fs w !! k = Some (FileNode c).
Proof.
  unfold MkdirAll. simpl.
  destruct (mkdir_chain (ancestors p) (fs w)) as [f'|] eqn:E; simpl;
    [|trivial].
  exact (mkdir_chain_files _ _ _ _ _ E).
Qed.

Lemma GetTargetDir_files m t w k c :
  fs (GetTargetDir m t w).2 !! k = Some (FileNode c) ->
  fs w !! k = Some (FileNode c).
Proof.
  unfold GetTargetDir. destruct (TargetDirs m !! targetKey t); [trivial|].
  simpl. apply MkdirAll_files.
Qed.

(** Every node a successful series of imports adds is the copy of a
    regular file of the source directory. *)
Lemma importEntries_faithful targetDir src ents : forall w w',
  (forall e, e ∈ ents -> path_exists (fs w) (Join [src; de_name e]) = true) ->
  importEntries targetDir src ents w = (None, w') ->
  forall k nd,
    fs w' !! k = Some nd ->
    fs w !! k = Some nd \/
    exists e c, e ∈ ents /\ de_isdir e = false /\
                k = Join [targetDir; de_name e] /\ nd = FileNode c /\
                fs w !! Join [src; de_name e] = Some (FileNode c).
Proof.
  induction ents as [|en rest IH]; intros w w' Hsrc H k nd Hk; simpl in H.
  - injection H as <-. now left.
  - assert (Hrest : forall e, e ∈ rest ->
              path_exists (fs w) (Join [src; de_name e]) = true)
      by (intros e He; apply Hsrc; now apply list_elem_of_further).
    destruct (de_isdir en) eqn:Hd.
    + destruct (IH w w' Hrest H k nd Hk) as [?|(e & c & He & ?)];
        [now left|].
      right. exists e, c. split; [now apply list_elem_of_further|assumption].
    + unfold Stat in H. simpl in H.
      destruct (path_exists (fs w) (Join [targetDir; de_name en])) eqn:Hex.
      * destruct (IH (record _ w) w' Hrest H k nd Hk) as [?|(e & c & He & ?)];
          [now left|].
        right. exists e, c.
        split; [now apply list_elem_of_further|assumption].
      * set (srcPath := Join [src; de_name en]) in *.
        set (dstPath := Join [targetDir; de_name en]) in *.
        set (w0 := record (EvStat dstPath) w) in *.
        assert (Hne : srcPath <> dstPath).
        { intros E. pose proof (Hsrc en (list_elem_of_here _ _)) as Hs.
          fold srcPath in Hs. rewrite E in Hs. congruence. }
        destruct (Corpus.copyFile srcPath dstPath w0) as [[err|] w2] eqn:Ecp;
          [discriminate|].
        destruct (copyFile_ok_fs _ _ _ _ Ecp Hne) as (c & Hc1 & Hc2).
        simpl in Hc1, Hc2.
        assert (Hrest2 : forall e, e ∈ rest ->
                  path_exists (fs w2) (Join [src; de_name e]) = true).
        { intros e He. rewrite Hc2.
          eapply path_exists_weaken; [|exact (Hrest e He)].
          apply insert_subseteq. now apply path_exists_false. }
        destruct (IH w2 w' Hrest2 H k nd Hk)
          as [Hold|(e & c' & He & Hd' & Hk' & Hnd & Hs)].
        -- rewrite Hc2 in Hold.
           destruct (decide (k = dstPath)) as [->|Hkd].
           ++ rewrite lookup_insert_eq in Hold. injection Hold as <-.
              right. exists en, c.
              split; [apply list_elem_of_here|]. auto.
           ++ rewrite lookup_insert_ne in Hold by congruence. now left.
        -- right. exists e, c'.
           split; [now apply list_elem_of_further|].
           repeat split; try assumption.
           rewrite Hc2 in Hs.
           destruct (decide (Join [src; de_name e] = dstPath)) as [Eq|Hkd].
           ++ pose proof (Hrest e He) as Hx. rewrite Eq in Hx. congruence.
           ++ now rewrite lookup_insert_ne in Hs by congruence.
Qed.

(** X10.  An import that succeeds (and whose minimization step, if any,
    changes nothing) adds regular files only as copies: every regular file
    that exists afterwards was there before with the same bytes, or it
    lies in the directory of the target under the name of a regular file
    that lay directly in the source directory, with the bytes of that
    file.  Nothing from below a sub-directory of the source is imported. *)
Theorem import_copies_faithfully
    (env : Env) (m m1 : Corpus.CorpusManager) (t : Discovery.Target)
    (src : string) (w w1 : World) :
  copy_only env m ->
  ImportNewCorpusEntries env m t src w = (None, m1, w1) ->
  forall k c,
    fs w1 !! k = Some (FileNode c) ->
    fs w !! k = Some (FileNode c) \/
    exists name,
      plain name /\
      k = Join [(GetTargetDir m t w).1.1; name] /\
      fs w !! (src +:+ "/" +:+ name) = Some (FileNode c).
Proof.
  intros Hco Himp k c Hk.
  destruct (import_is_copyPhase env m t src w Hco) as [He Hf].
  rewrite Himp in He, Hf. simpl in He, Hf.
  rewrite Hf in Hk. clear Hf Himp.
  unfold copyPhase in *.
  pose proof (GetTargetDir_files m t w) as Hg.
  destruct (GetTargetDir m t w) as [[targetDir m'] wa]. simpl in *.
  unfold ReadDir in *. simpl in *.
  destruct (negb (bool_decide (src = "")) && is_dir (fs wa) src) eqn:Hrd;
    [|discriminate].
  apply andb_true_iff in Hrd as [Hs _].
  apply negb_true_iff, bool_decide_eq_false in Hs.
  set (wb := record (EvReadDir src) wa) in *.
  destruct (importEntries targetDir src (entries (fs wa) src) wb)
    as [err w3] eqn:Ei.
  simpl in He, Hk. injection He as <- _.
  assert (Hsrc : forall e, e ∈ entries (fs wa) src ->
            path_exists (fs wb) (Join [src; de_name e]) = true).
  { intros e Hin. apply elem_of_entries in Hin as (nd & Hl & [Hn _] & _).
    rewrite Join_child by assumption.
    unfold path_exists. simpl. rewrite Hl. apply orb_true_r. }
  destruct (importEntries_faithful _ _ _ _ _ Hsrc Ei k _ Hk)
    as [Hold|(e & c' & Hin & Hd & -> & [= <-] & Hc)].
  - left. apply Hg. exact Hold.
  - right. exists (de_name e).
    apply elem_of_entries in Hin as (nd & Hl & Hp & _).
    split; [exact Hp|]. split; [reflexivity|].
    destruct Hp as [Hn _]. rewrite Join_child in Hc by assumption.
    apply Hg. exact Hc.
Qed.

Lemma import_copies_faithfully_witness :
  let m := mkCorpusManager "corpus" ∅ NoMinimization in
  let r := ImportNewCorpusEntries failing_minimizer m import_target "in1"
             import_world in
  r.1.1 = None /\
  fs r.2 !! seed_path = Some (FileNode "AAA") /\
  (fs import_world !! seed_path = Some (FileNode "AAA") \/
   exists name,
     plain name /\
     seed_path = Join [(GetTargetDir m import_target import_world).1.1; name] /\
     fs import_world !! ("in1" +:+ "/" +:+ name) = Some (FileNode "AAA")).
Proof.
  intros m r. split; [vm_compute; reflexivity|].
  split; [vm_compute; reflexivity|].
  apply (import_copies_faithfully failing_minimizer m r.1.2 import_target
           "in1" import_world r.2).
  - left. discriminate.
  - vm_compute. reflexivity.
  - vm_compute. reflexivity.
Defined.

End ImportFaithful.

(** ** Copying a directory *)

Section CopyDir.

Import Corpus Runner.

Lemma below_child d rel : rel <> "" -> below d (d +:+ "/" +:+ rel) = true.
Proof.
  intros Hr. unfold below. rewrite <- append_slash, strip_prefix_app.
  now rewrite bool_decide_eq_false_2.
Qed.

Lemma child_not_self d rel : d +:+ "/" +:+ rel <> d.
Proof.
  intros E. apply (f_equal String.length) in E.
  rewrite length_child in E. lia.
Qed.

Lemma elem_of_descendants f root p nd :
  (p, nd) ∈ descendants f root <-> f !! p = Some nd /\ below root p = true.
Proof.
  unfold descendants. rewrite elem_of_sort_by, list_elem_of_filter.
  rewrite elem_of_map_to_list. simpl. tauto.
Qed.

Lemma below_Some d p :
  below d p = true -> exists rel, rel <> "" /\ p = d +:+ "/" +:+ rel.
Proof.
  unfold below.
  destruct (strip_prefix (d +:+ "/") p) as [rel|] eqn:E; [|discriminate].
  intros H. apply negb_true_iff, bool_decide_eq_false in H.
  apply strip_prefix_Some in E. exists rel. split; [exact H|].
  now rewrite E, append_slash.
Qed.

Lemma copyVisit_child src dst rel w :
  dst <> "" -> rel <> "" ->
  copyVisit src dst (src +:+ "/" +:+ rel) w =
  match MkdirAll (Dir (placed dst rel)) w with
  | (Some err, w1) => (Some err, w1)
  | (None, w1) => Corpus.copyFile (src +:+ "/" +:+ rel) (placed dst rel) w1
  end.
Proof.
  intros Hd Hr. unfold copyVisit, placed.
  rewrite bool_decide_eq_false_2 by apply child_not_self.
  rewrite <- (append_slash src rel), strip_prefix_app.
  destruct (bool_decide (rel = ".")); [reflexivity|].
  now rewrite Join_child.
Qed.

Lemma in_tree_self d : in_tree d d = true.
Proof. unfold in_tree. now rewrite bool_decide_eq_true_2. Qed.

Lemma in_tree_placed dst rel : in_tree dst (placed dst rel) = true.
Proof.
  unfold placed. destruct (bool_decide (rel = "."));
    [apply in_tree_self|apply in_tree_below].
Qed.

Section Walk.

Variables src dst : string.
Variable w : World.
Hypothesis dst_nonempty : dst <> "".
Hypothesis apart : forall p, in_tree dst p = true -> in_tree src p = false.

Lemma copyVisit_step rel c w0 w1 :
  rel <> "" ->
  fs w !! (src +:+ "/" +:+ rel) = Some (FileNode c) ->
  sources_kept src w w0 ->
  copyVisit src dst (src +:+ "/" +:+ rel) w0 = (None, w1) ->
  sources_kept src w w1 /\
  fs w1 !! placed dst rel = Some (FileNode c) /\
  forall k nd,
    k <> placed dst rel -> fs w0 !! k = Some nd -> fs w1 !! k = Some nd.
Proof.
  intros Hr Hsrc Hkept Hv.
  rewrite copyVisit_child in Hv by assumption.
  set (path := src +:+ "/" +:+ rel) in *.
  set (dstPath := placed dst rel) in *.
  assert (Hin : in_tree src path = true) by apply in_tree_below.
  assert (Hdin : in_tree dst dstPath = true) by apply in_tree_placed.
  pose proof (MkdirAll_subseteq (Dir dstPath) w0) as Hsub.
  destruct (MkdirAll (Dir dstPath) w0) as [[err|] wm]; [discriminate|].
  simpl in Hsub.
  assert (Hne : path <> dstPath).
  { intros E. rewrite E in Hin. rewrite apart in Hin; congruence. }
  assert (Hother : forall k, k <> dstPath -> fs w1 !! k = fs wm !! k).
  { intros k Hk. pose proof (copyFile_other path dstPath wm k Hk) as Ho.
    now rewrite Hv in Ho. }
  split; [|split].
  - intros p nd Hp Hl. rewrite Hother.
    + eapply lookup_weaken; [apply Hkept; eassumption|exact Hsub].
    + intros ->. rewrite apart in Hp; congruence.
  - eapply copyFile_ok_content; [exact Hv| |exact Hne].
    eapply lookup_weaken; [apply Hkept; eassumption|exact Hsub].
  - intros k nd Hk Hl. rewrite Hother by exact Hk.
    eapply lookup_weaken; [exact Hl|exact Hsub].
Qed.

Lemma walkVisit_copies found : forall w0 w',
  (forall p nd, (p, nd) ∈ found ->
                fs w !! p = Some nd /\ below src p = true) ->
  sources_kept src w w0 ->
  walkVisit src dst found w0 = (None, w') ->
  sources_kept src w w' /\
  forall rel c,
    rel <> "" -> rel <> "." ->
    fs w !! (src +:+ "/" +:+ rel) = Some (FileNode c) ->
    (src +:+ "/" +:+ rel, FileNode c) ∈ found \/
    fs w0 !! (dst +:+ "/" +:+ rel) = Some (FileNode c) ->
    fs w' !! (dst +:+ "/" +:+ rel) = Some (FileNode c).
Proof.
  induction found as [|[path [|c0]] rest IH]; intros w0 w' Hf Hkept Hw;
    simpl in Hw.
  - injection Hw as <-. split; [exact Hkept|].
    intros rel c _ _ _ [Hin|H]; [now apply elem_of_nil in Hin|exact H].
  - assert (Hf' : forall p nd, (p, nd) ∈ rest ->
                fs w !! p = Some nd /\ below src p = true)
      by (intros p nd Hin; apply Hf; now apply list_elem_of_further).
    destruct (IH w0 w' Hf' Hkept Hw) as [Hk' Hc']. split; [exact Hk'|].
    intros rel c Hr Hdot Hs [Hin|H]; apply (Hc' rel c Hr Hdot Hs).
    + apply elem_of_cons in Hin as [[=]|Hin]. now left.
    + now right.
  - assert (Hf' : forall p nd, (p, nd) ∈ rest ->
                fs w !! p = Some nd /\ below src p = true)
      by (intros p nd Hin; apply Hf; now apply list_elem_of_further).
    destruct (Hf path (FileNode c0) (list_elem_of_here _ _)) as [Hp0 Hb0].
    apply below_Some in Hb0 as (rel0 & Hr0 & ->).
    destruct (copyVisit src dst (src +:+ "/" +:+ rel0) w0)
      as [[err|] w1] eqn:Hv; [discriminate|].
    destruct (copyVisit_step rel0 c0 w0 w1 Hr0 Hp0 Hkept Hv)
      as (Hk1 & Hput & Hst).
    destruct (IH w1 w' Hf' Hk1 Hw) as [Hk' Hc']. split; [exact Hk'|].
    intros rel c Hr Hdot Hs Hor. apply (Hc' rel c Hr Hdot Hs).
    assert (Hhead : rel = rel0 ->
                    fs w1 !! (dst +:+ "/" +:+ rel) = Some (FileNode c)).
    { intros <-. rewrite Hs in Hp0. injection Hp0 as <-.
      unfold placed in Hput.
      now rewrite bool_decide_eq_false_2 in Hput by exact Hdot. }
    destruct Hor as [Hin|H].
    + apply elem_of_cons in Hin as [[= E _]|Hin]; [|now left].
      right. apply Hhead. apply append_cancel in E. now injection E.
    + right. destruct (decide (dst +:+ "/" +:+ rel = placed dst rel0))
        as [E|Hne].
      * unfold placed in E. destruct (bool_decide (rel0 = ".")).
        -- exfalso. now apply (child_not_self dst rel).
        -- apply Hhead. apply append_cancel in E. now injection E.
      * now apply Hst.
Qed.

End Walk.

(** The copy of a directory holds every regular file of the source under
    the same relative path, and the source is as it was. *)
Lemma copyDir_copies (src dst : string) (w : World) :
  dst <> "" ->
  fs w !! src = Some DirNode ->
  (forall p, in_tree dst p = true -> in_tree src p = false) ->
  (copyDir src dst w).1 = None ->
  forall rel c,
    rel <> "" -> rel <> "." ->
    fs w !! (src +:+ "/" +:+ rel) = Some (FileNode c) ->
    fs (copyDir src dst w).2 !! (dst +:+ "/" +:+ rel) = Some (FileNode c) /\
    fs (copyDir src dst w).2 !! (src +:+ "/" +:+ rel) = Some (FileNode c).
Proof.
  intros Hd Hsrc Hapart Hcopy rel c Hr Hdot Hfile.
  destruct (copyDir src dst w) as [o w'] eqn:E. simpl in Hcopy. subst o.
  simpl. unfold copyDir in E. simpl in E. rewrite Hsrc in E.
  destruct (walkVisit_copies src dst w Hd Hapart (descendants (fs w) src)
              (record (EvWalk src) w) w') as [Hk Hc].
  - intros p nd Hin. now apply elem_of_descendants in Hin.
  - intros p nd _ H. exact H.
  - exact E.
  - split.
    + apply Hc; try assumption. left. apply elem_of_descendants.
      split; [exact Hfile|now apply below_child].
    + apply Hk; [apply in_tree_below|exact Hfile].
Qed.

(** X11.  [copyDir(src, dst)] of a directory [src] into a place apart from
    it: when it succeeds, every regular file below [src], at any depth, is
    found under the same relative path below [dst] with the same bytes,
    and is still where it was. *)
Theorem copyDir_reproduces_files (src dst : string) (w : World) :
  dst <> "" ->
  fs w !! src = Some DirNode ->
  (forall p, in_tree dst p = true -> in_tree src p = false) ->
  (copyDir src dst w).1 = None ->
  forall rel c,
    rel <> "" -> rel <> "." ->
    fs w !! (src +:+ "/" +:+ rel) = Some (FileNode c) ->
    fs (copyDir src dst w).2 !! (dst +:+ "/" +:+ rel) = Some (FileNode c) /\
    fs (copyDir src dst w).2 !! (src +:+ "/" +:+ rel) = Some (FileNode c).
Proof.
  intros Hd Hsrc Hapart Hcopy rel c Hr Hdot Hfile.
  destruct (copyDir src dst w) as [o w'] eqn:E. simpl in Hcopy. subst o.
  simpl. unfold copyDir in E. simpl in E. rewrite Hsrc in E.
  destruct (walkVisit_copies src dst w Hd Hapart (descendants (fs w) src)
              (record (EvWalk src) w) w') as [Hk Hc].
  - intros p nd Hin. now apply elem_of_descendants in Hin.
  - intros p nd _ H. exact H.
  - exact E.
  - split.
    + apply Hc; try assumption. left. apply elem_of_descendants.
      split; [exact Hfile|now apply below_child].
    + apply Hk; [apply in_tree_below|exact Hfile].
Qed.

Lemma first_byte_apart (a b : ascii) (d s p : string) :
  a <> b -> in_tree (String a d) p = true -> in_tree (String b s) p = false.
Proof.
  intros Hab. unfold in_tree. destruct p as [|c p].
  - rewrite bool_decide_eq_false_2 by discriminate. simpl. discriminate.
  - intros H.
    assert (Hc : c = a).
    { apply orb_true_iff in H as [H|H].
      - apply bool_decide_eq_true in H. now injection H.
      - simpl in H. destruct (Ascii.eqb_spec a c); [congruence|discriminate]. }
    subst c. rewrite bool_decide_eq_false_2 by congruence. simpl.
    destruct (Ascii.eqb_spec b a); [congruence|reflexivity].
Qed.

Lemma copyDir_reproduces_files_witness :
  (copyDir "c" "t" tree_world).1 = None /\
  fs (copyDir "c" "t" tree_world).2 !! "t/sub/b" = Some (FileNode "B") /\
  fs (copyDir "c" "t" tree_world).2 !! "c/sub/b" = Some (FileNode "B").
Proof.
  split; [vm_compute; reflexivity|].
  apply (copyDir_reproduces_files "c" "t" tree_world).
  - discriminate.
  - reflexivity.
  - intros p. apply first_byte_apart. discriminate.
  - vm_compute. reflexivity.
  - discriminate.
  - discriminate.
  - reflexivity.
Defined.

End CopyDir.

(** ** Discovery, package by package *)

Section DiscoveryFacts.

Import Discovery.

Lemma findEach_ok tools pkgs : forall acc,
  Forall (searchable tools) pkgs ->
  findEach tools pkgs acc = inr (acc ++ concat (map (found tools) pkgs))%list.
Proof.
  induction pkgs as [|pkg rest IH]; intros acc H; simpl.
  - now rewrite app_nil_r.
  - inversion H as [|? ? [ts Hts] Hrest]; subst.
    unfold found at 1. rewrite Hts. rewrite (IH _ Hrest).
    now rewrite <- app_assoc.
Qed.

Lemma findEach_fail tools good bad rest cause : forall acc,
  Forall (searchable tools) good ->
  findTargetsInPackage tools bad = inl cause ->
  findEach tools (good ++ bad :: rest) acc = inl (FindTargetsFailed bad cause).
Proof.
  induction good as [|pkg good IH]; intros acc H Hbad; simpl.
  - now rewrite Hbad.
  - inversion H as [|? ? [ts Hts] Hgood]; subst.
    rewrite Hts. now apply IH.
Qed.

(** X12.  [DiscoverTargets] without the changed-only filter returns the
    targets of the listed packages, package by package in the order
    [go list] printed them (a package listed twice gives its targets
    twice).  The first package whose search fails ends the discovery with
    the error of that package, and no target is returned, whatever the
    packages before it held. *)
Theorem discovery_in_order_and_fail_fast
    (tools : Tools) (cmds : Commands) (rootDir gitRef : string)
    (patterns pkgs : list string) :
  listPackages cmds rootDir patterns = Some pkgs ->
  (Forall (searchable tools) pkgs ->
   DiscoverTargets tools cmds (options rootDir patterns false gitRef)
   = inr (concat (map (found tools) pkgs))) /\
  (forall good bad rest cause,
     pkgs = (good ++ bad :: rest)%list ->
     Forall (searchable tools) good ->
     findTargetsInPackage tools bad = inl cause ->
     forall changedOnly,
       DiscoverTargets tools cmds (options rootDir patterns changedOnly gitRef)
       = inl (FindTargetsFailed bad cause)).
Proof.
  intros Hl. unfold DiscoverTargets. simpl. rewrite Hl. split.
  - intros Hok. now rewrite (findEach_ok tools pkgs [] Hok).
  - intros good bad rest cause -> Hgood Hbad changedOnly.
    now rewrite (findEach_fail tools good bad rest cause [] Hgood Hbad).
Qed.

Lemma discovery_in_order_and_fail_fast_witness :
  DiscoverTargets (tools_with [decl_FuzzFoo; decl_FuzzBar]) example_commands
    (options "." ["./..."; "./..."] false "HEAD~1")
  = inr (concat (map (found (tools_with [decl_FuzzFoo; decl_FuzzBar]))
                   ["example.com/foo"; "example.com/foo"])) /\
  length (concat (map (found (tools_with [decl_FuzzFoo; decl_FuzzBar]))
                    ["example.com/foo"; "example.com/foo"])) = 4%nat.
Proof.
  split; [|vm_compute; reflexivity].
  apply (discovery_in_order_and_fail_fast
           (tools_with [decl_FuzzFoo; decl_FuzzBar]) example_commands
           "." "HEAD~1" ["./..."; "./..."]
           ["example.com/foo"; "example.com/foo"]).
  - vm_compute. reflexivity.
  - repeat constructor; eexists; vm_compute; reflexivity.
Defined.

Lemma keepChanged_ok cmds gitRef ts : forall acc,
  Forall (fun t => HasChangedSince cmds t gitRef <> None) ts ->
  keepChanged cmds gitRef ts acc
  = inr (acc ++ filter (fun t => HasChangedSince cmds t gitRef = Some true)
                  ts)%list.
Proof.
  induction ts as [|t rest IH]; intros acc H; simpl.
  - now rewrite app_nil_r.
  - inversion H as [|? ? Ht Hrest]; subst.
    destruct (HasChangedSince cmds t gitRef) as [[|]|] eqn:E;
      [| |congruence].
    + rewrite filter_cons_True by exact E.
      rewrite (IH _ Hrest), <- app_assoc. reflexivity.
    + rewrite filter_cons_False by (rewrite E; discriminate). now apply IH.
Qed.

Lemma keepChanged_fail cmds gitRef ts : forall acc,
  Exists (fun t => HasChangedSince cmds t gitRef = None) ts ->
  keepChanged cmds gitRef ts acc = inl CheckChangesFailed.
Proof.
  induction ts as [|t rest IH]; intros acc H; simpl.
  - inversion H.
  - destruct (HasChangedSince cmds t gitRef) as [[|]|] eqn:E; [| |reflexivity];
      apply IH; inversion H; subst; congruence.
Qed.

Lemma HasChangedSince_file cmds gitRef t1 t2 :
  FilePath t1 = FilePath t2 ->
  HasChangedSince cmds t1 gitRef = HasChangedSince cmds t2 gitRef.
Proof. unfold HasChangedSince. now intros ->. Qed.

(** X13.  With [ChangedOnly] set, [DiscoverTargets] returns, in the same
    order, those of the targets it returns without it for whose file
    [git diff] printed something.  A [git diff] that fails for any one of
    the targets fails the whole discovery.  Targets of one file are kept
    or dropped together. *)
Theorem changed_only_filters_by_file
    (tools : Tools) (cmds : Commands) (rootDir gitRef : string)
    (patterns : list string) (all : list Target) :
  DiscoverTargets tools cmds (options rootDir patterns false gitRef)
  = inr all ->
  let filtered :=
    DiscoverTargets tools cmds (options rootDir patterns true gitRef) in
  (Forall (fun t => git_diff cmds gitRef (FilePath t) <> None) all ->
   filtered
   = inr (filter (fun t => HasChangedSince cmds t gitRef = Some true) all)) /\
  (Exists (fun t => git_diff cmds gitRef (FilePath t) = None) all ->
   filtered = inl CheckChangesFailed) /\
  (forall kept t1 t2,
     filtered = inr kept -> t1 ∈ all -> t2 ∈ all ->
     FilePath t1 = FilePath t2 -> t1 ∈ kept -> t2 ∈ kept).
Proof.
  unfold DiscoverTargets. simpl.
  destruct (listPackages cmds rootDir patterns) as [pkgs|]; [|discriminate].
  destruct (findEach tools pkgs []) as [err|ts]; [discriminate|].
  intros [= ->].
  assert (Hnone : forall t, HasChangedSince cmds t gitRef = None <->
                            git_diff cmds gitRef (FilePath t) = None).
  { intros t. unfold HasChangedSince.
    destruct (git_diff cmds gitRef (FilePath t)); split; congruence. }
  split; [|split].
  - intros H. rewrite (keepChanged_ok cmds gitRef all []); [reflexivity|].
    eapply Forall_impl; [exact H|]. intros t Ht Hn. now apply Hnone in Hn.
  - intros H. apply keepChanged_fail.
    eapply Exists_impl; [exact H|]. intros t Ht. now apply Hnone.
  - intros kept t1 t2 Hk H1 H2 Hf Hin.
    destruct (decide (Exists (fun t => HasChangedSince cmds t gitRef = None)
                        all)) as [Hex|Hall].
    + rewrite (keepChanged_fail cmds gitRef all [] Hex) in Hk. discriminate.
    + apply not_Exists_Forall in Hall; [|intros t; apply _].
      rewrite (keepChanged_ok cmds gitRef all [] Hall) in Hk.
      injection Hk as <-. simpl in *.
      apply list_elem_of_filter in Hin as [Hc _].
      apply list_elem_of_filter. split; [|exact H2].
      now rewrite <- (HasChangedSince_file cmds gitRef t1 t2 Hf).
Qed.

Lemma changed_only_filters_by_file_witness :
  let tools := tools_with [decl_FuzzFoo; decl_FuzzBar] in
  exists all,
    DiscoverTargets tools foo_changed (options "." ["./..."] false "HEAD~1")
    = inr all /\ length all = 2%nat /\
    DiscoverTargets tools foo_changed (options "." ["./..."] true "HEAD~1")
    = inr (filter (fun t => HasChangedSince foo_changed t "HEAD~1" = Some true)
             all).
Proof.
  intros tools. eexists. split; [vm_compute; reflexivity|].
  split; [reflexivity|].
  apply (changed_only_filters_by_file tools foo_changed "." "HEAD~1" ["./..."]).
  - vm_compute. reflexivity.
  - repeat constructor; discriminate.
Defined.

End DiscoveryFacts.

(** ** What is discovered *)

Section DiscoveredTargets.

Import Discovery.

Lemma picked_Some decl fd :
  picked decl = Some fd ->
  decl = Ast.FuncDeclNode fd /\ Strings.HasPrefix (Ast.Name fd) "Fuzz" = true.
Proof.
  destruct decl as [fd'| |]; simpl; try discriminate.
  destruct (Strings.HasPrefix (Ast.Name fd') "Fuzz") eqn:E; simpl;
    [|discriminate].
  destruct (hasFuzzParameter fd'); [|discriminate].
  intros [= <-]. now split.
Qed.

Lemma scanFiles_targets tools pkg files : forall acc ts t,
  scanFiles tools pkg files acc = inr ts -> t ∈ ts ->
  t ∈ acc \/
  (Package t = pkg /\ FilePath t ∈ files /\
   is_Some (parse_file tools (FilePath t)) /\
   Strings.HasPrefix (Name t) "Fuzz" = true /\ FuncName t = Name t).
Proof.
  induction files as [|file rest IH]; intros acc ts t H Hin; simpl in H.
  - injection H as <-. now left.
  - destruct (parse_file tools file) as [parsed|] eqn:Ep; [|discriminate].
    rewrite scanDecls_spec in H.
    destruct (IH _ _ _ H Hin) as [Hacc|(H1 & H2 & H3)].
    + apply elem_of_app in Hacc as [Hacc|Hnew]; [now left|].
      right. apply list_elem_of_fmap in Hnew as (fd & -> & Hfd).
      apply list_elem_of_omap in Hfd as (decl & _ & Hp).
      apply picked_Some in Hp as [_ Hp]. simpl.
      split; [reflexivity|]. split; [apply list_elem_of_here|].
      split; [now rewrite Ep|]. now split.
    + right. split; [exact H1|]. split; [now apply list_elem_of_further|].
      exact H3.
Qed.

Lemma findEach_targets tools pkgs : forall acc ts t,
  findEach tools pkgs acc = inr ts -> t ∈ ts ->
  t ∈ acc \/
  (Package t ∈ pkgs /\ is_Some (parse_file tools (FilePath t)) /\
   Strings.HasPrefix (Name t) "Fuzz" = true /\ FuncName t = Name t).
Proof.
  induction pkgs as [|pkg rest IH]; intros acc ts t H Hin; simpl in H.
  - injection H as <-. now left.
  - destruct (findTargetsInPackage tools pkg) as [err|found] eqn:Ef;
      [discriminate|].
    destruct (IH _ _ _ H Hin) as [Hacc|(H1 & H2)].
    + apply elem_of_app in Hacc as [Hacc|Hnew]; [now left|].
      right. unfold findTargetsInPackage in Ef.
      destruct (go_list_dir tools pkg); [|discriminate].
      destruct (glob_test_files tools _) as [files|]; [|discriminate].
      destruct (scanFiles_targets _ _ _ _ _ _ Ef Hnew)
        as [Hnil|(Hp & _ & Hrest)]; [now apply elem_of_nil in Hnil|].
      split; [rewrite Hp; apply list_elem_of_here|exact Hrest].
    + right. split; [now apply list_elem_of_further|exact H2].
Qed.

Lemma collectLines_lines lines : forall acc p,
  p ∈ collectLines lines acc ->
  p ∈ acc \/
  (p <> "" /\ exists line, line ∈ lines /\ p = Strings.TrimSpace line).
Proof.
  induction lines as [|line rest IH]; intros acc p H; simpl in H;
    [now left|].
  destruct (bool_decide (Strings.TrimSpace line <> "")) eqn:E.
  - apply bool_decide_eq_true in E.
    destruct (IH _ _ H) as [Hacc|(Hp & l & Hl & ->)].
    + apply elem_of_app in Hacc as [Hacc|Hnew]; [now left|].
      apply list_elem_of_singleton in Hnew as ->. right.
      split; [exact E|]. exists line. split; [apply list_elem_of_here|easy].
    + right. split; [exact Hp|]. exists l.
      split; [now apply list_elem_of_further|reflexivity].
  - destruct (IH _ _ H) as [Hacc|(Hp & l & Hl & ->)]; [now left|].
    right. split; [exact Hp|]. exists l.
    split; [now apply list_elem_of_further|reflexivity].
Qed.

Lemma listEach_lines cmds rootDir patterns : forall acc pkgs p,
  listEach cmds rootDir patterns acc = Some pkgs -> p ∈ pkgs ->
  p ∈ acc \/
  (p <> "" /\
   exists pattern output line,
     pattern ∈ patterns /\ go_list cmds rootDir pattern = Some output /\
     line ∈ Strings.Split output Strings.line_feed /\
     p = Strings.TrimSpace line).
Proof.
  induction patterns as [|pattern rest IH]; intros acc pkgs p H Hin;
    simpl in H.
  - injection H as <-. now left.
  - destruct (go_list cmds rootDir pattern) as [output|] eqn:Eg;
      [|discriminate].
    destruct (IH _ _ _ H Hin) as [Hacc|(Hp & pat & out & l & H1 & H2)].
    + apply collectLines_lines in Hacc as [Hacc|(Hp & l & Hl & ->)];
        [now left|].
      right. split; [exact Hp|]. exists pattern, output, l.
      split; [apply list_elem_of_here|]. now repeat split.
    + right. split; [exact Hp|]. exists pat, out, l.
      split; [now apply list_elem_of_further|exact H2].
Qed.

Lemma keepChanged_kept cmds gitRef ts : forall acc kept t,
  keepChanged cmds gitRef ts acc = inr kept -> t ∈ kept ->
  t ∈ acc \/ (t ∈ ts /\ HasChangedSince cmds t gitRef = Some true).
Proof.
  induction ts as [|t0 rest IH]; intros acc kept t H Hin; simpl in H.
  - injection H as <-. now left.
  - destruct (HasChangedSince cmds t0 gitRef) as [[|]|] eqn:E;
      [| |discriminate].
    + destruct (IH _ _ _ H Hin) as [Hacc|[H1 H2]].
      * apply elem_of_app in Hacc as [Hacc|Hnew]; [now left|].
        apply list_elem_of_singleton in Hnew as ->. right.
        split; [apply list_elem_of_here|exact E].
      * right. split; [now apply list_elem_of_further|exact H2].
    + destruct (IH _ _ _ H Hin) as [Hacc|[H1 H2]]; [now left|].
      right. split; [now apply list_elem_of_further|exact H2].
Qed.

(** X14.  Every target [DiscoverTargets] returns has as its package a
    non-empty, trimmed line of the output of [go list] for one of the
    patterns, lies in a file that was parsed, has a name that starts with
    [Fuzz] and a [FuncName] equal to its name, and, under [ChangedOnly],
    was reported as changed. *)
Theorem discovered_targets_are_fuzz_functions
    (tools : Tools) (cmds : Commands) (opts : DiscoveryOptions)
    (ts : list Target) (t : Target) :
  DiscoverTargets tools cmds opts = inr ts -> t ∈ ts ->
  Package t <> "" /\
  (exists pattern output line,
     pattern ∈ Patterns opts /\
     go_list cmds (RootDir opts) pattern = Some output /\
     line ∈ Strings.Split output Strings.line_feed /\
     Package t = Strings.TrimSpace line) /\
  is_Some (parse_file tools (FilePath t)) /\
  Strings.HasPrefix (Name t) "Fuzz" = true /\
  FuncName t = Name t /\
  (ChangedOnly opts = false \/
   HasChangedSince cmds t (GitRef opts) = Some true).
Proof.
  unfold DiscoverTargets, listPackages.
  destruct (listEach cmds (RootDir opts) (Patterns opts) []) as [pkgs|] eqn:El;
    [|discriminate].
  destruct (findEach tools pkgs []) as [err|all] eqn:Ef; [discriminate|].
  intros H Hin.
  assert (Hall : t ∈ all /\
                 (ChangedOnly opts = false \/
                  HasChangedSince cmds t (GitRef opts) = Some true)).
  { destruct (ChangedOnly opts).
    - destruct (keepChanged_kept _ _ _ _ _ _ H Hin) as [Hnil|[H1 H2]];
        [now apply elem_of_nil in Hnil|]. split; [exact H1|now right].
    - injection H as <-. split; [exact Hin|now left]. }
  destruct Hall as [Hall Hch].
  destruct (findEach_targets _ _ _ _ _ Ef Hall) as [Hnil|(Hp & H1 & H2 & H3)];
    [now apply elem_of_nil in Hnil|].
  destruct (listEach_lines _ _ _ _ _ _ El Hp) as [Hnil|(Hne & Hline)];
    [now apply elem_of_nil in Hnil|].
  repeat split; assumption.
Qed.

Lemma discovered_targets_are_fuzz_functions_witness :
  let t := {| Package := "example.com/foo"; Name := "FuzzFoo";
              FilePath := "/src/foo/foo_test.go"; FuncName := "FuzzFoo";
              Description := "finds foo bugs" +:+ newline |} in
  Strings.HasPrefix (Name t) "Fuzz" = true /\
  HasChangedSince foo_changed t "HEAD~1" = Some true.
Proof.
  intros t.
  destruct (discovered_targets_are_fuzz_functions
              (tools_with [decl_NotAFuzzFunc; decl_FuzzFoo]) foo_changed
              (options "." ["./..."] true "HEAD~1") [t] t)
    as (_ & _ & _ & H1 & _ & [H2|H2]).
  - vm_compute. reflexivity.
  - apply list_elem_of_here.
  - discriminate.
  - split; assumption.
Defined.

End DiscoveredTargets.

(** ** Listing packages *)

Section ListPackages.

Import Discovery.

Lemma collectLines_app lines : forall acc,
  collectLines lines acc = (acc ++ collectLines lines [])%list.
Proof.
  induction lines as [|line rest IH]; intros acc; simpl.
  - now rewrite app_nil_r.
  - destruct (bool_decide _); [|apply IH].
    rewrite (IH (acc ++ _)%list), (IH [_]). now rewrite <- app_assoc.
Qed.

Lemma listEach_app cmds rootDir patterns : forall acc,
  listEach cmds rootDir patterns acc
  = (fun pkgs => acc ++ pkgs)%list <$> listEach cmds rootDir patterns [].
Proof.
  induction patterns as [|pattern rest IH]; intros acc; simpl.
  - now rewrite app_nil_r.
  - destruct (go_list cmds rootDir pattern) as [output|]; [|reflexivity].
    rewrite (IH (collectLines _ acc)), (IH (collectLines _ [])).
    rewrite (collectLines_app _ acc).
    destruct (listEach cmds rootDir rest []) as [pkgs|]; simpl; [|reflexivity].
    now rewrite <- app_assoc.
Qed.

Lemma listEach_split cmds rootDir ps1 ps2 : forall acc,
  listEach cmds rootDir (ps1 ++ ps2) acc
  = match listEach cmds rootDir ps1 acc with
    | Some pkgs => listEach cmds rootDir ps2 pkgs
    | None => None
    end.
Proof.
  induction ps1 as [|pattern rest IH]; intros acc; simpl; [reflexivity|].
  destruct (go_list cmds rootDir pattern) as [output|]; [|reflexivity].
  apply IH.
Qed.

(** X15.  [listPackages] works pattern by pattern: the packages of a list
    of patterns are the packages of its first part followed by those of
    its second part, duplicates included, and the list fails as soon as
    one of the two parts does. *)
Theorem listPackages_concatenates
    (cmds : Commands) (rootDir : string) (ps1 ps2 : list string) :
  listPackages cmds rootDir (ps1 ++ ps2)
  = match listPackages cmds rootDir ps1, listPackages cmds rootDir ps2 with
    | Some pkgs1, Some pkgs2 => Some (pkgs1 ++ pkgs2)%list
    | _, _ => None
    end.
Proof.
  unfold listPackages. rewrite listEach_split.
  destruct (listEach cmds rootDir ps1 []) as [pkgs1|]; [|reflexivity].
  rewrite listEach_app.
  now destruct (listEach cmds rootDir ps2 []).
Qed.

End ListPackages.

(** ** Selecting targets to minimize *)

Section SelectTargets.

Import Corpus Fuzzctl.

Lemma matchArgs_spec t args : forall acc,
  matchArgs t args acc
  = (acc ++ replicate (length (filter (names t) args)) t)%list.
Proof.
  induction args as [|arg rest IH]; intros acc; simpl.
  - now rewrite app_nil_r.
  - destruct (bool_decide (Discovery.Package t = arg)
              || bool_decide (targetKey t = arg)) eqn:E.
    + rewrite filter_cons_True.
      * rewrite IH, <- app_assoc. reflexivity.
      * apply orb_true_iff in E as [E|E]; apply bool_decide_eq_true in E;
          [now left|now right].
    + rewrite filter_cons_False; [apply IH|].
      apply orb_false_iff in E as [E1 E2].
      apply bool_decide_eq_false in E1, E2. intros [?|?]; contradiction.
Qed.

Lemma filterTargets_spec args targets : forall acc,
  filterTargets targets args acc
  = (acc ++ concat (map (fun t => replicate
                                    (length (filter (names t) args)) t)
                      targets))%list.
Proof.
  induction targets as [|t rest IH]; intros acc; simpl.
  - now rewrite app_nil_r.
  - rewrite IH, matchArgs_spec, <- app_assoc. reflexivity.
Qed.

(** X16.  The targets [corpus minimize] works on: all of them without
    arguments; otherwise each discovered target once for every argument
    that is its package or its qualified name, in discovery order.  So a
    target named by two arguments is minimized twice, an argument that
    names nothing selects nothing, and only discovered targets are ever
    selected. *)
Theorem selectTargets_multiplicity
    (targets : list Discovery.Target) (args : list string) :
  selectTargets targets [] = targets /\
  (args <> [] ->
   selectTargets targets args
   = concat (map (fun t => replicate (length (filter (names t) args)) t)
               targets)) /\
  (forall t, t ∈ selectTargets targets args -> t ∈ targets).
Proof.
  split; [reflexivity|].
  assert (H : args <> [] ->
              selectTargets targets args
              = concat (map (fun t => replicate
                                        (length (filter (names t) args)) t)
                          targets)).
  { intros Ha. unfold selectTargets. destruct args as [|a rest]; [congruence|].
    simpl ((0 <? length (a :: rest))%nat). cbv iota.
    now rewrite filterTargets_spec. }
  split; [exact H|].
  intros t. destruct args as [|a rest]; [trivial|].
  rewrite H by discriminate. intros Hin.
  apply list_elem_of_In, in_concat in Hin as (l & Hl & Hin).
  apply list_elem_of_In, list_elem_of_fmap in Hl as (t' & -> & Ht').
  apply list_elem_of_In, elem_of_replicate in Hin as [-> _]. exact Ht'.
Qed.

Lemma selectTargets_multiplicity_witness :
  selectTargets [foo_target] ["example.com/foo"; "example.com/foo.FuzzFoo"]
  = [foo_target; foo_target] /\
  selectTargets [foo_target] ["example.com/bar"] = [].
Proof.
  split.
  - rewrite (proj1 (proj2 (selectTargets_multiplicity [foo_target]
               ["example.com/foo"; "example.com/foo.FuzzFoo"])))
      by discriminate.
    vm_compute. reflexivity.
  - rewrite (proj1 (proj2 (selectTargets_multiplicity [foo_target]
               ["example.com/bar"]))) by discriminate.
    vm_compute. reflexivity.
Defined.

End SelectTargets.

(** ** The minimize command *)

Section MinimizeCommand.

Import Corpus Fuzzctl.

Lemma countEntries_ge ents : forall count, count <= countEntries ents count.
Proof.
  induction ents as [|en rest IH]; intros count; simpl; [lia|].
  destruct (de_isdir en); [apply IH|].
  pose proof (IH (count + 1)). lia.
Qed.

Lemma countFiles_nonneg dir w : 0 <= (countFiles dir w).1.
Proof.
  unfold countFiles. destruct (ReadDir dir w) as [[err|ents] w1]; simpl;
    [lia|apply countEntries_ge].
Qed.

Lemma Minimize_error env m t w err :
  (Minimize env m t w).1.1 = Some err ->
  err = Wrap "minimization failed" ExitError.
Proof.
  unfold Minimize. destruct (bool_decide _); [discriminate|].
  destruct (GetTargetDir m t w) as [[d m1] w1].
  destruct (run_minimize env _ _ _ _) as [f ok].
  destruct ok; simpl; [discriminate|]. now intros [= <-].
Qed.

Lemma minimizeEach_lines env targets : forall cm lines w,
  exists new,
    (minimizeEach env cm targets lines w).1.1 = (lines ++ new)%list /\
    map ml_target new = targets /\ Forall line_ok new.
Proof.
  induction targets as [|t rest IH]; intros cm lines w; simpl.
  - exists []. now rewrite app_nil_r.
  - destruct (GetTargetDir cm t w) as [[dir cm1] w1].
    pose proof (countFiles_nonneg dir w1) as Hb.
    destruct (countFiles dir w1) as [countBefore w2]. simpl in Hb.
    pose proof (Minimize_error env cm1 t w2) as He.
    destruct (Minimize env cm1 t w2) as [[[err|] cm2] w3]; simpl in He.
    + match goal with
      | |- context [minimizeEach env cm2 rest ?l w3] =>
          destruct (IH cm2 l w3) as (new & H1 & H2 & H3)
      end.
      eexists (_ :: new). rewrite H1, <- app_assoc. split; [reflexivity|].
      split; [simpl; now rewrite H2|].
      constructor; [|exact H3]. left. simpl. now rewrite (He err).
    + destruct (GetTargetDir cm2 t w3) as [[dir' cm3] w4].
      pose proof (countFiles_nonneg dir' w4) as Ha.
      destruct (countFiles dir' w4) as [countAfter w5]. simpl in Ha.
      match goal with
      | |- context [minimizeEach env cm3 rest ?l w5] =>
          destruct (IH cm3 l w5) as (new & H1 & H2 & H3)
      end.
      eexists (_ :: new). rewrite H1, <- app_assoc. split; [reflexivity|].
      split; [simpl; now rewrite H2|].
      constructor; [|exact H3]. right. simpl. eauto.
Qed.

(** X17.  Once the corpus directory is made and discovery has succeeded,
    [corpus minimize] returns no error and reports on every selected
    target in order, whether the minimizer fails on some of them or not:
    each line is the failure of the minimizer or two counts that are not
    negative. *)
Theorem corpus_minimize_never_aborts
    (tools : Discovery.Tools) (cmds : Discovery.Commands) (env : Env)
    (corpusDir : string) (args : list string) (w : World)
    (targets : list Discovery.Target) :
  (MkdirAll corpusDir w).1 = None ->
  Discovery.DiscoverTargets tools cmds corpusOptions = inr targets ->
  exists lines,
    (corpusMinimizeE tools cmds env corpusDir args w).1 = inr lines /\
    map ml_target lines = selectTargets targets args /\
    Forall line_ok lines.
Proof.
  intros Hmk Hd. unfold corpusMinimizeE, NewCorpusManager.
  destruct (MkdirAll corpusDir w) as [[err|] w1]; [discriminate|].
  rewrite Hd.
  match goal with
  | |- context [minimizeEach env ?cm ?ts [] w1] =>
      destruct (minimizeEach_lines env ts cm [] w1) as (new & H1 & H2 & H3);
      destruct (minimizeEach env cm ts [] w1) as [[lines cm'] w2]
  end.
  simpl in *. subst lines. exists new. auto.
Qed.

Lemma corpus_minimize_never_aborts_witness :
  exists lines,
    (corpusMinimizeE (tools_with [decl_FuzzFoo; decl_FuzzBar])
       example_commands failing_minimizer "corpus" [] start_world).1
    = inr lines /\
    map ml_outcome lines
    = [inl (Wrap "minimization failed" ExitError);
       inl (Wrap "minimization failed" ExitError)].
Proof.
  destruct (corpus_minimize_never_aborts
              (tools_with [decl_FuzzFoo; decl_FuzzBar]) example_commands
              failing_minimizer "corpus" [] start_world
              (found (tools_with [decl_FuzzFoo; decl_FuzzBar])
                 "example.com/foo"))
    as (lines & H1 & _ & _).
  - vm_compute. reflexivity.
  - vm_compute. reflexivity.
  - exists lines. split; [exact H1|].
    assert (H : inr (B:=list MinimizeLine) lines
                = (corpusMinimizeE (tools_with [decl_FuzzFoo; decl_FuzzBar])
                     example_commands failing_minimizer "corpus" []
                     start_world).1) by (now rewrite H1).
    vm_compute in H. injection H as ->. reflexivity.
Defined.

End MinimizeCommand.

(** ** Counting corpus files *)

Section CountFiles.

Import Corpus Fuzzctl.

Lemma insert_by_Permutation {A} (le : A -> A -> bool) x l :
  insert_by le x l ≡ₚ x :: l.
Proof.
  induction l as [|y l IH]; simpl; [reflexivity|].
  destruct (le x y); [reflexivity|].
  rewrite IH. apply Permutation_swap.
Qed.

Lemma sort_by_Permutation {A} (le : A -> A -> bool) l : sort_by le l ≡ₚ l.
Proof.
  induction l as [|x l IH]; simpl; [reflexivity|].
  fold (sort_by le l). now rewrite insert_by_Permutation, IH.
Qed.

Lemma countEntries_spec ents : forall count,
  countEntries ents count
  = count + Z.of_nat (length (filter (fun e => de_isdir e = false) ents)).
Proof.
  induction ents as [|en rest IH]; intros count; simpl; [lia|].
  destruct (de_isdir en) eqn:E.
  - rewrite filter_cons_False by congruence. apply IH.
  - rewrite filter_cons_True by exact E. rewrite IH. simpl length. lia.
Qed.

Lemma omap_cons_match {A B} (g : A -> option B) a l :
  omap g (a :: l)
  = match g a with Some b => b :: omap g l | None => omap g l end.
Proof. reflexivity. Qed.

Lemma entries_files f dir :
  length (filter (fun e => de_isdir e = false) (entries f dir))
  = size (direct_files f dir).
Proof.
  unfold entries, direct_files.
  rewrite sort_by_Permutation.
  match goal with |- context [omap ?g0 _] => set (g := g0) end.
  induction f as [|i x m Hi IH] using map_ind.
  - rewrite map_to_list_empty, map_filter_empty, map_size_empty. reflexivity.
  - rewrite map_to_list_insert by exact Hi.
    rewrite omap_cons_match. unfold g at 1. simpl fst. simpl snd.
    destruct (entry_name dir i) as [n|] eqn:En.
    + destruct x as [|c].
      * rewrite filter_cons_False by (simpl; discriminate).
        rewrite map_filter_insert_not'.
        -- exact IH.
        -- simpl. intros [_ ?]. discriminate.
        -- intros y Hy. congruence.
      * rewrite filter_cons_True by reflexivity.
        rewrite map_filter_insert_True.
        -- rewrite map_size_insert_None; [simpl; now rewrite IH|].
           apply map_lookup_filter_None. left. exact Hi.
        -- simpl. rewrite En. split; [eauto|reflexivity].
    + rewrite map_filter_insert_not'.
      * exact IH.
      * simpl. rewrite En. intros [[? ?] _]. discriminate.
      * intros y Hy. congruence.
Qed.

Lemma countFiles_value dir w :
  (countFiles dir w).1
  = (if negb (bool_decide (dir = "")) && is_dir (fs w) dir
     then Z.of_nat (size (direct_files (fs w) dir)) else 0) /\
  fs (countFiles dir w).2 = fs w.
Proof.
  unfold countFiles, ReadDir. simpl.
  destruct (negb (bool_decide (dir = "")) && is_dir (fs w) dir); simpl;
    [|now split].
  split; [|reflexivity].
  now rewrite countEntries_spec, entries_files.
Qed.

(** X18.  [countFiles(dir)] is the number of regular files directly in
    [dir] (sub-directories and what lies below them are not counted), and
    zero for the empty path and what is not a directory; it changes
    nothing. *)
Theorem countFiles_counts_regular_files (dir : string) (w : World) :
  (countFiles dir w).1
  = (if negb (bool_decide (dir = "")) && is_dir (fs w) dir
     then Z.of_nat (size (direct_files (fs w) dir)) else 0) /\
  fs (countFiles dir w).2 = fs w /\
  (forall p c,
     direct_files (fs w) dir !! p = Some (FileNode c) <->
     fs w !! p = Some (FileNode c) /\
     exists name, plain name /\ p = dir +:+ "/" +:+ name).
Proof.
  destruct (countFiles_value dir w) as [H1 H2].
  split; [exact H1|]. split; [exact H2|].
  intros p c. unfold direct_files. rewrite map_lookup_filter_Some. simpl.
  split.
  - intros (Hl & [n Hn] & _). split; [exact Hl|].
    apply entry_name_Some in Hn as [-> Hp]. now exists n.
  - intros (Hl & n & Hp & ->). split; [exact Hl|]. split; [|reflexivity].
    exists n. now apply entry_name_Some.
Qed.

Lemma countFiles_counts_regular_files_witness :
  (countFiles "./fuzz-corpus/pkg_codec/FuzzDecode" seeded_world).1 = 2 /\
  (countFiles "./fuzz-corpus" seeded_world).1 = 0 /\
  (countFiles "./missing" seeded_world).1 = 0.
Proof.
  rewrite !(proj1 (countFiles_counts_regular_files _ seeded_world)).
  vm_compute. repeat split; reflexivity.
Defined.

End CountFiles.

(** ** The list command *)

Section CorpusList.

Import Corpus Fuzzctl.

Lemma only_directories_added_refl f : only_directories_added f f.
Proof. split; [reflexivity|auto]. Qed.

Lemma only_directories_added_trans f1 f2 f3 :
  only_directories_added f1 f2 -> only_directories_added f2 f3 ->
  only_directories_added f1 f3.
Proof.
  intros [H1 H2] [H3 H4]. split; [now transitivity f2|eauto].
Qed.

Lemma MkdirAll_only_directories p w :
  only_directories_added (fs w) (fs (MkdirAll p w).2).
Proof.
  split; [apply MkdirAll_subseteq|]. intros k c. apply MkdirAll_files.
Qed.

Lemma GetTargetDir_only_directories m t w :
  only_directories_added (fs w) (fs (GetTargetDir m t w).2).
Proof.
  split; [apply GetTargetDir_subseteq|]. intros k c. apply GetTargetDir_files.
Qed.

Lemma direct_files_added f f' dir :
  only_directories_added f f' -> direct_files f' dir = direct_files f dir.
Proof.
  intros [Hsub Hfiles]. apply map_eq. intros k. apply option_eq. intros nd.
  unfold direct_files. rewrite !map_lookup_filter_Some. simpl.
  split; intros (Hl & Hn & Hf); (split; [|now split]).
  - destruct nd as [|c]; [discriminate|]. now apply Hfiles.
  - eapply lookup_weaken; eassumption.
Qed.

Lemma listRows_rows targets : forall cm rows w,
  exists new,
    (listRows cm targets rows w).1.1 = (rows ++ new)%list /\
    map row_key new = map targetKey targets /\
    only_directories_added (fs w) (fs (listRows cm targets rows w).2) /\
    Forall (row_ok (fs w)) new.
Proof.
  induction targets as [|t rest IH]; intros cm rows w; simpl.
  - exists []. rewrite app_nil_r.
    repeat split; auto using only_directories_added_refl.
  - pose proof (GetTargetDir_only_directories cm t w) as Hg.
    destruct (GetTargetDir cm t w) as [[dir cm1] w1]. simpl in Hg.
    destruct (countFiles_value dir w1) as [Hc Hf].
    destruct (countFiles dir w1) as [count w2]. simpl in Hc, Hf.
    match goal with
    | |- context [listRows cm1 rest ?l w2] =>
        destruct (IH cm1 l w2) as (new & H1 & H2 & H3 & H4)
    end.
    rewrite Hf in H3.
    eexists (_ :: new). rewrite H1, <- app_assoc. split; [reflexivity|].
    split; [simpl; now rewrite H2|].
    split; [eapply only_directories_added_trans; eassumption|].
    constructor.
    + unfold row_ok. simpl. rewrite Hc.
      destruct (_ && _); [right|now left].
      now rewrite (direct_files_added _ _ dir Hg).
    + eapply Forall_impl; [exact H4|]. intros row [H0|Hr]; [now left|].
      right. rewrite Hr, Hf. now rewrite (direct_files_added _ _ _ Hg).
Qed.

(** X19.  Once the corpus directory is made and discovery has succeeded,
    [corpus list] prints one row per discovered target, in order and under
    its qualified name.  The command is not read-only, but it adds
    directories only: every path that existed keeps its node and no
    regular file is new.  Each count is zero or the number of regular
    files that lay directly in the directory of the row before the
    command. *)
Theorem corpus_list_only_adds_directories
    (tools : Discovery.Tools) (cmds : Discovery.Commands)
    (corpusDir : string) (w : World) (targets : list Discovery.Target) :
  (MkdirAll corpusDir w).1 = None ->
  Discovery.DiscoverTargets tools cmds corpusOptions = inr targets ->
  exists rows,
    (corpusListE tools cmds corpusDir w).1 = inr rows /\
    map row_key rows = map targetKey targets /\
    only_directories_added (fs w) (fs (corpusListE tools cmds corpusDir w).2) /\
    Forall (row_ok (fs w)) rows.
Proof.
  intros Hmk Hd. unfold corpusListE, NewCorpusManager.
  pose proof (MkdirAll_only_directories corpusDir w) as H0.
  destruct (MkdirAll corpusDir w) as [[err|] w1]; [discriminate|].
  rewrite Hd. simpl in H0.
  match goal with
  | |- context [listRows ?cm targets [] w1] =>
      destruct (listRows_rows targets cm [] w1) as (new & H1 & H2 & H3 & H4);
      destruct (listRows cm targets [] w1) as [[rows cm'] w2]
  end.
  simpl in *. subst rows. exists new.
  split; [reflexivity|]. split; [exact H2|].
  split; [eapply only_directories_added_trans; eassumption|].
  eapply Forall_impl; [exact H4|]. intros row [Hz|Hr]; [now left|].
  right. now rewrite Hr, (direct_files_added _ _ _ H0).
Qed.

Lemma corpus_list_only_adds_directories_witness :
  exists rows,
    (corpusListE (tools_with [decl_FuzzFoo]) example_commands
       "./fuzz-corpus" seeded_world).1 = inr rows /\
    map row_key rows = ["example.com/foo.FuzzFoo"] /\
    fs (corpusListE (tools_with [decl_FuzzFoo]) example_commands
          "./fuzz-corpus" seeded_world).2
      !! "./fuzz-corpus/pkg_codec/FuzzDecode/a" = Some (FileNode "A").
Proof.
  destruct (corpus_list_only_adds_directories
              (tools_with [decl_FuzzFoo]) example_commands
              "./fuzz-corpus" seeded_world
              (found (tools_with [decl_FuzzFoo]) "example.com/foo"))
    as (rows & H1 & H2 & [H3 _] & _).
  - vm_compute. reflexivity.
  - vm_compute. reflexivity.
  - exists rows. split; [exact H1|]. split; [exact H2|].
    eapply lookup_weaken; [|exact H3]. reflexivity.
Defined.

End CorpusList.

(** ** Staging a run *)

Section Staging.

Import Corpus Runner.

Lemma MkdirAll_is_dir p w :
  (MkdirAll p w).1 = None -> is_dir (fs (MkdirAll p w).2) p = true.
Proof.
  unfold MkdirAll. simpl.
  destruct (mkdir_chain (ancestors p) (fs w)) as [f'|] eqn:E; simpl;
    [|discriminate].
  intros _. exact (mkdir_chain_is_dir _ _ _ E).
Qed.

Lemma in_tree_child_parent d x p :
  in_tree (d +:+ "/" +:+ x) p = true -> in_tree d p = true.
Proof.
  unfold in_tree at 1. intros H. apply orb_true_iff in H as [H|H].
  - apply bool_decide_eq_true in H as ->. apply in_tree_below.
  - destruct (strip_prefix _ p) as [r|] eqn:E; [|discriminate].
    apply strip_prefix_Some in E as ->.
    rewrite append_slash, append_assoc. apply in_tree_below.
Qed.

(** X20.  The first part of [RunTarget], up to the start of the harness:
    when the directory of the target exists and lies apart from the
    scratch directory, and no step fails, the crashers directory is there
    and every regular file below the directory of the target is found
    under the same relative path below [tempDir/corpus] with the same
    bytes, and is still in the corpus. *)
Theorem stage_copies_corpus
    (e : FuzzEngine) (t : Discovery.Target) (tempDir : string) (w : World) :
  let corpusDir := (GetTargetDir (CorpusManager e) t w).1.1 in
  tempDir <> "" ->
  fs w !! corpusDir = Some DirNode ->
  (forall p, in_tree tempDir p = true -> in_tree corpusDir p = false) ->
  (stage e t tempDir w).1.1 = None ->
  is_dir (fs (stage e t tempDir w).2) (tempDir +:+ "/crashers") = true /\
  forall rel c,
    rel <> "" -> rel <> "." ->
    fs w !! (corpusDir +:+ "/" +:+ rel) = Some (FileNode c) ->
    fs (stage e t tempDir w).2 !! ((tempDir +:+ "/corpus") +:+ "/" +:+ rel)
    = Some (FileNode c) /\
    fs (stage e t tempDir w).2 !! (corpusDir +:+ "/" +:+ rel)
    = Some (FileNode c).
Proof.
  intros corpusDir Ht Hdir Hapart. subst corpusDir. unfold stage.
  pose proof (GetTargetDir_subseteq (CorpusManager e) t w) as H1.
  destruct (GetTargetDir (CorpusManager e) t w) as [[dir m1] w1].
  simpl in *.
  rewrite (Join_child tempDir "corpus") by (try discriminate; exact Ht).
  rewrite (Join_child tempDir "crashers") by (try discriminate; exact Ht).
  pose proof (MkdirAll_subseteq (tempDir +:+ "/" +:+ "corpus") w1) as H2.
  destruct (MkdirAll (tempDir +:+ "/" +:+ "corpus") w1) as [[err|] w2];
    [discriminate|]. simpl in H2.
  assert (Hdst : tempDir +:+ "/" +:+ "corpus" <> "")
    by (destruct tempDir; discriminate).
  assert (Hd2 : fs w2 !! dir = Some DirNode).
  { eapply lookup_weaken; [|exact H2]. eapply lookup_weaken; eassumption. }
  assert (Hap : forall p, in_tree (tempDir +:+ "/" +:+ "corpus") p = true ->
                          in_tree dir p = false).
  { intros p Hp. apply Hapart. eapply in_tree_child_parent. exact Hp. }
  pose proof (copyDir_copies dir (tempDir +:+ "/" +:+ "corpus") w2
                Hdst Hd2 Hap) as Hcp.
  destruct (copyDir dir (tempDir +:+ "/" +:+ "corpus") w2) as [[err|] w3];
    [discriminate|]. simpl in Hcp.
  pose proof (MkdirAll_subseteq (tempDir +:+ "/" +:+ "crashers") w3) as H4.
  pose proof (MkdirAll_is_dir (tempDir +:+ "/" +:+ "crashers") w3) as H5.
  destruct (MkdirAll (tempDir +:+ "/" +:+ "crashers") w3) as [[err|] w4];
    [discriminate|]. simpl in *.
  intros _. split; [now apply H5|].
  intros rel c Hr Hdot Hf.
  destruct (Hcp eq_refl rel c Hr Hdot) as [Ha Hb].
  { eapply lookup_weaken; [|exact H2]. eapply lookup_weaken; eassumption. }
  split; eapply lookup_weaken; eassumption.
Qed.

Lemma stage_copies_corpus_witness :
  let e := engine_on Config.Default [example_target] in
  let r := stage e example_target "/tmp/fuzz-run-1" seeded_world in
  r.1.1 = None /\
  fs r.2 !! "/tmp/fuzz-run-1/corpus/a" = Some (FileNode "A") /\
  fs r.2 !! "./fuzz-corpus/pkg_codec/FuzzDecode/a" = Some (FileNode "A").
Proof.
  intros e r. split; [vm_compute; reflexivity|].
  apply (proj2 (stage_copies_corpus e example_target
                  "/tmp/fuzz-run-1" seeded_world
                  ltac:(discriminate) ltac:(reflexivity)
                  ltac:(intros p; apply first_byte_apart; discriminate)
                  ltac:(vm_compute; reflexivity)) "a" "A").
  - discriminate.
  - discriminate.
  - reflexivity.
Defined.

(** The directory of the target is found to be a regular file: nothing is
    made, and nothing is reported. *)
Lemma GetTargetDir_blocked m t w c :
  fs w !! (GetTargetDir m t w).1.1 = Some (FileNode c) ->
  fs (GetTargetDir m t w).2 = fs w.
Proof.
  unfold GetTargetDir.
  destruct (TargetDirs m !! targetKey t) as [dir|]; [reflexivity|].
  simpl. set (dir := Join _). intros Hf.
  unfold MkdirAll, ancestors. simpl.
  destruct (implicit_dir dir); [reflexivity|]. simpl. now rewrite Hf.
Qed.

Lemma GetTargetDir_dir m t w w' :
  (GetTargetDir m t w).1.1 = (GetTargetDir m t w').1.1.
Proof.
  unfold GetTargetDir. now destruct (TargetDirs m !! targetKey t).
Qed.

Lemma stage_blocked e t tempDir w c :
  fs w !! (GetTargetDir (CorpusManager e) t w).1.1 = Some (FileNode c) ->
  exists err, (stage e t tempDir w).1.1 = Some err.
Proof.
  intros Hf. unfold stage.
  pose proof (GetTargetDir_blocked _ _ _ _ Hf) as Hfs.
  destruct (GetTargetDir (CorpusManager e) t w) as [[dir m1] w1].
  simpl in Hf, Hfs. rewrite <- Hfs in Hf.
  set (dst := Join [tempDir; "corpus"]).
  pose proof (MkdirAll_subseteq dst w1) as H2.
  pose proof (MkdirAll_is_dir dst w1) as H2d.
  destruct (MkdirAll dst w1) as [[err|] w2]; [eauto|].
  simpl in H2, H2d. specialize (H2d eq_refl).
  assert (Hf2 : fs w2 !! dir = Some (FileNode c))
    by (eapply lookup_weaken; eassumption).
  unfold copyDir. simpl. rewrite Hf2.
  unfold copyVisit. rewrite bool_decide_eq_true_2 by reflexivity.
  rewrite bool_decide_eq_true_2 by reflexivity.
  set (w2' := record (EvWalk dir) w2).
  pose proof (MkdirAll_subseteq (Dir dst) w2') as H3.
  destruct (MkdirAll (Dir dst) w2') as [[err|] w3]; [eauto|].
  simpl in H3.
  unfold copyFile, Corpus.copyFile. simpl.
  assert (Hex : path_exists (fs w3) dir = true).
  { unfold path_exists. erewrite lookup_weaken; [|exact Hf2|exact H3].
    apply orb_true_r. }
  rewrite Hex. simpl.
  rewrite (is_dir_weaken _ _ _ H3 H2d). rewrite orb_true_r. simpl. eauto.
Qed.

(** X21.  When a regular file sits where the directory of a target
    belongs, [GetTargetDir] returns and caches the path all the same and
    changes nothing (the error of [os.MkdirAll] is dropped); [RunTarget]
    then returns an error for that target, and the harness is never
    started. *)
Theorem file_in_place_of_target_directory
    (env : Env) (e : FuzzEngine) (t : Discovery.Target) (w : World)
    (c : string) :
  let '(dir, m1, w1) := GetTargetDir (CorpusManager e) t w in
  fs w !! dir = Some (FileNode c) ->
  fs w1 = fs w /\
  TargetDirs m1 !! targetKey t = Some dir /\
  (exists err, (RunTarget env e t w).1.1 = inl err) /\
  harness_starts (RunTarget env e t w).2 = harness_starts w.
Proof.
  pose proof (GetTargetDir_blocked (CorpusManager e) t w c) as Hb.
  pose proof (GetTargetDir_caches (CorpusManager e) t w) as Hc.
  pose proof (GetTargetDir_dir (CorpusManager e) t w) as Hd.
  destruct (GetTargetDir (CorpusManager e) t w) as [[dir m1] w1].
  simpl in *. intros Hf. split; [now apply Hb|]. split; [exact Hc|].
  unfold RunTarget.
  pose proof (starts_MkdirTemp env "" "fuzz-run-*" w) as H0.
  destruct (MkdirTemp env "" "fuzz-run-*" w) as [[err|tmp] wt] eqn:Emk.
  - simpl in *. split; [eauto|exact H0].
  - apply MkdirTemp_ok in Emk as (_ & _ & Hfree & Hfs).
    simpl in H0. rewrite runInTemp_unfold.
    assert (Hft : fs wt !! (GetTargetDir (CorpusManager e) t wt).1.1
                  = Some (FileNode c)).
    { rewrite <- Hd, Hfs. rewrite lookup_insert_ne; [exact Hf|].
      intros ->. congruence. }
    destruct (stage_blocked e t tmp wt c Hft) as [err Herr].
    pose proof (starts_stage e t tmp wt) as Hs.
    destruct (stage e t tmp wt) as [[o e1] w4]. simpl in Herr, Hs.
    subst o. simpl. split; [eauto|].
    rewrite starts_set_fs, starts_record. simpl. congruence.
Qed.

Lemma file_in_place_of_target_directory_witness :
  fs blocked_world !! "corpus/pkg_codec/FuzzDecode" = Some (FileNode "x") /\
  exists err,
    (RunTarget failing_minimizer example_engine example_target
       blocked_world).1.1 = inl err.
Proof.
  split; [reflexivity|].
  pose proof (file_in_place_of_target_directory failing_minimizer
                example_engine example_target blocked_world "x") as H.
  destruct (GetTargetDir _ _ blocked_world) as [[dir m1] w1] eqn:E.
  assert (Hdir : dir = "corpus/pkg_codec/FuzzDecode").
  { change dir with (dir, m1, w1).1.1. rewrite <- E. vm_compute. reflexivity. }
  subst dir. destruct H as (_ & _ & H & _); [reflexivity|exact H].
Defined.

End Staging.

(** ** Creating the engine *)

Section EngineCreation.

Import Corpus Runner.

Lemma mkdir_chain_None chain : forall f,
  mkdir_chain chain f = None ->
  exists p, p ∈ chain /\ (p = "" \/ exists c, f !! p = Some (FileNode c)).
Proof.
  induction chain as [|p rest IH]; intros f H; simpl in H; [discriminate|].
  destruct (f !! p) as [[|c]|] eqn:E; [discriminate| |].
  - exists p. split; [apply list_elem_of_here|right; eauto].
  - destruct (bool_decide (p = "")) eqn:Ep.
    + apply bool_decide_eq_true in Ep. exists p.
      split; [apply list_elem_of_here|now left].
    + destruct (mkdir_chain rest f) as [f1|] eqn:E1; [discriminate|].
      destruct (IH f E1) as (q & Hq & Hc). exists q.
      split; [now apply list_elem_of_further|exact Hc].
Qed.

(** X22.  [NewFuzzEngine] succeeds with a fresh engine (the given
    configuration and targets, an empty cache, the strategy [coverage], no
    results) and the corpus directory in place, having added directories
    only; or it fails with the doubly wrapped error of [os.MkdirAll],
    having changed nothing, and then the corpus path or one of its
    ancestors is empty or a regular file. *)
Theorem engine_creation_outcome
    (cfg : Config.Config) (ts : list Discovery.Target) (w : World) :
  match NewFuzzEngine cfg ts w with
  | (inr e, w') =>
      e = engine_on cfg ts /\
      is_dir (fs w') (Config.CorpusDir cfg) = true /\
      only_directories_added (fs w) (fs w')
  | (inl err, w') =>
      err = Wrap "failed to create corpus manager"
              (Wrap "failed to create corpus directory"
                 (PathError "mkdir" (Config.CorpusDir cfg))) /\
      fs w' = fs w /\
      exists p, p ∈ ancestors (Config.CorpusDir cfg) /\
                (p = "" \/ exists c, fs w !! p = Some (FileNode c))
  end.
Proof.
  unfold NewFuzzEngine, NewCorpusManager.
  pose proof (MkdirAll_is_dir (Config.CorpusDir cfg) w) as H1.
  pose proof (MkdirAll_only_directories (Config.CorpusDir cfg) w) as H2.
  unfold MkdirAll in *. simpl in *.
  destruct (mkdir_chain (ancestors (Config.CorpusDir cfg)) (fs w))
    as [f'|] eqn:E; simpl in *.
  - split; [reflexivity|]. split; [now apply H1|exact H2].
  - split; [reflexivity|]. split; [reflexivity|].
    now apply mkdir_chain_None in E.
Qed.

End EngineCreation.

(** ** From the scratch corpus to the corpus *)

Section Findings.

Import Corpus Runner.

(** A file of the source directory whose name is free in the target's
    directory is there after the import, with its bytes. *)
Lemma import_lands env m m1 t src name c w w1 :
  copy_only env m ->
  plain name ->
  fs w !! (src +:+ "/" +:+ name) = Some (FileNode c) ->
  path_exists (fs (GetTargetDir m t w).2)
    (Join [(GetTargetDir m t w).1.1; name]) = false ->
  ImportNewCorpusEntries env m t src w = (None, m1, w1) ->
  fs w1 !! Join [(GetTargetDir m t w).1.1; name] = Some (FileNode c).
Proof.
  intros Hco Hplain Hsrc Hfresh H1.
  destruct (import_is_copyPhase env m t src w Hco) as [Ha Hb].
  rewrite H1 in Ha, Hb. simpl in Ha, Hb.
  destruct (copyPhase m t src w) as [[err' m'] wc] eqn:Hcp.
  simpl in Ha, Hb. inversion Ha; subst err' m'. clear Ha.
  destruct (copyPhase_ok_all_present _ _ _ _ _ _ Hcp) as (Hsrc1 & _).
  rewrite Hb. revert Hcp. unfold copyPhase.
  pose proof (GetTargetDir_subseteq m t w) as Hsub.
  destruct (GetTargetDir m t w) as [[td m'] wa]. simpl in *.
  unfold ReadDir. simpl.
  rewrite bool_decide_eq_false_2 by exact Hsrc1. simpl.
  destruct (is_dir (fs wa) src); simpl; [|discriminate].
  destruct (importEntries td src (entries (fs wa) src)
              (record (EvReadDir src) wa)) as [[err|] w3] eqn:Hloop;
    [discriminate|].
  intros H. inversion H; subst. clear H.
  apply (importEntries_copies td src (entries (fs wa) src)
           (record (EvReadDir src) wa) wc
           {| de_name := name; de_isdir := false |} c Hloop).
  - apply elem_of_entries. exists (FileNode c). simpl.
    split; [eapply lookup_weaken; eauto|]. split; [exact Hplain|].
    reflexivity.
  - reflexivity.
  - apply Hplain.
  - intros e' He'. apply elem_of_entries in He' as (? & _ & [? _] & _).
    assumption.
  - exact Hfresh.
  - simpl. rewrite Join_child by (try apply Hplain; assumption).
    eapply lookup_weaken; eauto.
Qed.

Lemma stage_manager e t tmp w :
  CorpusManager (stage e t tmp w).1.2 = (GetTargetDir (CorpusManager e) t w).1.2.
Proof.
  unfold stage.
  destruct (GetTargetDir (CorpusManager e) t w) as [[d m] wa].
  destruct (MkdirAll (Join [tmp; "corpus"]) wa) as [[c|] wb]; [reflexivity|].
  destruct (copyDir d (Join [tmp; "corpus"]) wb) as [[c|] wc]; [reflexivity|].
  now destruct (MkdirAll (Join [tmp; "crashers"]) wc) as [[c|] wd].
Qed.

(** How a run that returns a result ends: the import starts on the file
    system the harness left, and the scratch directory is removed from
    what the import leaves. *)
Lemma RunTarget_import env e t w r e' w' :
  RunTarget env e t w = (inr r, e', w') ->
  exists tempDir w1 e1 w4 wc cm2 w8,
    MkdirTemp env "" "fuzz-run-*" w = (inr tempDir, w1) /\
    stage e t tempDir w1 = (None, e1, w4) /\
    fs wc = h_fs (harnessRun env e1 t tempDir (fs w4)) /\
    ImportNewCorpusEntries env (CorpusManager e1) t
      (Join [tempDir; "corpus"]) wc = (None, cm2, w8) /\
    fs w' = filter (fun kv => in_tree tempDir kv.1 = false) (fs w8) /\
    NewCorpusItems r
    = match (ReadDir (Join [tempDir; "corpus"]) w8).1 with
      | inr l => Z.of_nat (length l)
      | inl _ => 0
      end.
Proof.
  unfold RunTarget.
  destruct (MkdirTemp env "" "fuzz-run-*" w) as [[err|tempDir] w1] eqn:Emk;
    [discriminate|].
  rewrite runInTemp_unfold.
  destruct (stage e t tempDir w1) as [[[err|] e1] w4] eqn:Est;
    [discriminate|].
  simpl.
  match goal with
  | |- context [classify ?run ?d ?w5] =>
      pose proof (classify_spec run d w5) as (_ & _ & Hc3);
      set (wc := (classify run d w5).2) in *
  end.
  destruct (ImportNewCorpusEntries _ _ _ _ wc) as [[[err|] cm2] w8] eqn:Ei;
    [discriminate|].
  intros H. inversion H; subst. clear H.
  exists tempDir, w1, e1, w4, wc, cm2, w8.
  split; [reflexivity|]. split; [exact Est|]. split; [exact Hc3|].
  split; [exact Ei|]. split; [|reflexivity].
  simpl. now rewrite ReadDir_fs.
Qed.

(** X23.  What the harness finds reaches the corpus: when [RunTarget]
    returns a result (and the minimizer changes nothing), every regular
    file the harness left directly in [tempDir/corpus] under a name that
    was free in the directory of the target is in that directory
    afterwards, with the same bytes, although the scratch directory is
    gone. *)
Theorem harness_findings_reach_the_corpus
    (env : Env) (e e' : FuzzEngine) (t : Discovery.Target) (w w' : World)
    (r : Result) :
  quiet_minimizer env ->
  RunTarget env e t w = (inr r, e', w') ->
  exists tempDir w1 e1 w4,
    MkdirTemp env "" "fuzz-run-*" w = (inr tempDir, w1) /\
    stage e t tempDir w1 = (None, e1, w4) /\
    let left := h_fs (harnessRun env e1 t tempDir (fs w4)) in
    let corpusDir := (GetTargetDir (CorpusManager e) t w).1.1 in
    forall name c,
      plain name ->
      left !! ((tempDir +:+ "/corpus") +:+ "/" +:+ name)
        = Some (FileNode c) ->
      path_exists left (Join [corpusDir; name]) = false ->
      in_tree tempDir (Join [corpusDir; name]) = false ->
      fs w' !! Join [corpusDir; name] = Some (FileNode c).
Proof.
  intros Hq Hrun.
  apply RunTarget_import in Hrun
    as (tmp & w1 & e1 & w4 & wc & cm2 & w8 & Hmk & Hst & Hwc & Himp & Hfs & _).
  exists tmp, w1, e1, w4. split; [exact Hmk|]. split; [exact Hst|].
  intros left corpusDir name c Hplain Hnew Hfree Hout.
  pose proof (stage_manager e t tmp w1) as Hm. rewrite Hst in Hm.
  simpl in Hm.
  pose proof (GetTargetDir_caches (CorpusManager e) t w1) as Hcache.
  rewrite <- Hm in Hcache.
  rewrite <- (GetTargetDir_dir (CorpusManager e) t w w1) in Hcache.
  fold corpusDir in Hcache.
  pose proof (GetTargetDir_cached _ t wc _ Hcache) as Hget.
  apply MkdirTemp_ok in Hmk as (_ & Hne & _).
  rewrite Hfs. apply map_lookup_filter_Some. split; [|exact Hout].
  pose proof (import_lands env (CorpusManager e1) cm2 t
                (Join [tmp; "corpus"]) name c wc w8) as Hl.
  rewrite Hget in Hl. simpl in Hl. apply Hl.
  - now right.
  - exact Hplain.
  - rewrite Hwc. rewrite (Join_child tmp "corpus") by (try discriminate; exact Hne).
    exact Hnew.
  - rewrite Hwc. exact Hfree.
  - exact Himp.
Qed.

Lemma harness_findings_reach_the_corpus_witness :
  let run := RunTarget finding_harness example_engine example_target
               started_world in
  fs run.2 !! "corpus/pkg_codec/FuzzDecode/new1" = Some (FileNode "seed") /\
  fs run.2 !! "/tmp/fuzz-run-1/corpus/new1" = None /\
  exists r tempDir w1 e1 w4,
    run.1.1 = inr r /\
    MkdirTemp finding_harness "" "fuzz-run-*" started_world
    = (inr tempDir, w1) /\
    stage example_engine example_target tempDir w1 = (None, e1, w4).
Proof.
  intros run. split; [vm_compute; reflexivity|].
  split; [vm_compute; reflexivity|].
  subst run.
  destruct (RunTarget finding_harness example_engine example_target
              started_world) as [[o e'] w'] eqn:E.
  assert (Ho : exists r, o = inr r).
  { assert (H : match (RunTarget finding_harness example_engine
                         example_target started_world).1.1 with
                | inr _ => True | inl _ => False end) by (vm_compute; exact I).
    rewrite E in H. simpl in H. destruct o; [contradiction|eauto]. }
  destruct Ho as [r ->].
  destruct (harness_findings_reach_the_corpus finding_harness
              example_engine e' example_target started_world w' r)
    as (tmp & w1 & e1 & w4 & Hmk & Hst & _).
  - intros name pkg dir f. reflexivity.
  - exact E.
  - exists r, tmp, w1, e1, w4. auto.
Defined.

End Findings.

(** ** Searching a package *)

Section PackageSearch.

Import Discovery.

Lemma scanFiles_ok tools pkg files : forall acc,
  Forall (parses tools) files ->
  scanFiles tools pkg files acc
  = inr (acc ++ concat (map (targets_in tools pkg) files))%list.
Proof.
  induction files as [|file rest IH]; intros acc H; simpl.
  - now rewrite app_nil_r.
  - inversion H as [|? ? [parsed Hp] Hrest]; subst.
    unfold targets_in at 1. rewrite Hp.
    rewrite (IH _ Hrest), scanDecls_spec. now rewrite <- app_assoc.
Qed.

Lemma scanFiles_fail tools pkg good bad rest : forall acc,
  Forall (parses tools) good ->
  parse_file tools bad = None ->
  scanFiles tools pkg (good ++ bad :: rest) acc = inl (ParseFailed bad).
Proof.
  induction good as [|file good IH]; intros acc H Hbad; simpl.
  - now rewrite Hbad.
  - inversion H as [|? ? [parsed Hp] Hgood]; subst.
    rewrite Hp. now apply IH.
Qed.

(** X24.  [findTargetsInPackage] asks [go list] for the directory of the
    package and globs the trimmed answer for test files.  When all of them
    parse, it returns their targets file by file in the order of the glob,
    within a file in the order of the declarations.  The first file that
    does not parse ends the search with an error for that file, and no
    target of the package is returned; so does a failing [go list] or
    glob. *)
Theorem package_search_in_file_order
    (tools : Tools) (pkg output : string) (files : list string) :
  go_list_dir tools pkg = Some output ->
  glob_test_files tools (Strings.TrimSpace output) = Some files ->
  (Forall (parses tools) files ->
   findTargetsInPackage tools pkg
   = inr (concat (map (targets_in tools pkg) files))) /\
  (forall good bad rest,
     files = (good ++ bad :: rest)%list ->
     Forall (parses tools) good ->
     parse_file tools bad = None ->
     findTargetsInPackage tools pkg = inl (ParseFailed bad)).
Proof.
  intros Hl Hg. unfold findTargetsInPackage. rewrite Hl, Hg. split.
  - intros H. now rewrite (scanFiles_ok tools pkg files [] H).
  - intros good bad rest -> Hgood Hbad.
    now apply scanFiles_fail.
Qed.

Lemma package_search_in_file_order_witness :
  findTargetsInPackage two_file_tools "example.com/foo"
  = inr (concat (map (targets_in two_file_tools "example.com/foo")
                   ["/src/foo/a_test.go"; "/src/foo/b_test.go"])) /\
  map Name (concat (map (targets_in two_file_tools "example.com/foo")
                      ["/src/foo/a_test.go"; "/src/foo/b_test.go"]))
  = ["FuzzFoo"; "FuzzBar"].
Proof.
  split; [|vm_compute; reflexivity].
  apply (proj1 (package_search_in_file_order two_file_tools
                  "example.com/foo" ("/src/foo" +:+ newline)
                  ["/src/foo/a_test.go"; "/src/foo/b_test.go"]
                  eq_refl eq_refl)).
  repeat constructor; eexists; vm_compute; reflexivity.
Defined.

End PackageSearch.

(** ** A run that is cut short *)

Section AbortedRun.

Import Corpus Runner.

(** A run starts the harness at most once, and then on the command line of
    its target. *)
Lemma starts_RunTarget_any env e t w :
  harness_starts (RunTarget env e t w).2 = harness_starts w \/
  exists ev,
    harness_starts (RunTarget env e t w).2 = ev :: harness_starts w /\
    start_args ev = command_line e t.
Proof.
  unfold RunTarget.
  pose proof (starts_MkdirTemp env "" "fuzz-run-*" w) as H0.
  destruct (MkdirTemp env "" "fuzz-run-*" w) as [[c|tmp] w1]; simpl in H0;
    [now left|].
  rewrite runInTemp_unfold.
  pose proof (starts_stage e t tmp w1) as H1.
  pose proof (stage_config e t tmp w1) as Hc.
  destruct (stage e t tmp w1) as [[[c|] e1] w4]; simpl in H1, Hc.
  { left. simpl. rewrite starts_set_fs, starts_record. simpl. congruence. }
  simpl.
  match goal with
  | |- context [classify ?run ?d ?w5] =>
      assert (Hcl : harness_starts (classify run d w5).2
                    = harness_starts w5)
  end.
  { unfold classify. destruct (h_ok _); [reflexivity|].
    match goal with
    | |- context [GlobAll ?d ?w0] =>
        pose proof (starts_GlobAll d w0) as Hg;
        destruct (GlobAll d w0) as [[c|cr] w']
    end; exact Hg. }
  rewrite starts_record in Hcl. simpl in Hcl.
  right. eexists. split.
  - match goal with
    | |- context [ImportNewCorpusEntries env ?m t ?s ?w0] =>
        pose proof (starts_Import env m t s w0) as H2;
        destruct (ImportNewCorpusEntries env m t s w0) as [[[c|] cm2] w8]
    end; simpl in *;
      rewrite starts_set_fs, starts_record; simpl is_fuzz; cbv iota;
      rewrite ?starts_ReadDir, H2, Hcl, H1, H0; reflexivity.
  - unfold command_line. simpl.
    now rewrite (getTargetDuration_config e1 e t Hc), Hc.
Qed.

(** X25.  A [RunAll] that returns an error after [n] results has started
    the harness for the first [n] targets, in order and each on its own
    command line, and at most once more, for the target that failed; the
    harness is never started for a later target. *)
Theorem aborted_run_starts_no_later_target
    (env : Env) (e : FuzzEngine) (w : World) (err : error) :
  (RunAll env e w).1.1 = Some err ->
  exists n started,
    length (Results (RunAll env e w).1.2) = (length (Results e) + n)%nat /\
    (n < length (Targets e))%nat /\
    (started = take n (Targets e) \/ started = take (S n) (Targets e)) /\
    map start_args (harness_starts (RunAll env e w).2)
    = (rev (map (command_line e) started)
         ++ map start_args (harness_starts w))%list.
Proof.
  unfold RunAll. generalize (Targets e) as ts. intros ts. revert e w err.
  induction ts as [|t rest IH]; intros e w err H; simpl in H;
    [discriminate|]. simpl.
  pose proof (starts_RunTarget env e t w) as Hs.
  pose proof (starts_RunTarget_any env e t w) as Ha.
  pose proof (RunTarget_engine env e t w) as (Hc & _ & Hres).
  destruct (RunTarget env e t w) as [[[cause|r] e1] w1];
    simpl in Hs, Ha, Hc, Hres, H |- *.
  - exists O. destruct Ha as [Ha|(ev & Ha & Hev)].
    + exists []. rewrite Hres. split; [lia|]. split; [lia|].
      split; [now left|]. now rewrite Ha.
    + exists [t]. rewrite Hres. split; [lia|]. split; [lia|].
      split; [right; simpl; now rewrite take_0|].
      rewrite Ha. simpl. now rewrite Hev.
  - destruct Hs as (ev & Hs1 & Hs2).
    set (e2 := {| Config := Config e1; Targets := Targets e1;
                  CorpusManager := CorpusManager e1;
                  Results := Results e1 ++ [r] |}) in *.
    assert (Hcfg : Config e2 = Config e) by exact Hc.
    destruct (IH e2 w1 err H) as (n & started & Hn1 & Hn2 & Hn3 & Hn4).
    assert (Hcl : map (command_line e2) started
                  = map (command_line e) started).
    { apply map_ext. intros t'. unfold command_line.
      now rewrite (getTargetDuration_config e2 e t' Hcfg), Hcfg. }
    exists (S n), (t :: started).
    split; [rewrite Hn1; simpl; rewrite length_app, Hres; simpl; lia|].
    split; [lia|].
    split; [destruct Hn3 as [->| ->]; [left|right]; reflexivity|].
    rewrite Hn4, Hcl, Hs1. simpl. rewrite <- app_assoc. simpl.
    now rewrite Hs2.
Qed.

Lemma aborted_run_starts_no_later_target_witness :
  let env := crashing_harness ["c1"] in
  is_Some (RunAll env two_target_engine half_blocked_world).1.1 /\
  map start_args
    (harness_starts (RunAll env two_target_engine half_blocked_world).2)
  = [ Some ("FuzzDecode", "pkg/codec", 150000000000, 4) ].
Proof.
  intros env.
  destruct (RunAll env two_target_engine half_blocked_world).1.1
    as [err|] eqn:E.
  - split; [eauto|].
    destruct (aborted_run_starts_no_later_target env two_target_engine
                half_blocked_world err E) as (n & started & _ & _ & _ & H).
    vm_compute. reflexivity.
  - exfalso. vm_compute in E. discriminate.
Defined.

End AbortedRun.

(** ** Counting new corpus items *)

Section NewItems.

Import Corpus Runner.

Lemma entries_length f dir :
  length (entries f dir) = size (direct_entries f dir).
Proof.
  unfold entries, direct_entries.
  rewrite sort_by_Permutation.
  match goal with |- context [omap ?g0 _] => set (g := g0) end.
  induction f as [|i x m Hi IH] using map_ind.
  - rewrite map_to_list_empty, map_filter_empty, map_size_empty. reflexivity.
  - rewrite map_to_list_insert by exact Hi.
    rewrite omap_cons_match. unfold g at 1. simpl fst. simpl snd.
    destruct (entry_name dir i) as [n|] eqn:En.
    + rewrite map_filter_insert_True by (simpl; rewrite En; eauto).
      rewrite map_size_insert_None; [simpl; now rewrite IH|].
      apply map_lookup_filter_None. left. exact Hi.
    + rewrite map_filter_insert_not'.
      * exact IH.
      * simpl. rewrite En. intros [? ?]. discriminate.
      * intros y Hy. congruence.
Qed.

Lemma in_tree_entry dir k n : entry_name dir k = Some n -> in_tree dir k = true.
Proof.
  intros H. apply entry_name_Some in H as [-> _]. apply in_tree_below.
Qed.

Lemma direct_entries_agree f f' dir :
  (forall k, in_tree dir k = true -> f !! k = f' !! k) ->
  direct_entries f dir = direct_entries f' dir.
Proof.
  intros H. apply map_eq. intros k. apply option_eq. intros nd.
  unfold direct_entries. rewrite !map_lookup_filter_Some. simpl.
  split; intros [Hl [n Hn]]; (split; [|eauto]);
    [rewrite <- H|rewrite H]; try exact Hl; eapply in_tree_entry; eauto.
Qed.

Lemma importEntries_frame targetDir src ents k : forall w,
  (forall e, e ∈ ents -> k <> Join [targetDir; de_name e]) ->
  fs (importEntries targetDir src ents w).2 !! k = fs w !! k.
Proof.
  induction ents as [|en rest IH]; intros w Hk; simpl; [reflexivity|].
  assert (Hrest : forall e, e ∈ rest -> k <> Join [targetDir; de_name e])
    by (intros e He; apply Hk; now apply list_elem_of_further).
  destruct (de_isdir en); [now apply IH|].
  unfold Stat. simpl. destruct (path_exists _ _).
  - now rewrite IH.
  - match goal with
    | |- context [Corpus.copyFile ?a ?b ?w0] =>
        pose proof (copyFile_other a b w0 k
                      (Hk en (list_elem_of_here _ _))) as Ho;
        destruct (Corpus.copyFile a b w0) as [[err|] w2]
    end; simpl in *; [exact Ho|].
    now rewrite IH.
Qed.

(** An import into a cached directory, whose minimization step changes
    nothing, touches entries of that directory only. *)
Lemma import_frame env m t src w dir k :
  copy_only env m ->
  TargetDirs m !! targetKey t = Some dir ->
  (forall name, k <> Join [dir; name]) ->
  fs (ImportNewCorpusEntries env m t src w).2 !! k = fs w !! k.
Proof.
  intros Hco Hc Hk.
  destruct (import_is_copyPhase env m t src w Hco) as [_ ->].
  unfold copyPhase. rewrite (GetTargetDir_cached m t w dir Hc).
  unfold ReadDir. simpl.
  destruct (_ && _); [|reflexivity].
  match goal with
  | |- context [importEntries dir src ?ents ?w0] =>
      pose proof (importEntries_frame dir src ents k w0
                    (fun e _ => Hk (de_name e))) as Hf;
      destruct (importEntries dir src ents w0) as [err w3]
  end.
  exact Hf.
Qed.

(** X26.  [NewCorpusItems] is not a count of what is new: when [RunTarget]
    returns a result (the minimizer changing nothing, the directory of the
    target lying apart from the scratch directory), the field is the
    number of entries, files and directories alike, that lie directly in
    [tempDir/corpus] as the harness left it, the copies of the old corpus
    included; it is zero when that directory is gone. *)
Theorem new_corpus_items_counts_all_entries
    (env : Env) (e e' : FuzzEngine) (t : Discovery.Target) (w w' : World)
    (r : Result) :
  quiet_minimizer env ->
  RunTarget env e t w = (inr r, e', w') ->
  exists tempDir w1 e1 w4,
    MkdirTemp env "" "fuzz-run-*" w = (inr tempDir, w1) /\
    stage e t tempDir w1 = (None, e1, w4) /\
    let left := h_fs (harnessRun env e1 t tempDir (fs w4)) in
    let corpusDir := (GetTargetDir (CorpusManager e) t w).1.1 in
    (forall name, in_tree tempDir (Join [corpusDir; name]) = false) ->
    NewCorpusItems r
    = if is_dir left (tempDir +:+ "/corpus")
      then Z.of_nat (size (direct_entries left (tempDir +:+ "/corpus")))
      else 0.
Proof.
  intros Hq Hrun.
  apply RunTarget_import in Hrun
    as (tmp & w1 & e1 & w4 & wc & cm2 & w8 & Hmk & Hst & Hwc & Himp & _ & Hn).
  exists tmp, w1, e1, w4. split; [exact Hmk|]. split; [exact Hst|].
  intros left corpusDir Hapart.
  pose proof (stage_manager e t tmp w1) as Hm. rewrite Hst in Hm.
  simpl in Hm.
  pose proof (GetTargetDir_caches (CorpusManager e) t w1) as Hcache.
  rewrite <- Hm in Hcache.
  rewrite <- (GetTargetDir_dir (CorpusManager e) t w w1) in Hcache.
  fold corpusDir in Hcache.
  apply MkdirTemp_ok in Hmk as (_ & Hne & _).
  assert (Hsame : forall k, in_tree tmp k = true -> fs w8 !! k = left !! k).
  { intros k Hk. unfold left. rewrite <- Hwc.
    pose proof (import_frame env (CorpusManager e1) t (Join [tmp; "corpus"])
                  wc corpusDir k (or_intror Hq) Hcache) as Hf.
    rewrite Himp in Hf. apply Hf.
    intros name ->. rewrite Hapart in Hk. discriminate. }
  rewrite Hn. unfold ReadDir. simpl.
  rewrite (Join_child tmp "corpus") by (try discriminate; exact Hne).
  change (tmp +:+ "/corpus") with (tmp +:+ "/" +:+ "corpus").
  set (d := tmp +:+ "/" +:+ "corpus").
  assert (Hd : d <> "") by (unfold d; destruct tmp; discriminate).
  rewrite bool_decide_eq_false_2 by exact Hd. simpl.
  assert (Hdir : is_dir (fs w8) d = is_dir left d).
  { unfold is_dir. now rewrite (Hsame d (in_tree_below tmp "corpus")). }
  rewrite Hdir. destruct (is_dir left d); simpl; [|reflexivity].
  rewrite entries_length. f_equal. f_equal.
  apply direct_entries_agree. intros k Hk. apply Hsame.
  eapply in_tree_child_parent. exact Hk.
Qed.

Lemma new_corpus_items_counts_all_entries_witness :
  match NewFuzzEngine Config.Default [example_target] seeded_world with
  | (inr e, w) =>
      NewCorpusItems <$> result_of (Some (RunTarget idle_harness e
                                            example_target w)) = Some 2 /\
      exists r tempDir w1 e1 w4,
        (RunTarget idle_harness e example_target w).1.1 = inr r /\
        MkdirTemp idle_harness "" "fuzz-run-*" w = (inr tempDir, w1) /\
        stage e example_target tempDir w1 = (None, e1, w4)
  | (inl _, _) => False
  end.
Proof.
  destruct (NewFuzzEngine Config.Default [example_target] seeded_world)
    as [[err|e] w] eqn:En.
  { assert (H : match (NewFuzzEngine Config.Default [example_target]
                         seeded_world).1 with
                | inr _ => True | inl _ => False end) by (vm_compute; exact I).
    now rewrite En in H. }
  assert (He : e = (match (NewFuzzEngine Config.Default [example_target]
                             seeded_world).1 with
                    | inr e0 => e0
                    | inl _ => e
                    end)) by (now rewrite En).
  assert (Hw : w = (NewFuzzEngine Config.Default [example_target]
                      seeded_world).2) by (now rewrite En).
  split.
  - rewrite He, Hw. vm_compute. reflexivity.
  - destruct (RunTarget idle_harness e example_target w)
      as [[o e'] w'] eqn:E.
    assert (Ho : exists r, o = inr r).
    { assert (H : match (RunTarget idle_harness e example_target w).1.1 with
                  | inr _ => True | inl _ => False end).
      { rewrite He, Hw. vm_compute. exact I. }
      rewrite E in H. simpl in H. destruct o; [contradiction|eauto]. }
    destruct Ho as [r ->].
    destruct (new_corpus_items_counts_all_entries idle_harness e e'
                example_target w w' r)
      as (tmp & w1 & e1 & w4 & Hmk & Hst & _).
    + intros name pkg dir f. reflexivity.
    + exact E.
    + exists r, tmp, w1, e1, w4. auto.
Defined.

End NewItems.
